(** * echonest.audio: sample buffers, quanta and the cached analysis

    A shallow embedding of [src/echonest/audio.py].  Python objects live
    in a store indexed by references, and every function of the module
    is a computation in a small state-and-exception monad over that
    store, so that in-place mutation, object identity and the point at
    which an exception leaves the store are all visible in the
    statements below.

    Conventions.
    - Python [int] is [Z]; Python [float] is idealised as an exact
      rational [Q] (no rounding error); [int(x)] truncates towards zero.
    - A numpy array of shape [(n,)] or [(n, c)] is the list of its [n]
      rows.  All arrays of one development share the trailing shape,
      which is the type [Row]; numpy broadcasting is therefore only
      modelled along the first axis.
    - [self.data] is bound only in [AudioData.__init__], to a fresh
      [numpy.zeros] array.  Views such as [data[i:j]] are read or written
      on the spot and never stored, so every [AudioData] object owns its
      array and the array is kept inside the object. *)

From Stdlib Require Import ZArith QArith Qround.
From stdpp Require Import gmap strings list fin_maps.

Local Open Scope Z_scope.

(** ** Exceptions and the store monad *)

Inductive exn : Type :=
| TypeError
| ValueError
| IndexError
| AttributeError
| KeyError
| FetchError (code : Z)   (* raised by the remote analysis collaborator *)
| ParseError (code : Z)   (* raised by a parse function *)
| NoSuchObject.           (* a reference outside the store: unreachable from Python *)

Inductive outcome (A : Type) : Type :=
| Return (a : A)
| Raise (e : exn).
Arguments Return {A} a.
Arguments Raise {A} e.

Definition M (S A : Type) : Type := S -> outcome A * S.

Definition ret {S A} (a : A) : M S A := fun s => (Return a, s).

Definition raise {S A} (e : exn) : M S A := fun s => (Raise e, s).

Definition bind {S A B} (m : M S A) (k : A -> M S B) : M S B :=
  fun s => match m s with
           | (Return a, s') => k a s'
           | (Raise e, s') => (Raise e, s')
           end.

Definition gets {S A} (f : S -> A) : M S A := fun s => (Return (f s), s).

Definition modify {S} (f : S -> S) : M S unit := fun s => (Return tt, f s).

(** [try: m  except: h] with a bare [except]: every exception is caught
    and the store keeps what [m] did before raising. *)
Definition try_except {S A} (m : M S A) (h : M S A) : M S A :=
  fun s => match m s with
           | (Return a, s') => (Return a, s')
           | (Raise _, s') => h s'
           end.

Definition lift {S A} (o : outcome A) : M S A := fun s => (o, s).

Notation "'let!' x ':=' m 'in' k" := (bind m (fun x => k))
  (at level 10, x name, m at level 100, k at level 200).
Notation "m ';;' k" := (bind m (fun _ => k))
  (at level 100, k at level 200, right associativity).

(** [for x in l: body(x)] *)
Fixpoint for_each {S A} (l : list A) (body : A -> M S unit) : M S unit :=
  match l with
  | [] => ret tt
  | x :: l' => body x ;; for_each l' body
  end.

(** ** Python numbers, sequences and slices *)

(** [int(x)] on a float: truncation towards zero. *)
Definition py_int (x : Q) : Z := Z.quot (Qnum x) (Z.pos (Qden x)).

(** [round(x)] of Python 2: to the nearest integer, ties away from zero. *)
Definition py_round (x : Q) : Z :=
  if Qle_bool 0 x then Qfloor (x + (1 # 2))%Q else Qceiling (x - (1 # 2))%Q.

Definition len {A} (l : list A) : Z := Z.of_nat (length l).

(** One bound of [seq[start:stop]], as CPython adjusts it for a
    sequence of length [n]: an omitted bound takes its default, a
    negative one counts from the end, and both are clipped to [0, n]. *)
Definition adjust_bound (b : option Z) (default n : Z) : Z :=
  match b with
  | None => default
  | Some i => if i <? 0 then Z.max (i + n) 0 else Z.min i n
  end.

Definition slice_lo (start : option Z) (n : Z) : Z := adjust_bound start 0 n.
Definition slice_hi (stop : option Z) (n : Z) : Z := adjust_bound stop n n.

(** Number of items selected by [seq[start:stop]]. *)
Definition slice_len (start stop : option Z) (n : Z) : Z :=
  Z.max 0 (slice_hi stop n - slice_lo start n).

(** [seq[start:stop]] *)
Definition getrows {A} (l : list A) (start stop : option Z) : list A :=
  take (Z.to_nat (slice_len start stop (len l)))
       (drop (Z.to_nat (slice_lo start (len l))) l).

(** [seq[i]] for a Python list or the first axis of an array: a negative
    index counts from the end, anything outside raises [IndexError]. *)
Definition py_index {A} (l : list A) (i : Z) : outcome A :=
  let j := if i <? 0 then i + len l else i in
  if j <? 0 then Raise IndexError
  else match l !! Z.to_nat j with
       | Some x => Return x
       | None => Raise IndexError
       end.

(** numpy broadcasting of an operand with rows [v] against a view of [m]
    rows, along the first axis: the row counts agree, or the operand has
    exactly one row, which is repeated. *)
Definition broadcast_rows {A} (m : nat) (v : list A) : outcome (list A) :=
  if decide (length v = m) then Return v
  else match v with
       | [r] => Return (replicate m r)
       | _ => Raise ValueError
       end.

(** Replace the rows [lo, lo + length w) of [l] by [w]. *)
Definition splice {A} (l : list A) (lo : nat) (w : list A) : list A :=
  take lo l ++ w ++ drop (lo + length w) l.

(** [a[start:stop] = v] on an array: nothing is written when the shapes
    do not broadcast. *)
Definition setrows {A} (l : list A) (start stop : option Z) (v : list A)
  : outcome (list A) :=
  let lo := Z.to_nat (slice_lo start (len l)) in
  let m := Z.to_nat (slice_len start stop (len l)) in
  match broadcast_rows m v with
  | Return w => Return (splice l lo w)
  | Raise e => Raise e
  end.

(** [a[start:stop] += v] on an array, with [add] the addition of rows. *)
Definition iaddrows {A} (add : A -> A -> A) (l : list A)
    (start stop : option Z) (v : list A) : outcome (list A) :=
  let lo := Z.to_nat (slice_lo start (len l)) in
  let m := Z.to_nat (slice_len start stop (len l)) in
  match broadcast_rows m v with
  | Return w => Return (splice l lo (zip_with add (take m (drop lo l)) w))
  | Raise e => Raise e
  end.

(** ** Objects *)

Definition ref : Type := nat.

(** An element of a raw annotation document, as [dataParser] reads it:
    [float(n.firstChild.data)] and
    [float(n.getAttributeNode('confidence').value)].  An element
    without text or without a [confidence] attribute, or whose text is
    not a number, makes these reads raise ([AttributeError],
    [ValueError]); such an element has no [Node], and what is stated
    about [dataParser] is stated for documents whose elements of the
    tag all carry both numbers. *)
Record Node : Type := mkNode {
  node_data : Q;
  node_confidence : Q
}.

(** The Python values that are stored in attributes of the objects
    below.  [VDoc] is a document returned by the analysis service, seen
    through [getElementsByTagName]. *)
Inductive pyval : Type :=
| VNone
| VInt (i : Z)
| VFloat (x : Q)
| VDoc (d : gmap string (list Node))
| VQuantum (r : ref)
| VQuantumList (r : ref)
| VAnalysis (r : ref).

(** [class AudioQuantum].  [__init__] binds [start], [duration], [kind]
    and [confidence]; [container] is bound later, by
    [AudioQuantumList.attach], so the attribute may not exist at all:
    [container = None] is the missing attribute, and
    [container = Some VNone] is the attribute bound to Python's [None]. *)
Record AudioQuantum : Type := mkAudioQuantum {
  start : Q;
  duration : Q;
  kind : option string;
  confidence : option Q;
  container : option pyval
}.

(** [class AudioData], without the file decoding of [__init__]
    ([filename] is [None]).  [data = None] is [self.data = None]. *)
Record AudioData {Row : Type} : Type := mkAudioData {
  data : option (list Row);
  endindex : Z;
  sampleRate : option Z;
  numChannels : option Z
}.
Arguments AudioData Row : clear implicits.
Arguments mkAudioData {Row} data endindex sampleRate numChannels.

(** The forms of index that [AudioData.__getitem__] tells apart.  Slices
    with a stride or with bounds of two different types are left out. *)
Inductive index : Type :=
| Sample (i : Z)                          (* [a[i]], an int *)
| Seconds (t : Q)                         (* [a[t]], a float *)
| OfQuantum (q : AudioQuantum)            (* [a[q]] *)
| SampleRange (start stop : option Z)     (* [a[i:j]], ints or omitted *)
| TimeRange (start stop : Q)              (* [a[s:t]], floats *)
| QuantumRange (first last : AudioQuantum). (* [a[q1:q2]] *)

(** What [__getitem__] returns: a raw row of samples or a new buffer. *)
Inductive item {Row : Type} : Type :=
| Frame (r : Row)
| Buffer (a : ref).
Arguments item Row : clear implicits.

(** ** Sample buffers *)

Section Buffers.

Context {Row : Type}.

(** One row of [numpy.zeros(shape, dtype=numpy.int16)]. *)
Variable zero_row : Row.
(** [data.shape[1]] when the arrays have two axes, [None] when they
    have one. *)
Variable shape1 : option Z.
(** A row of int16 samples multiplied in place by a float, and the
    sum of two rows. *)
Variable row_mul : Q -> Row -> Row.
Variable row_add : Row -> Row -> Row.

Abbreviation Heap := (gmap ref (AudioData Row)).

Definition get_obj (r : ref) : M Heap (AudioData Row) :=
  fun h => match h !! r with
           | Some a => (Return a, h)
           | None => (Raise NoSuchObject, h)
           end.

Definition set_obj (r : ref) (a : AudioData Row) : M Heap unit :=
  modify (fun h => <[r := a]> h).

(** A new object: a reference that the store does not hold yet. *)
Definition new_obj (a : AudioData Row) : M Heap ref :=
  fun h => let r := fresh (dom h) in (Return r, <[r := a]> h).

(** [numpy.zeros(shape, dtype=numpy.int16)] with [shape[0] = n]. *)
Definition zeros (n : Z) : outcome (list Row) :=
  if n <? 0 then Raise ValueError
  else Return (replicate (Z.to_nat n) zero_row).

(** [AudioData.__init__(self, None, ndarray, shape, sampleRate,
    numChannels)], lines 174-187. *)
Definition AudioData_init (ndarray : option (list Row)) (shape : option Z)
    (sampleRate numChannels : option Z) : M Heap ref :=
  let! d := lift (match shape, ndarray with
                  | None, Some a => match zeros (len a) with
                                    | Return z => Return (Some z)
                                    | Raise e => Raise e
                                    end
                  | Some n, _ => match zeros n with
                                 | Return z => Return (Some z)
                                 | Raise e => Raise e
                                 end
                  | None, None => Return None
                  end) in
  match ndarray with
  | None => new_obj (mkAudioData d 0 sampleRate numChannels)
  | Some a =>
      let e := len a in
      match d with
      | None => raise TypeError
      | Some z =>
          let! z' := lift (setrows z (Some 0) (Some e) a) in
          new_obj (mkAudioData (Some z') e sampleRate numChannels)
      end
  end.

(** [self.data[start:stop]]; subscripting [None] is a [TypeError]. *)
Definition data_slice (a : AudioData Row) (start stop : option Z)
  : outcome (list Row) :=
  match data a with
  | Some d => Return (getrows d start stop)
  | None => Raise TypeError
  end.

(** [x * self.sampleRate] for a float [x].  The product is taken in
    exact rational arithmetic: the rounding of IEEE doubles is not
    modelled, so a statement that needs the product of a sum to be the
    sum of the products is not made about the code. *)
Definition times_rate (a : AudioData Row) (x : Q) : outcome Q :=
  match sampleRate a with
  | Some sr => Return (x * inject_Z sr)%Q
  | None => Raise TypeError
  end.

(** [AudioData.getslice] on a slice with float bounds. *)
Definition getslice_time (self : ref) (t0 t1 : Q) : M Heap ref :=
  let! a := get_obj self in
  let! x0 := lift (times_rate a t0) in
  let! x1 := lift (times_rate a t1) in
  let! rows := lift (data_slice a (Some (py_int x0)) (Some (py_int x1))) in
  AudioData_init (Some rows) None (sampleRate a) None.

(** [AudioData.getslice] on a slice with int or omitted bounds. *)
Definition getslice_samples (self : ref) (start stop : option Z) : M Heap ref :=
  let! a := get_obj self in
  let! rows := lift (data_slice a start stop) in
  AudioData_init (Some rows) None (sampleRate a) None.

(** [AudioData.getsample] on an int. *)
Definition getsample (self : ref) (i : Z) : M Heap Row :=
  let! a := get_obj self in
  match data a with
  | Some d => lift (py_index d i)
  | None => raise TypeError
  end.

(** [AudioData.__getitem__] *)
Definition getitem (self : ref) (ix : index) : M Heap (item Row) :=
  match ix with
  | Seconds t =>
      let! a := get_obj self in
      let! x := lift (times_rate a t) in
      let! r := getsample self (py_int x) in ret (Frame r)
  | OfQuantum q =>
      let! b := getslice_time self (start q) (start q + duration q)%Q in
      ret (Buffer b)
  | QuantumRange q1 q2 =>
      let! b := getslice_time self (start q1) (start q2 + duration q2)%Q in
      ret (Buffer b)
  | TimeRange t0 t1 =>
      let! b := getslice_time self t0 t1 in ret (Buffer b)
  | SampleRange i j =>
      let! b := getslice_samples self i j in ret (Buffer b)
  | Sample i =>
      let! r := getsample self i in ret (Frame r)
  end.

(** [AudioData.__len__] *)
Definition AudioData_len (a : AudioData Row) : Z :=
  match data a with
  | Some d => len d
  | None => 0
  end.

(** [AudioData.append]: the right-hand side [as2.data[0:]] is
    evaluated first, then the target slice, then the assignment; the
    end index moves only when the assignment did not raise. *)
Definition append (self as2 : ref) : M Heap unit :=
  let! b := get_obj as2 in
  let! rhs := lift (data_slice b (Some 0) None) in
  let! a := get_obj self in
  match data a with
  | None => raise TypeError
  | Some d =>
      let! d' := lift (setrows d (Some (endindex a))
                         (Some (endindex a + AudioData_len b)) rhs) in
      set_obj self (mkAudioData (Some d') (endindex a) (sampleRate a) (numChannels a)) ;;
      let! a' := get_obj self in
      let! b' := get_obj as2 in
      set_obj self (mkAudioData (data a') (endindex a' + AudioData_len b')
                      (sampleRate a') (numChannels a'))
  end.

(** [for s in segs: dur += int(s.duration*audioData.sampleRate)] *)
Fixpoint sum_durations (audioData : ref) (segs : list AudioQuantum) (dur : Z)
  : M Heap Z :=
  match segs with
  | [] => ret dur
  | s :: segs' =>
      let! a := get_obj audioData in
      let! x := lift (times_rate a (duration s)) in
      sum_durations audioData segs' (dur + py_int x)
  end.

(** [getpieces(audioData, segs)] *)
Definition getpieces (audioData : ref) (segs : list AudioQuantum) : M Heap ref :=
  let! dur := sum_durations audioData segs 0 in
  let dur := dur + 100000 in
  let! a := get_obj audioData in
  match data a with
  | None => raise AttributeError
  | Some _ =>
      let newchans := match shape1 with Some c => c | None => 1 end in
      let! newAD := AudioData_init None (Some dur) (sampleRate a) (Some newchans) in
      for_each segs (fun s =>
        let! piece := getitem audioData (OfQuantum s) in
        match piece with
        | Buffer b => append newAD b
        | Frame _ => raise TypeError
        end) ;;
      ret newAD
  end.

(** [x.data *= f] *)
Definition imul_data (x : ref) (f : Q) : M Heap unit :=
  let! a := get_obj x in
  match data a with
  | None => raise TypeError
  | Some d => set_obj x (mkAudioData (Some (map (row_mul f) d)) (endindex a)
                           (sampleRate a) (numChannels a))
  end.

(** [x.data[:stop] += y.data[0:]]; the last branch of [mix] writes the
    right-hand side [y.data[:]], the same rows. *)
Definition iadd_data (x : ref) (stop : option Z) (y : ref) : M Heap unit :=
  let! a := get_obj x in
  let! b := get_obj y in
  match data a, data b with
  | Some d, Some _ =>
      let! rhs := lift (data_slice b (Some 0) None) in
      let! d' := lift (iaddrows row_add d None stop rhs) in
      set_obj x (mkAudioData (Some d') (endindex a) (sampleRate a) (numChannels a))
  | _, _ => raise TypeError
  end.

(** [mix(audioDataA, audioDataB, mix)].  The result is [Some] of the
    returned object, or [None] when control falls off the end of the
    [if]/[elif] chain and Python returns [None].  [same_end] is the
    test of the last [elif]. *)
Definition mix_with (same_end : Z -> Z -> bool)
    (audioDataA audioDataB : ref) (mix : Q) : M Heap (option ref) :=
  imul_data audioDataA mix ;;
  imul_data audioDataB (1 - mix)%Q ;;
  let! a := get_obj audioDataA in
  let! b := get_obj audioDataB in
  if endindex b <? endindex a then
    iadd_data audioDataA (Some (endindex b)) audioDataB ;;
    ret (Some audioDataA)
  else if endindex a <? endindex b then
    iadd_data audioDataB (Some (endindex a)) audioDataA ;;
    ret (Some audioDataB)
  else if same_end (endindex a) (endindex b) then
    iadd_data audioDataA None audioDataB ;;
    ret (Some audioDataA)
  else ret None.

(** The function as written: the last test is
    [audioDataA.endindex == audioDataA.endindex]. *)
Definition mix : ref -> ref -> Q -> M Heap (option ref) :=
  mix_with (fun ea _ => ea =? ea).

(** The variant with the three-way comparison spelled out: the last
    test is [audioDataA.endindex == audioDataB.endindex]. *)
Definition mix_three_way : ref -> ref -> Q -> M Heap (option ref) :=
  mix_with (fun ea eb => ea =? eb).

End Buffers.

(** ** Quanta and their collections *)

(** [class AudioQuantumList(list)]: the list items are references to
    quanta; [kind] and [container] are bound by [__init__]. *)
Record AudioQuantumList : Type := mkAudioQuantumList {
  items : list ref;
  list_kind : option string;
  list_container : pyval
}.

(** The store of quanta and collections. *)
Record Store : Type := mkStore {
  quanta : gmap ref AudioQuantum;
  qlists : gmap ref AudioQuantumList
}.

Definition get_quantum (r : ref) : M Store AudioQuantum :=
  fun s => match quanta s !! r with
           | Some q => (Return q, s)
           | None => (Raise NoSuchObject, s)
           end.

Definition set_quantum (r : ref) (q : AudioQuantum) : M Store unit :=
  modify (fun s => mkStore (<[r := q]> (quanta s)) (qlists s)).

Definition new_quantum (q : AudioQuantum) : M Store ref :=
  fun s => let r := fresh (dom (quanta s)) in
           (Return r, mkStore (<[r := q]> (quanta s)) (qlists s)).

Definition get_list (r : ref) : M Store AudioQuantumList :=
  fun s => match qlists s !! r with
           | Some l => (Return l, s)
           | None => (Raise NoSuchObject, s)
           end.

Definition set_list (r : ref) (l : AudioQuantumList) : M Store unit :=
  modify (fun s => mkStore (quanta s) (<[r := l]> (qlists s))).

Definition new_list (l : AudioQuantumList) : M Store ref :=
  fun s => let r := fresh (dom (qlists s)) in
           (Return r, mkStore (quanta s) (<[r := l]> (qlists s))).

(** [AudioQuantum.__init__(self, start, duration, kind, confidence)]:
    the four attributes are bound and [container] is not. *)
Definition AudioQuantum_init (start duration : Q) (kind : option string)
    (confidence : option Q) : AudioQuantum :=
  mkAudioQuantum start duration kind confidence None.

Definition with_duration (q : AudioQuantum) (d : Q) : AudioQuantum :=
  mkAudioQuantum (start q) d (kind q) (confidence q) (container q).

(** [q.duration = d] *)
Definition set_duration (r : ref) (d : Q) : M Store unit :=
  let! q := get_quantum r in
  set_quantum r (with_duration q d).

(** [q.container = c] *)
Definition set_container (r : ref) (c : pyval) : M Store unit :=
  let! q := get_quantum r in
  set_quantum r (mkAudioQuantum (start q) (duration q) (kind q) (confidence q) (Some c)).

(** [out.append(q)] on the underlying list. *)
Definition list_append (out q : ref) : M Store unit :=
  let! l := get_list out in
  set_list out (mkAudioQuantumList (items l ++ [q]) (list_kind l) (list_container l)).

(** [len(out)] *)
Definition list_len (out : ref) : M Store Z :=
  let! l := get_list out in ret (len (items l)).

(** [out[i]] *)
Definition list_getitem (out : ref) (i : Z) : M Store ref :=
  let! l := get_list out in lift (py_index (items l) i).

(** [list.index]: the position of the first item that is [x].
    [AudioQuantum] defines no [__eq__], so items are compared by
    identity; [ValueError] when there is none. *)
Fixpoint index_of (l : list ref) (x : ref) : outcome Z :=
  match l with
  | [] => Raise ValueError
  | y :: l' => if decide (y = x) then Return 0
               else match index_of l' x with
                    | Return i => Return (i + 1)
                    | Raise e => Raise e
                    end
  end.

(** [range(n)] *)
Definition range (n : Z) : list Z := map Z.of_nat (seq 0 (Z.to_nat n)).

(** [AudioQuantumList.attach] *)
Definition attach (self : ref) (c : pyval) : M Store unit :=
  let! l := get_list self in
  set_list self (mkAudioQuantumList (items l) (list_kind l) c) ;;
  for_each (items l) (fun i => set_container i (VQuantumList self)).

(** [AudioQuantumList.that(filt)], for a [filt] that returns its
    argument or a false value, as the functions of the [selection]
    module do: [filter(None, map(filt, self))] keeps the items on which
    [filt] holds, in order, in a new collection. *)
Fixpoint select (filt : AudioQuantum -> bool) (l : list ref) : M Store (list ref) :=
  match l with
  | [] => ret []
  | r :: l' =>
      let! q := get_quantum r in
      let! rest := select filt l' in
      ret (if filt q then r :: rest else rest)
  end.

Definition that (self : ref) (filt : AudioQuantum -> bool) : M Store ref :=
  let! l := get_list self in
  let! kept := select filt (items l) in
  new_list (mkAudioQuantumList kept None VNone).

Definition Qltb (x y : Q) : bool := negb (Qle_bool y x).

(** Modelled from the spec: the [selection] module is imported by
    [audio.py] but is not part of the sources.  Section 4.1 defines
    overlap(a, interval-of-b) as [a.start < b.start + b.duration AND
    a.start + a.duration > b.start]. *)
Definition overlap (b a : AudioQuantum) : bool :=
  Qltb (start a) (start b + duration b) && Qltb (start b) (start a + duration a).

(** [dataParser(tag, doc)] *)
Definition dataParser (tag : string) (doc : gmap string (list Node)) : M Store ref :=
  let! out := new_list (mkAudioQuantumList [] (Some tag) VNone) in
  let nodes := default [] (doc !! tag) in
  for_each nodes (fun n =>
    let! q := new_quantum (AudioQuantum_init (node_data n) 0 (Some tag)
                             (Some (node_confidence n))) in
    list_append out q) ;;
  let! n := list_len out in
  (if 1 <? n then
     for_each (range (n - 1)) (fun i =>
       let! next := list_getitem out (i + 1) in
       let! qn := get_quantum next in
       let! this := list_getitem out i in
       let! qt := get_quantum this in
       set_duration this (start qn - start qt)%Q) ;;
     let! penultimate := list_getitem out (-2) in
     let! qp := get_quantum penultimate in
     let! last := list_getitem out (-1) in
     set_duration last (duration qp)
   else ret tt) ;;
  ret out.

(** [self.container] on a quantum: [AttributeError] when the attribute
    was never bound. *)
Definition quantum_container (self : ref) : M Store pyval :=
  let! q := get_quantum self in
  match container q with
  | Some c => ret c
  | None => raise AttributeError
  end.

(** [group.index(self)]: only a collection has an [index] method. *)
Definition group_index (group : pyval) (self : ref) : M Store Z :=
  match group with
  | VQuantumList g => let! l := get_list g in lift (index_of (items l) self)
  | _ => raise AttributeError
  end.

(** [group[new]] and [len(group)] *)
Definition group_getitem (group : pyval) (new : Z) : M Store ref :=
  match group with
  | VQuantumList g => list_getitem g new
  | _ => raise TypeError
  end.

Definition group_len (group : pyval) : M Store Z :=
  match group with
  | VQuantumList g => list_len g
  | _ => raise TypeError
  end.

(** [AudioQuantum.prev]: [group = self.container] is read before the
    [try] block is entered. *)
Definition prev (self : ref) (step : Z) : M Store ref :=
  let! group := quantum_container self in
  try_except
    (let! loc := group_index group self in
     let new := Z.max (loc - step) 0 in
     group_getitem group new)
    (ret self).

(** [AudioQuantum.next] *)
Definition next (self : ref) (step : Z) : M Store ref :=
  let! group := quantum_container self in
  try_except
    (let! loc := group_index group self in
     let! n := group_len group in
     let new := Z.min (loc + step) n in
     group_getitem group new)
    (ret self).

(** ** The cached analysis *)

Definition CACHED_VARIABLES : list string :=
  ["bars"; "beats"; "duration"; "end_of_fade_in"; "key"; "loudness";
   "metadata"; "mode"; "sections"; "segments"; "start_of_fade_out";
   "tatums"; "tempo"; "time_signature"]%string.

(** A parse function: it reads the fetched value and may build quanta
    and collections. *)
Definition Parser : Type := pyval -> M Store pyval.

(** [class AudioAnalysis]: [attrs] is the dictionary of the instance
    attributes that hold values, among them the ones named in
    [CACHED_VARIABLES], which [__init__] binds to [None]. *)
Record AudioAnalysis : Type := mkAudioAnalysis {
  id : string;
  parsers : gmap string Parser;
  attrs : gmap string pyval
}.

Section Analysis.

(** The remote analysis service: [analyze name tid] is
    [analyze.__dict__['get_' + name](tid)], a computation over the
    state of the service. *)
Variable World : Type.
Variable analyze : string -> string -> M World pyval.

(** The whole state.  [fetches] is a history variable: the requests
    made of the service so far, latest last. *)
Record State : Type := mkState {
  store : Store;
  analyses : gmap ref AudioAnalysis;
  world : World;
  fetches : list (string * string)
}.

Definition on_store {A} (m : M Store A) : M State A :=
  fun s => let '(o, st) := m (store s) in
           (o, mkState st (analyses s) (world s) (fetches s)).

Definition get_analysis (r : ref) : M State AudioAnalysis :=
  fun s => match analyses s !! r with
           | Some a => (Return a, s)
           | None => (Raise NoSuchObject, s)
           end.

(** [object.__getattribute__(self, name)] for a cached variable. *)
Definition object_getattribute (self : ref) (name : string) : M State pyval :=
  let! a := get_analysis self in
  match attrs a !! name with
  | Some v => ret v
  | None => raise AttributeError
  end.

(** [self.__setattr__(name, value)] *)
Definition setattr (self : ref) (name : string) (value : pyval) : M State unit :=
  let! a := get_analysis self in
  modify (fun s => mkState (store s)
            (<[self := mkAudioAnalysis (id a) (parsers a) (<[name := value]> (attrs a))]>
               (analyses s))
            (world s) (fetches s)).

(** [getter(tid)]: one request to the service. *)
Definition fetch (name tid : string) : M State pyval :=
  fun s => let '(o, w) := analyze name tid (world s) in
           (o, mkState (store s) (analyses s) w (fetches s ++ [(name, tid)])).

(** [AudioAnalysis.__getattribute__], for the names of the cached
    variables; any other name is looked up as a plain attribute. *)
Definition getattribute (self : ref) (name : string) : M State pyval :=
  (if bool_decide (name ∈ CACHED_VARIABLES) then
     let! v := object_getattribute self name in
     match v with
     | VNone =>
         let! a := get_analysis self in
         let! value := fetch name (id a) in
         let! value := match parsers a !! name with
                       | Some parseFunction => on_store (parseFunction value)
                       | None => ret value
                       end in
         setattr self name value ;;
         let! v' := object_getattribute self name in
         match v' with
         | VQuantumList l => on_store (attach l (VAnalysis self))
         | _ => ret tt
         end
     | _ => ret tt
     end
   else ret tt) ;;
  object_getattribute self name.


(** [x.container] for the value [x] found in a quantum's [container]. *)
Definition getattr_container (x : pyval) : M State pyval :=
  match x with
  | VQuantumList l => on_store (let! g := get_list l in ret (list_container g))
  | VQuantum q => on_store (quantum_container q)
  | _ => raise AttributeError
  end.

(** [getattr(x, name)] for the name of a collection: only an analysis
    has such attributes. *)
Definition getattr_collection (x : pyval) (name : string) : M State pyval :=
  match x with
  | VAnalysis a => getattribute a name
  | _ => raise AttributeError
  end.

(** The dictionary [pars] of [AudioQuantum.parent]. *)
Definition pars (k : option string) : outcome string :=
  match k with
  | Some "tatum"%string => Return "beats"%string
  | Some "beat"%string => Return "bars"%string
  | Some "bar"%string => Return "sections"%string
  | _ => Raise KeyError
  end.

(** [try: x = m  except: return r], followed by the rest [k] of the
    function body, whose exceptions are not caught. *)
Definition try_or_return {S A R} (m : M S A) (r : R) (k : A -> M S R) : M S R :=
  fun s => match m s with
           | (Return a, s') => k a s'
           | (Raise _, s') => (Return r, s')
           end.

(** [AudioQuantum.parent] *)
Definition parent (self : ref) : M State ref :=
  try_or_return
    (let! c := on_store (quantum_container self) in
     let! cc := getattr_container c in
     let! q := on_store (get_quantum self) in
     let! name := lift (pars (kind q)) in
     getattr_collection cc name)
    self
    (fun uppers =>
       match uppers with
       | VQuantumList u =>
           on_store (let! q := get_quantum self in
                     let! sel := that u (overlap q) in
                     list_getitem sel 0)
       | _ => raise AttributeError
       end).

End Analysis.

Arguments mkState {World} store analyses world fetches.
Arguments store {World} s.
Arguments analyses {World} s.
Arguments world {World} s.
Arguments fetches {World} s.
Arguments on_store {World A} m s.

(** ** Concatenating two buffers *)

Section Concatenation.

Context {Row : Type}.
Variable zero_row : Row.

(** [AudioData.__add__]: the arrays are joined whole, whatever the end
    indices are; [None.copy()] is an [AttributeError]. *)
Definition AudioData_add (self as2 : ref) : M (gmap ref (AudioData Row)) ref :=
  let! a := get_obj self in
  match data a with
  | None =>
      let! b := get_obj as2 in
      match data b with
      | Some d2 => AudioData_init zero_row (Some d2) None None None
      | None => raise AttributeError
      end
  | Some d1 =>
      let! b := get_obj as2 in
      match data b with
      | None => AudioData_init zero_row (Some d1) None None None
      | Some d2 => AudioData_init zero_row (Some (d1 ++ d2)) None None None
      end
  end.

End Concatenation.

(** The index forms for which [__getitem__] returns a buffer. *)
Definition is_slice (ix : index) : bool :=
  match ix with
  | Sample _ | Seconds _ => false
  | _ => true
  end.

(** ** The rest of the navigation *)

(** Modelled from the spec: the [selection] module is not part of the
    sources.  Section 4.1 defines contained-by(a, b) as [b.start <=
    a.start AND a.start + a.duration <= b.start + b.duration]. *)
Definition are_contained_by (b a : AudioQuantum) : bool :=
  Qle_bool (start b) (start a) &&
  Qle_bool (start a + duration a) (start b + duration b).

(** [AudioQuantum.absolute_context]: nothing here is inside a [try]. *)
Definition absolute_context (self : ref) : M Store (Z * Z) :=
  let! group := quantum_container self in
  let! count := group_len group in
  let! loc := group_index group self in
  ret (loc, count).

(** The dictionary [chils] of [AudioQuantum.children]. *)
Definition chils (k : option string) : outcome string :=
  match k with
  | Some "beat"%string => Return "tatums"%string
  | Some "bar"%string => Return "beats"%string
  | Some "section"%string => Return "bars"%string
  | _ => Raise KeyError
  end.

(** [self.kind in ['tatum', 'beat', 'bar']] *)
Definition in_hierarchy (k : option string) : bool :=
  match k with
  | Some "tatum"%string | Some "beat"%string | Some "bar"%string => true
  | _ => false
  end.

Section Hierarchy.

Variable World : Type.
Variable analyze : string -> string -> M World pyval.

(** [AudioQuantum.children]: the quantum itself or a new collection. *)
Definition children (self : ref) : M (State World) pyval :=
  try_or_return
    (let! c := on_store (quantum_container self) in
     let! cc := getattr_container World c in
     let! q := on_store (get_quantum self) in
     let! name := lift (chils (kind q)) in
     getattr_collection World analyze cc name)
    (VQuantum self)
    (fun downers =>
       match downers with
       | VQuantumList dl =>
           on_store (let! q := get_quantum self in
                     let! sel := that dl (are_contained_by q) in
                     ret (VQuantumList sel))
       | _ => raise AttributeError
       end).

(** [AudioQuantum.group] *)
Definition group (self : ref) : M (State World) pyval :=
  let! q := on_store (get_quantum self) in
  if in_hierarchy (kind q) then
    let! p := parent World analyze self in
    children p
  else on_store (quantum_container self).

(** [AudioQuantum.local_context] *)
Definition local_context (self : ref) : M (State World) (Z * Z) :=
  let! g := group self in
  let! count := on_store (group_len g) in
  let! loc := on_store (group_index g self) in
  ret (loc, count).

End Hierarchy.

(** The collection [g] holds the pairwise distinct members [rs], each
    of which has [g] as its container. *)
Definition attached (s : Store) (g : ref) (rs : list ref) : Prop :=
  (exists k c, qlists s !! g = Some (mkAudioQuantumList rs k c)) /\
  NoDup rs /\
  forall r, r ∈ rs ->
    exists q, quanta s !! r = Some q /\ container q = Some (VQuantumList g).

(** [q] with its [container] attribute bound to [c]. *)
Definition with_container (q : AudioQuantum) (c : pyval) : AudioQuantum :=
  mkAudioQuantum (start q) (duration q) (kind q) (confidence q) (Some c).

(** The members of [rs], pointing to the quanta [qs], that [filt]
    accepts, in order. *)
Definition accepted (filt : AudioQuantum -> bool)
    (rs : list ref) (qs : list AudioQuantum) : list ref :=
  (filter (fun p : ref * AudioQuantum => filt p.2) (zip rs qs)).*1.

(** ** The parser of sections and segments *)

(** An element as [attributeParser] reads it:
    [float(n.getAttribute('start'))] and
    [float(n.getAttribute('duration'))]. *)
Record Element : Type := mkElement {
  attr_start : Q;
  attr_duration : Q
}.

(** [attributeParser(tag, doc)] *)
Definition attributeParser (tag : string) (doc : gmap string (list Element))
  : M Store ref :=
  let! out := new_list (mkAudioQuantumList [] (Some tag) VNone) in
  let nodes := default [] (doc !! tag) in
  for_each nodes (fun n =>
    let! q := new_quantum (AudioQuantum_init (attr_start n) (attr_duration n)
                             (Some tag) None) in
    list_append out q) ;;
  ret out.

(** ** Parse functions and the constructor of the analysis *)

(** [barsParser], [beatsParser] and [tatumsParser] are [dataParser] on
    the fetched document, with the tag of the kind.  A value that is
    not a document has no [getElementsByTagName]. *)
Definition collectionParser (tag : string) : Parser :=
  fun value =>
    match value with
    | VDoc doc => let! out := dataParser tag doc in ret (VQuantumList out)
    | _ => raise AttributeError
    end.

Definition barsParser : Parser := collectionParser "bar".
Definition beatsParser : Parser := collectionParser "beat".
Definition tatumsParser : Parser := collectionParser "tatum".


Section Constructor.

Variable World : Type.
(** [os.path.isfile], and [analyze.upload] followed by the reading of
    the ['thingID'] element of its answer. *)
Variable isfile : string -> bool.
Variable upload : string -> M World string.


End Constructor.

(** The identifiers of the analyses are the same in [s] and [s']. *)
Definition keeps_ids {World} (s s' : State World) : Prop :=
  forall r, id <$> analyses s' !! r = id <$> analyses s !! r.

(** ** The parser of full segments *)

(** A [dB] element of a segment: whether it has a [type] attribute, its
    [time] attribute and its text, both read with [float]. *)
Record LoudnessNode : Type := mkLoudnessNode {
  has_type : bool;
  dB_time : Q;
  dB_data : Q
}.

(** A [segment] element: its [start] and [duration] attributes and its
    [dB], [pitch] and [coeff] elements in document order. *)
Record SegmentNode : Type := mkSegmentNode {
  seg_start : Q;
  seg_duration : Q;
  seg_dB : list LoudnessNode;
  seg_pitch : list Q;
  seg_coeff : list Q
}.

(** [class AudioSegment(AudioQuantum)].  [loudness_end = None] is the
    missing attribute. *)
Record AudioSegment : Type := mkAudioSegment {
  segment_start : Q;
  segment_duration : Q;
  pitches : list Q;
  timbre : list Q;
  loudness_begin : Q;
  loudness_max : Q;
  time_loudness_max : Q;
  loudness_end : option Q;
  segment_kind : option string;
  segment_confidence : option Q
}.

(** [AudioSegment.__init__]: [if loudness_end:] binds the attribute only
    for a number other than zero. *)
Definition AudioSegment_init (start duration : Q) (pitches timbre : list Q)
    (loudness_begin loudness_max time_loudness_max : Q)
    (loudness_end : option Q) (kind : option string) : AudioSegment :=
  mkAudioSegment start duration pitches timbre
    loudness_begin loudness_max time_loudness_max
    (match loudness_end with
     | Some x => if Qeq_bool x 0 then None else Some x
     | None => None
     end)
    kind None.

(** The local variables [loudness_begin], [loudness_max] and
    [time_loudness_max] of [fullSegmentsParser]; [None] is a variable
    that nothing was assigned to yet. *)
Record Locals : Type := mkLocals {
  local_begin : option Q;
  local_max : option Q;
  local_time_max : option Q
}.

(** The outcome of the parser: the segments, or the [UnboundLocalError]
    of a local variable that is read before any assignment. *)
Inductive parse_outcome (A : Type) : Type :=
| Parsed (a : A)
| UnboundLocalError (name : string).
Arguments Parsed {A} a.
Arguments UnboundLocalError {A} name.

(** The body of [for l in loudnessnodes], on the locals and on
    [loudness_end]. *)
Definition scan_dB (st : Locals * option Q) (l : LoudnessNode)
  : Locals * option Q :=
  let '(loc, loudness_end) := st in
  if has_type l then
    (mkLocals (local_begin loc) (Some (dB_data l)) (Some (dB_time l)), loudness_end)
  else if negb (Qeq_bool (dB_time l) 0) then
    (loc, Some (dB_data l))
  else
    (mkLocals (Some (dB_data l)) (local_max loc) (local_time_max loc), loudness_end).

(** The call [AudioSegment(start=..., ..., loudness_end=loudness_end)]:
    the arguments are evaluated in the order they are written. *)
Definition make_segment (n : SegmentNode) (loc : Locals)
    (loudness_end : option Q) : parse_outcome AudioSegment :=
  match local_begin loc with
  | None => UnboundLocalError "loudness_begin"
  | Some lb =>
      match local_max loc with
      | None => UnboundLocalError "loudness_max"
      | Some lm =>
          match local_time_max loc with
          | None => UnboundLocalError "time_loudness_max"
          | Some tlm =>
              Parsed (AudioSegment_init (seg_start n) (seg_duration n)
                        (seg_pitch n) (seg_coeff n) lb lm tlm loudness_end
                        (Some "segment"%string))
          end
      end
  end.

(** The loop [for n in nodes] of [fullSegmentsParser], from the locals
    [loc].  The segments are new objects that nothing else refers to:
    the model gives them by value, in the order of the collection.
    [loudness_end] is reset for every segment, the three locals are
    not. *)
Fixpoint parse_segments (loc : Locals) (nodes : list SegmentNode)
  : parse_outcome (list AudioSegment) :=
  match nodes with
  | [] => Parsed []
  | n :: rest =>
      let '(loc', loudness_end) := foldl scan_dB (loc, None) (seg_dB n) in
      match make_segment n loc' loudness_end with
      | Parsed seg =>
          match parse_segments loc' rest with
          | Parsed l => Parsed (seg :: l)
          | UnboundLocalError x => UnboundLocalError x
          end
      | UnboundLocalError x => UnboundLocalError x
      end
  end.

(** [fullSegmentsParser(doc)], on the [segment] elements of [doc]. *)
Definition fullSegmentsParser (nodes : list SegmentNode)
  : parse_outcome (list AudioSegment) :=
  parse_segments (mkLocals None None None) nodes.

(** All three locals have been assigned. *)
Definition all_bound (loc : Locals) : Prop :=
  is_Some (local_begin loc) /\ is_Some (local_max loc) /\
  is_Some (local_time_max loc).

(** ** Quantities used in the statements about [getpieces] *)

Definition sumZ (l : list Z) : Z := foldr Z.add 0 l.

(** The rows of [audioData[s]]: [data[int(s.start*sr) :
    int((s.start+s.duration)*sr)]]. *)
Definition piece {Row} (sr : Z) (d : list Row) (s : AudioQuantum) : list Row :=
  getrows d (Some (py_int (start s * inject_Z sr)))
            (Some (py_int ((start s + duration s) * inject_Z sr))).

(** The number of rows that [getpieces] allocates:
    [sum(int(s.duration*sr)) + 100000]. *)
Definition allocated (sr : Z) (segs : list AudioQuantum) : Z :=
  sumZ (map (fun s => py_int (duration s * inject_Z sr)) segs) + 100000.

(** The length that the specification gives to the assembled buffer:
    [sum(round(q.duration * sampleRate) for q in orderedQuanta)]. *)
Definition rounded_length (sr : Z) (segs : list AudioQuantum) : Z :=
  sumZ (map (fun q => py_round (duration q * inject_Z sr)) segs).

(** ** Quantities used in the statements about [mix] *)

(** The shape of a buffer: the number of rows of its array, its end
    index, its sample rate and its channel count. *)
Definition shape_of {Row} (x : AudioData Row)
  : option nat * Z * option Z * option Z :=
  (length <$> data x, endindex x, sampleRate x, numChannels x).

(** The operands of the in-place addition of [mix] have the same number
    of rows: the array of the shorter buffer has exactly [endindex]
    rows and the array of the longer one has at least as many; when the
    end indices are equal, the two arrays have the same number of rows. *)
Definition addable {Row} (a b : AudioData Row) : Prop :=
  if endindex b <? endindex a then
    AudioData_len b = endindex b /\ endindex b <= AudioData_len a
  else if endindex a <? endindex b then
    AudioData_len a = endindex a /\ endindex a <= AudioData_len b
  else AudioData_len a = AudioData_len b.

(** The input that [mix] returns: the one with the larger end index,
    and the first one when the two are equal. *)
Definition longer {Row} (a b : AudioData Row) (ra rb : ref) : ref :=
  if endindex b <? endindex a then ra
  else if endindex a <? endindex b then rb
  else ra.

(** ** Mono buffers for the examples: a row is one int16 sample *)

Module Mono.

Definition zero : Z := 0.

(** The product with a float, cast back to an integer. *)
Definition mul (f : Q) (x : Z) : Z := py_int (f * inject_Z x).

(** int16 addition, wrapping around. *)
Definition add (x y : Z) : Z := (x + y + 32768) mod 65536 - 32768.

Definition buffer (d : list Z) (e : Z) : AudioData Z :=
  mkAudioData (Some d) e (Some 44100) (Some 1).

End Mono.

(** ** Quantities used in the statements about [dataParser] *)

(** The collection [out] of kind [tag] holds the references [rs], which
    are pairwise distinct and point to the quanta [qs]. *)
Definition built (tag : string) (out : ref) (s : Store)
    (rs : list ref) (qs : list AudioQuantum) : Prop :=
  qlists s !! out = Some (mkAudioQuantumList rs (Some tag) VNone) /\
  Forall2 (fun r q => quanta s !! r = Some q) rs qs /\
  NoDup rs.

(** The quantum at position [j] of [qs] has the duration that the
    start times [st] give it: the next start minus its own. *)
Definition spaced (st : list Q) (qs : list AudioQuantum) (j : nat) : Prop :=
  exists q x y, qs !! j = Some q /\ st !! j = Some x /\ st !! S j = Some y /\
                duration q = (y - x)%Q.

(** What a parser leaves behind, seen from the store [s0] it started
    in: the new collection [out] of kind [tag], not attached, holds the
    new, pairwise distinct quanta [rs], which point to [qs]; every
    quantum and every collection of [s0] is as it was. *)
Definition parsed (tag : string) (out : ref) (s0 s : Store)
    (rs : list ref) (qs : list AudioQuantum) : Prop :=
  built tag out s rs qs /\
  qlists s0 !! out = None /\
  (forall r, r ∈ rs -> quanta s0 !! r = None) /\
  (forall r, is_Some (quanta s0 !! r) -> quanta s !! r = quanta s0 !! r) /\
  (forall l, l <> out -> qlists s !! l = qlists s0 !! l).

(** ** Quantities used in the statements about the cached analysis *)

(** Every run of [m] relates the state before to the state after by [R]. *)
Definition preserves {S A} (R : S -> S -> Prop) (m : M S A) : Prop :=
  forall s o s', m s = (o, s') -> R s s'.

(** No request was made of the service between [s] and [s']: the
    service and the history of requests are the same. *)
Definition no_fetch {World} (s s' : State World) : Prop :=
  world s' = world s /\ fetches s' = fetches s.

(** ** Concrete stores for the examples *)

Module Ex.

(** Two buffers: an empty one preallocated with five rows, as
    [AudioData(shape=(5,), ...)] makes it, and one of three allocated
    rows of which only the first is below its end index, as
    [AudioData(shape=(3,), ...)] is after one [append] of a one-row
    slice (a result of [getpieces] has 100000 such rows). *)
Definition prealloc : AudioData Z := Mono.buffer [0; 0; 0; 0; 0] 0.
Definition partial : AudioData Z := Mono.buffer [7; 0; 0] 1.
Definition h_append : gmap ref (AudioData Z) :=
  {[ 0%nat := prealloc; 1%nat := partial ]}.

(** A full buffer of two rows, a buffer of one row and one of two. *)
Definition full2 : AudioData Z := Mono.buffer [1; 2] 2.
Definition one_row : AudioData Z := Mono.buffer [9] 1.
Definition two_rows : AudioData Z := Mono.buffer [8; 9] 2.
Definition h_full : gmap ref (AudioData Z) :=
  {[ 0%nat := full2; 1%nat := one_row; 2%nat := two_rows ]}.

(** A source of four samples at 4 Hz and a quantum that starts at 0
    and lasts 7/16 s, that is 1.75 samples. *)
Definition source : AudioData Z := mkAudioData (Some [1; 2; 3; 4]) 4 (Some 4) (Some 1).
Definition h_source : gmap ref (AudioData Z) := {[ 0%nat := source ]}.
Definition q_short : AudioQuantum := AudioQuantum_init 0 (7 # 16) (Some "beat"%string) None.
(** Two quanta of half a second, given out of time order. *)
Definition q_first : AudioQuantum := AudioQuantum_init 0 (1 # 2) (Some "beat"%string) None.
Definition q_second : AudioQuantum := AudioQuantum_init (1 # 2) (1 # 2) (Some "beat"%string) None.

(** Two full buffers of three and two rows, and the pair of a full
    buffer with [partial]. *)
Definition long3 : AudioData Z := Mono.buffer [10; 20; 30] 3.
Definition short2 : AudioData Z := Mono.buffer [4; 6] 2.
Definition h_mix : gmap ref (AudioData Z) := {[ 0%nat := long3; 1%nat := short2 ]}.
Definition h_mix_partial : gmap ref (AudioData Z) := {[ 0%nat := long3; 1%nat := partial ]}.

(** A document with three beats at 0, 0.5 and 1.5 s. *)
Definition beats_doc : gmap string (list Node) :=
  {[ "beat"%string := [mkNode 0 1; mkNode (1 # 2) 1; mkNode (3 # 2) 1] ]}.
Definition empty_store : Store := mkStore ∅ ∅.

(** A collection of two tatums, attached, and a third tatum that was
    never attached. *)
Definition tatum (t : Q) (c : option pyval) : AudioQuantum :=
  mkAudioQuantum t (1 # 4) (Some "tatum"%string) (Some 1%Q) c.
Definition tatums : Store :=
  mkStore {[ 0%nat := tatum 0 (Some (VQuantumList 0%nat));
             1%nat := tatum (1 # 4) (Some (VQuantumList 0%nat));
             2%nat := tatum (1 # 2) None ]}
          {[ 0%nat := mkAudioQuantumList [0%nat; 1%nat] (Some "tatum"%string) VNone ]}.

(** A service that counts its requests and answers with the count,
    except for ['bars'], for which it raises; an analysis none of
    whose variables is fetched, with a parse function for ['tempo']
    that returns [None] and one for ['key'] that raises. *)
Definition service (name tid : string) : M nat pyval :=
  fun w => if String.eqb name "bars" then (Raise (FetchError 404), S w)
           else (Return (VInt (Z.of_nat w)), S w).
Definition analysis : AudioAnalysis :=
  mkAudioAnalysis "TRXYZ"
    {[ "tempo"%string := (fun _ => ret VNone) : Parser;
       "key"%string := (fun _ => raise (ParseError 1)) : Parser ]}
    (list_to_map (map (fun n => (n, VNone)) CACHED_VARIABLES)).
Definition unfetched : State nat :=
  mkState empty_store {[ 0%nat := analysis ]} 0%nat [].

End Ex.

(** ** More concrete stores for the examples *)

Module Cases.

(** A buffer that was made without an array, beside a full one. *)
Definition no_array : AudioData Z := mkAudioData None 0 (Some 44100) (Some 1).
Definition h_none : gmap ref (AudioData Z) :=
  {[ 0%nat := Ex.long3; 1%nat := no_array ]}.

(** A document with one beat. *)
Definition one_beat_doc : gmap string (list Node) :=
  {[ "beat"%string := [mkNode 0 1] ]}.

(** An analysis with two fetched collections and a collection of
    sections: two beats of one second (collection 0, quanta 0 and 1),
    one bar of two seconds (collection 1, quantum 2), one section of
    two seconds (collection 2, quantum 3). *)
Definition beat (t : Q) : AudioQuantum :=
  mkAudioQuantum t 1 (Some "beat"%string) (Some 1%Q) (Some (VQuantumList 0%nat)).
Definition bar : AudioQuantum :=
  mkAudioQuantum 0 2 (Some "bar"%string) (Some 1%Q) (Some (VQuantumList 1%nat)).
Definition section : AudioQuantum :=
  mkAudioQuantum 0 2 (Some "section"%string) None (Some (VQuantumList 2%nat)).
Definition beats : AudioQuantumList :=
  mkAudioQuantumList [0%nat; 1%nat] (Some "beat"%string) (VAnalysis 0%nat).
Definition bars : AudioQuantumList :=
  mkAudioQuantumList [2%nat] (Some "bar"%string) (VAnalysis 0%nat).
Definition sections : AudioQuantumList :=
  mkAudioQuantumList [3%nat] (Some "section"%string) (VAnalysis 0%nat).
Definition song_analysis : AudioAnalysis :=
  mkAudioAnalysis "TRXYZ" ∅
    (<["beats"%string := VQuantumList 0%nat]>
       (<["bars"%string := VQuantumList 1%nat]>
          (<["sections"%string := VQuantumList 2%nat]>
             (list_to_map (map (fun n => (n, VNone)) CACHED_VARIABLES))))).
Definition song : State nat :=
  mkState
    (mkStore {[ 0%nat := beat 0; 1%nat := beat 1; 2%nat := bar; 3%nat := section ]}
             {[ 0%nat := beats; 1%nat := bars; 2%nat := sections ]})
    {[ 0%nat := song_analysis ]} 0%nat [].

(** The tatums of [Ex.tatums] beside a service. *)
Definition tatums_state : State nat := mkState Ex.tatums ∅ 0%nat [].

(** A service that answers every request with the document of three
    beats, and an analysis none of whose variables is fetched, with
    [beatsParser] for ['beats']. *)
Definition doc_service (name tid : string) : M nat pyval :=
  fun w => (Return (VDoc Ex.beats_doc), S w).
Definition beats_analysis : AudioAnalysis :=
  mkAudioAnalysis "TRXYZ" {[ "beats"%string := beatsParser ]}
    (list_to_map (map (fun n => (n, VNone)) CACHED_VARIABLES)).
Definition unfetched_beats : State nat :=
  mkState Ex.empty_store {[ 0%nat := beats_analysis ]} 0%nat [].


(** A segment with its three loudness elements and one without any,
    and a segment that only has its maximum. *)
Definition seg_full : SegmentNode :=
  mkSegmentNode 0 (1 # 2)
    [mkLoudnessNode false 0 (-60); mkLoudnessNode true (1 # 10) (-20);
     mkLoudnessNode false (1 # 2) (-40)]
    [1%Q; 0%Q] [3%Q].
Definition seg_bare : SegmentNode := mkSegmentNode (1 # 2) (1 # 2) [] [] [].
Definition seg_max_only : SegmentNode :=
  mkSegmentNode 0 (1 # 2) [mkLoudnessNode true (1 # 10) (-20)] [] [].

End Cases.

(** ** Running computations *)

Lemma bind_run {S A B} (m : M S A) (k : A -> M S B) (s : S) :
  bind m k s = match m s with
               | (Return a, s') => k a s'
               | (Raise e, s') => (Raise e, s')
               end.
Proof. reflexivity. Qed.

Lemma bind_returns {S A B} (m : M S A) (k : A -> M S B) (s s' : S) (a : A) :
  m s = (Return a, s') -> bind m k s = k a s'.
Proof. intros H. unfold bind. by rewrite H. Qed.

Lemma bind_raises {S A B} (m : M S A) (k : A -> M S B) (s s' : S) (e : exn) :
  m s = (Raise e, s') -> bind m k s = (Raise e, s').
Proof. intros H. unfold bind. by rewrite H. Qed.

Lemma for_each_cons {S A} (x : A) (l : list A) (body : A -> M S unit) (s : S) :
  for_each (x :: l) body s =
    match body x s with
    | (Return _, s') => for_each l body s'
    | (Raise e, s') => (Raise e, s')
    end.
Proof. reflexivity. Qed.

(** ** Facts about slices *)

Section SliceFacts.

Context {A : Type}.
Implicit Types l v w : list A.

Lemma len_nonneg l : 0 <= len l.
Proof. unfold len. lia. Qed.

Lemma len_app l v : len (l ++ v) = len l + len v.
Proof. unfold len. rewrite length_app. lia. Qed.

Lemma slice_lo_range start n : 0 <= n -> 0 <= slice_lo start n <= n.
Proof.
  intros Hn. unfold slice_lo, adjust_bound. destruct start as [i|]; [|lia].
  destruct (Z.ltb_spec i 0); lia.
Qed.

Lemma slice_len_fits start stop n :
  0 <= n -> 0 <= slice_len start stop n <= n - slice_lo start n.
Proof.
  intros Hn. pose proof (slice_lo_range start n Hn) as Hlo.
  unfold slice_len, slice_hi, adjust_bound. destruct stop as [j|]; [|lia].
  destruct (Z.ltb_spec j 0); lia.
Qed.

(** A slice within bounds selects [stop - start] rows. *)
Lemma slice_len_inside i j n :
  0 <= i -> i <= j -> j <= n -> slice_len (Some i) (Some j) n = j - i.
Proof.
  intros Hi Hij Hj. unfold slice_len, slice_hi, slice_lo, adjust_bound.
  destruct (Z.ltb_spec i 0), (Z.ltb_spec j 0); lia.
Qed.

Lemma slice_lo_inside i n : 0 <= i -> i <= n -> slice_lo (Some i) n = i.
Proof.
  intros Hi Hn. unfold slice_lo, adjust_bound. destruct (Z.ltb_spec i 0); lia.
Qed.

Lemma getrows_length l start stop :
  len (getrows l start stop) = slice_len start stop (len l).
Proof.
  pose proof (slice_len_fits start stop (len l) (len_nonneg l)) as Hm.
  pose proof (slice_lo_range start (len l) (len_nonneg l)) as Hlo.
  unfold getrows, len in *. rewrite length_take, length_drop. lia.
Qed.

(** [l[0:]] and [l[:]] are the whole of [l]. *)
Lemma getrows_from_0 l : getrows l (Some 0) None = l.
Proof.
  unfold getrows, slice_len, slice_hi, slice_lo, adjust_bound. simpl.
  rewrite Z.min_l by apply len_nonneg. simpl. rewrite drop_0.
  apply take_ge. unfold len. lia.
Qed.

Lemma getrows_all l : getrows l None None = l.
Proof.
  unfold getrows, slice_len, slice_hi, slice_lo, adjust_bound. simpl.
  rewrite drop_0. apply take_ge. unfold len. lia.
Qed.

(** A range from the start to the end, or beyond: the whole of [l]. *)
Lemma getrows_full l start stop :
  start = None \/ start = Some 0 ->
  stop = None \/ (exists j, stop = Some j /\ len l <= j) ->
  getrows l start stop = l.
Proof.
  intros Hstart Hstop. pose proof (len_nonneg l) as Hn.
  assert (slice_lo start (len l) = 0) as Hlo.
  { destruct Hstart as [->| ->]; [done|]. unfold slice_lo. simpl. lia. }
  assert (slice_hi stop (len l) = len l) as Hhi.
  { destruct Hstop as [->|(j & -> & Hj)]; [done|].
    unfold slice_hi, adjust_bound. destruct (Z.ltb_spec j 0); lia. }
  unfold getrows, slice_len. rewrite Hlo, Hhi. simpl. rewrite drop_0.
  apply take_ge. unfold len. lia.
Qed.

(** The rows selected by [l[e : e + n]] when [e] is inside [l]. *)
Lemma slice_len_from e n L :
  0 <= e <= L -> 0 <= n ->
  slice_len (Some e) (Some (e + n)) L = Z.min (e + n) L - e.
Proof.
  intros He Hn. unfold slice_len, slice_hi, slice_lo, adjust_bound.
  destruct (Z.ltb_spec e 0), (Z.ltb_spec (e + n) 0); lia.
Qed.

Lemma broadcast_rows_length m v w :
  broadcast_rows m v = Return w -> length w = m.
Proof.
  unfold broadcast_rows. destruct (decide (length v = m)) as [Hv|Hv].
  - intros [= <-]. exact Hv.
  - destruct v as [|r [|r' v']]; try discriminate.
    intros [= <-]. apply length_replicate.
Qed.

Lemma broadcast_rows_same v : broadcast_rows (length v) v = Return v.
Proof. unfold broadcast_rows. by rewrite decide_True. Qed.

(** The shapes fail to broadcast exactly when the row counts differ
    and the operand is not a single row. *)
Lemma broadcast_rows_raises m v :
  (exists e, broadcast_rows m v = Raise e) <-> length v <> m /\ length v <> 1%nat.
Proof.
  unfold broadcast_rows. destruct (decide (length v = m)) as [Hv|Hv].
  - split; [intros [e He]; discriminate | tauto].
  - destruct v as [|r [|r' v']]; simpl in *.
    + split; [intros _; lia | eauto].
    + split; [intros [e He]; discriminate | lia].
    + split; [intros _; lia | eauto].
Qed.

Lemma broadcast_rows_exn m v e : broadcast_rows m v = Raise e -> e = ValueError.
Proof.
  unfold broadcast_rows. destruct (decide (length v = m)); [discriminate|].
  destruct v as [|r [|r' v']]; congruence.
Qed.

Lemma splice_length l lo w :
  (lo + length w <= length l)%nat -> length (splice l lo w) = length l.
Proof.
  intros H. unfold splice. rewrite !length_app, length_take, length_drop. lia.
Qed.

(** An assignment to a slice never changes the number of rows. *)
Lemma setrows_length l start stop v l' :
  setrows l start stop v = Return l' -> length l' = length l.
Proof.
  unfold setrows. destruct (broadcast_rows _ v) as [w|e] eqn:Hb; [|discriminate].
  intros [= <-]. apply broadcast_rows_length in Hb.
  pose proof (slice_len_fits start stop (len l) (len_nonneg l)) as Hm.
  pose proof (slice_lo_range start (len l) (len_nonneg l)) as Hlo.
  apply splice_length. unfold len in *. lia.
Qed.

Lemma iaddrows_length (add : A -> A -> A) l start stop v l' :
  iaddrows add l start stop v = Return l' -> length l' = length l.
Proof.
  unfold iaddrows. destruct (broadcast_rows _ v) as [w|e] eqn:Hb; [|discriminate].
  intros [= <-]. apply broadcast_rows_length in Hb.
  pose proof (slice_len_fits start stop (len l) (len_nonneg l)) as Hm.
  pose proof (slice_lo_range start (len l) (len_nonneg l)) as Hlo.
  apply splice_length. rewrite length_zip_with, length_take, length_drop.
  unfold len in *. lia.
Qed.

(** Writing [v] at [e] when it fits: rows [e, e + len v) become [v]. *)
Lemma setrows_fits l e v :
  0 <= e -> e + len v <= len l ->
  setrows l (Some e) (Some (e + len v)) v = Return (splice l (Z.to_nat e) v).
Proof.
  intros He Hfit. pose proof (len_nonneg v) as Hv. unfold setrows.
  rewrite slice_len_inside, slice_lo_inside by lia.
  replace (Z.to_nat (e + len v - e)) with (length v) by (unfold len; lia).
  by rewrite broadcast_rows_same.
Qed.

Lemma setrows_exn l start stop v e :
  setrows l start stop v = Raise e -> e = ValueError.
Proof.
  unfold setrows. destruct (broadcast_rows _ v) eqn:Hb; [discriminate|].
  intros [= <-]. by apply broadcast_rows_exn in Hb.
Qed.

Lemma splice_whole l w : length w = length l -> splice l 0 w = w.
Proof.
  intros H. unfold splice. rewrite take_0, drop_ge by (simpl; lia).
  apply app_nil_r.
Qed.

End SliceFacts.

(** ** Sample buffers: construction, slicing and appending *)

Section BufferFacts.

Context {Row : Type}.
Variable zero_row : Row.

Abbreviation Heap := (gmap ref (AudioData Row)).

Implicit Types h : Heap.
Implicit Types a b : AudioData Row.
Implicit Types d rows : list Row.

Lemma fresh_unused h : h !! fresh (dom h) = None.
Proof. apply not_elem_of_dom, is_fresh. Qed.

Lemma zeros_length n z : zeros zero_row n = Return z -> len z = n.
Proof.
  unfold zeros. destruct (Z.ltb_spec n 0); [discriminate|].
  intros [= <-]. unfold len. rewrite length_replicate. lia.
Qed.

(** A buffer built from an array is a new object that holds a copy of
    the array and is full: its end index is its number of rows. *)
Lemma AudioData_init_array h rows sr nc :
  AudioData_init zero_row (Some rows) None sr nc h =
    (Return (fresh (dom h)),
     <[fresh (dom h) := mkAudioData (Some rows) (len rows) sr nc]> h).
Proof.
  unfold AudioData_init, bind, lift, zeros.
  pose proof (len_nonneg rows) as Hn.
  destruct (Z.ltb_spec (len rows) 0); [lia|].
  change (Some (len rows)) with (Some (0 + len rows)).
  rewrite setrows_fits; [|lia|].
  - rewrite splice_whole; [done|]. rewrite length_replicate. unfold len. lia.
  - unfold len. rewrite length_replicate. lia.
Qed.

(** A buffer preallocated with [n] rows is empty. *)
Lemma AudioData_init_shape h n sr nc :
  0 <= n ->
  AudioData_init zero_row None (Some n) sr nc h =
    (Return (fresh (dom h)),
     <[fresh (dom h) :=
         mkAudioData (Some (replicate (Z.to_nat n) zero_row)) 0 sr nc]> h).
Proof.
  intros Hn. unfold AudioData_init, bind, lift, zeros.
  destruct (Z.ltb_spec n 0); [lia|]. done.
Qed.

(** What [append] does when both buffers have an array: one slice
    assignment with all the rows of [as2.data], and on success the end
    index moves by their number. *)
Lemma append_run h self as2 a b d rows :
  h !! self = Some a -> h !! as2 = Some b ->
  data a = Some d -> data b = Some rows ->
  append self as2 h =
    match setrows d (Some (endindex a)) (Some (endindex a + len rows)) rows with
    | Return d' =>
        (Return tt,
         <[self := mkAudioData (Some d') (endindex a + len rows)
                     (sampleRate a) (numChannels a)]> h)
    | Raise e => (Raise e, h)
    end.
Proof.
  intros Ha Hb Hd Hrows.
  unfold append, bind, get_obj, lift, data_slice, AudioData_len.
  rewrite Hb, Hrows, Ha, Hd, getrows_from_0.
  destruct (setrows d _ _ rows) as [d'|e] eqn:Hset; [|done].
  unfold set_obj, modify. rewrite lookup_insert_eq. simpl.
  destruct (decide (self = as2)) as [->|Hne].
  - rewrite lookup_insert_eq. simpl. rewrite insert_insert_eq.
    assert (rows = d) as -> by congruence.
    apply setrows_length in Hset. unfold len. by rewrite Hset.
  - rewrite lookup_insert_ne, Hb, Hrows by done. by rewrite insert_insert_eq.
Qed.

(** C2 (amended).  With enough room left in [self], [append] copies
    every allocated row of [other.data], rows [0, len(other.data)),
    into [self.data] from row [self.endindex] on, and moves
    [self.endindex] by [len(other)], the number of allocated rows of
    [other], whatever [other.endindex] is. *)
Theorem append_copies_all_rows h self as2 a b d rows :
  h !! self = Some a -> h !! as2 = Some b ->
  data a = Some d -> data b = Some rows ->
  0 <= endindex a -> endindex a + len rows <= len d ->
  append self as2 h =
    (Return tt,
     <[self := mkAudioData
                 (Some (take (Z.to_nat (endindex a)) d ++ rows ++
                        drop (Z.to_nat (endindex a) + length rows) d))
                 (endindex a + AudioData_len b)
                 (sampleRate a) (numChannels a)]> h).
Proof.
  intros Ha Hb Hd Hrows He Hfit.
  rewrite (append_run h self as2 a b d rows) by done.
  rewrite setrows_fits by done. unfold AudioData_len. by rewrite Hrows.
Qed.

(** An [append] that raises leaves the store as it was. *)
Lemma append_atomic h self as2 e h' :
  append self as2 h = (Raise e, h') -> h' = h.
Proof.
  unfold append, bind, get_obj, lift, data_slice, raise.
  destruct (h !! as2) as [b|] eqn:Hb; [|congruence].
  destruct (data b) as [rows|]; [|congruence].
  destruct (h !! self) as [a|]; [|congruence].
  destruct (data a) as [d|]; [|congruence].
  destruct (setrows d _ _ _) as [d'|e'] eqn:Hset; [|congruence].
  unfold set_obj, modify. rewrite lookup_insert_eq.
  (* the second read of [as2] finds the object read at the start *)
  destruct (decide (self = as2)) as [->|Hne].
  - rewrite lookup_insert_eq. discriminate.
  - rewrite lookup_insert_ne, Hb by done. discriminate.
Qed.

(** When [append] raises.  For a buffer [self] whose end index lies
    within its array and a buffer [other] with an array, [append]
    raises exactly when [self.endindex + len(other)] exceeds the
    capacity of [self] and [other] has more than one row; the exception
    is the [ValueError] of the slice assignment, and it leaves [self]
    untouched. *)
Theorem append_capacity_error h self as2 a b d rows :
  h !! self = Some a -> h !! as2 = Some b ->
  data a = Some d -> data b = Some rows ->
  0 <= endindex a <= len d ->
  ((exists e h', append self as2 h = (Raise e, h')) <->
     len d < endindex a + len rows /\ len rows <> 1) /\
  (forall e h', append self as2 h = (Raise e, h') -> e = ValueError /\ h' = h).
Proof.
  intros Ha Hb Hd Hrows He.
  pose proof (len_nonneg rows) as Hn.
  rewrite (append_run h self as2 a b d rows) by done.
  unfold setrows. rewrite slice_len_from by done.
  destruct (broadcast_rows _ rows) as [w|e] eqn:Hbc.
  - split; [|intros ? ? [=]].
    split; [intros (e & h' & [=])|]. intros [Hover Hne].
    assert (exists e, broadcast_rows
              (Z.to_nat (Z.min (endindex a + len rows) (len d) - endindex a)) rows
            = Raise e) as [e He'].
    { apply broadcast_rows_raises. unfold len in *. lia. }
    congruence.
  - split.
    + split; [|eauto]. intros _.
      assert (exists e, broadcast_rows
                (Z.to_nat (Z.min (endindex a + len rows) (len d) - endindex a)) rows
              = Raise e) as Hex by eauto.
      apply broadcast_rows_raises in Hex. unfold len in *. lia.
    + intros e' h' [= <- <-]. split; [|done]. by apply broadcast_rows_exn in Hbc.
Qed.

(** C7.  [append] has no capacity check of its own, and the check of
    the slice assignment misses one case.  On a buffer whose end index
    has reached its last allocated row, so that [self.endindex +
    len(other)] exceeds the capacity, appending a buffer of one row
    raises nothing: the row is broadcast into the empty slice
    [self.data[endindex:endindex+1]], no row of [self.data] is written,
    and the end index still moves by one, past the allocated rows.  The
    appended row is lost without an error. *)
Theorem append_past_capacity_silent h self as2 a b d row :
  h !! self = Some a -> h !! as2 = Some b ->
  data a = Some d -> data b = Some [row] ->
  len d <= endindex a ->
  len d < endindex a + AudioData_len b /\
  append self as2 h =
    (Return tt,
     <[self := mkAudioData (Some d) (endindex a + 1)
                 (sampleRate a) (numChannels a)]> h).
Proof.
  intros Ha Hb Hd Hrow Hfull.
  pose proof (len_nonneg d) as Hn.
  split; [unfold AudioData_len; rewrite Hrow; unfold len in *; simpl; lia|].
  rewrite (append_run h self as2 a b d [row]) by done.
  change (len [row]) with 1.
  unfold setrows.
  assert (slice_lo (Some (endindex a)) (len d) = len d) as ->.
  { unfold slice_lo, adjust_bound. destruct (Z.ltb_spec (endindex a) 0); lia. }
  assert (slice_len (Some (endindex a)) (Some (endindex a + 1)) (len d) = 0) as ->.
  { unfold slice_len, slice_hi, slice_lo, adjust_bound.
    destruct (Z.ltb_spec (endindex a) 0), (Z.ltb_spec (endindex a + 1) 0); lia. }
  change (broadcast_rows (Z.to_nat 0) [row]) with (Return (@nil Row)).
  unfold splice, len. rewrite Nat2Z.id.
  rewrite take_ge, drop_ge by (simpl; lia). by rewrite app_nil_r.
Qed.

(** C9.  Slicing a buffer that has an array over its full range of
    sample indices makes a new object, absent from the store before,
    whose array has the rows of the original's and whose sample rate
    is the original's; the original is still in the store, unchanged. *)
Theorem getitem_full_range h buf a d start stop :
  h !! buf = Some a -> data a = Some d ->
  start = None \/ start = Some 0 ->
  stop = None \/ (exists j, stop = Some j /\ len d <= j) ->
  let new := fresh (dom h) in
  let copy := mkAudioData (Some d) (len d) (sampleRate a) None in
  getitem zero_row buf (SampleRange start stop) h =
    (Return (Buffer new), <[new := copy]> h) /\
  h !! new = None /\
  <[new := copy]> h !! buf = Some a.
Proof.
  intros Ha Hd Hstart Hstop new copy.
  assert (h !! new = None) as Hnew by apply fresh_unused.
  split; [|split; [done|]].
  - unfold getitem, getslice_samples, bind, get_obj, lift, data_slice, ret.
    rewrite Ha, Hd, getrows_full by done.
    by rewrite AudioData_init_array.
  - rewrite lookup_insert_ne; [done|]. intros ->. congruence.
Qed.

End BufferFacts.

(** ** Assembling a buffer from quanta *)

Section GetPieces.

Context {Row : Type}.
Variable zero_row : Row.
Variable shape1 : option Z.

Implicit Types h : gmap ref (AudioData Row).
Implicit Types a b : AudioData Row.
Implicit Types d rows acc : list Row.

Lemma sum_durations_run h src a sr segs dur :
  h !! src = Some a -> sampleRate a = Some sr ->
  sum_durations src segs dur h =
    (Return (dur + sumZ (map (fun s => py_int (duration s * inject_Z sr)) segs)), h).
Proof.
  intros Ha Hsr. revert dur. induction segs as [|s segs IH]; intros dur; simpl.
  - unfold ret. by rewrite Z.add_0_r.
  - unfold bind at 1. unfold get_obj. rewrite Ha.
    unfold bind at 1. unfold lift, times_rate. rewrite Hsr.
    rewrite IH. do 2 f_equal. lia.
Qed.

(** [audioData[s]] for a quantum [s]: a new, full buffer that holds
    the rows of the slice. *)
Lemma getitem_quantum h src a d sr s :
  h !! src = Some a -> data a = Some d -> sampleRate a = Some sr ->
  getitem zero_row src (OfQuantum s) h =
    (Return (Buffer (fresh (dom h))),
     <[fresh (dom h) :=
         mkAudioData (Some (piece sr d s)) (len (piece sr d s)) (Some sr) None]> h).
Proof.
  intros Ha Hd Hsr.
  unfold getitem, getslice_time, bind, get_obj, lift, times_rate, data_slice, ret.
  rewrite Ha, Hsr, Hd. by rewrite AudioData_init_array.
Qed.

Lemma len_concat_pieces sr d s segs :
  len (concat (map (piece sr d) (s :: segs))) =
    len (piece sr d s) + len (concat (map (piece sr d) segs)).
Proof. simpl. apply len_app. Qed.

(** The loop of [getpieces]: as long as the pieces fit behind the end
    index, each is written there in turn and the end index moves
    past it; the source is not touched. *)
Lemma getpieces_loop src a d sr new segs :
  data a = Some d -> sampleRate a = Some sr -> new <> src ->
  forall h dn e srn ncn,
    h !! src = Some a ->
    h !! new = Some (mkAudioData (Some dn) e srn ncn) ->
    0 <= e -> e + len (concat (map (piece sr d) segs)) <= len dn ->
    exists h',
      for_each segs (fun s =>
        let! p := getitem zero_row src (OfQuantum s) in
        match p with
        | Buffer b => append new b
        | Frame _ => raise TypeError
        end) h = (Return tt, h') /\
      h' !! src = Some a /\
      h' !! new = Some (mkAudioData
        (Some (take (Z.to_nat e) dn ++ concat (map (piece sr d) segs) ++
               drop (Z.to_nat (e + len (concat (map (piece sr d) segs)))) dn))
        (e + len (concat (map (piece sr d) segs))) srn ncn).
Proof.
  intros Hd Hsr Hne. induction segs as [|s segs IH]; intros h dn e srn ncn Ha Hn He Hfit.
  - exists h. simpl. unfold ret. split; [done|]. split; [done|].
    replace (len (concat (map (piece sr d) []))) with 0 by done.
    cbn [map concat app]. by rewrite Hn, Z.add_0_r, take_drop.
  - rewrite len_concat_pieces in Hfit.
    pose proof (len_nonneg (piece sr d s)) as Hp.
    pose proof (len_nonneg (concat (map (piece sr d) segs))) as Hrest.
    set (p := fresh (dom h)).
    set (pb := mkAudioData (Some (piece sr d s)) (len (piece sr d s)) (Some sr) None).
    assert (h !! p = None) as Hfresh by apply fresh_unused.
    assert (p <> new) as Hpn by (intros ->; congruence).
    assert (p <> src) as Hps by (intros ->; congruence).
    rewrite for_each_cons.
    rewrite (bind_returns _ _ h (<[p:=pb]> h) (Buffer p))
      by (by rewrite (getitem_quantum h src a d sr s)).
    rewrite (append_run (<[p:=pb]> h) new p
               (mkAudioData (Some dn) e srn ncn) pb dn (piece sr d s));
      [|by rewrite lookup_insert_ne|by rewrite lookup_insert_eq|done|done].
    simpl endindex. simpl sampleRate. simpl numChannels.
    rewrite setrows_fits by lia. unfold splice.
    set (dn' := take (Z.to_nat e) dn ++ piece sr d s ++
                drop (Z.to_nat e + length (piece sr d s)) dn).
    assert (length dn' = length dn) as Hlen.
    { unfold dn'. rewrite !length_app, length_take, length_drop.
      unfold len in *. lia. }
    destruct (IH (<[new := mkAudioData (Some dn') (e + len (piece sr d s)) srn ncn]>
                    (<[p := pb]> h)) dn' (e + len (piece sr d s)) srn ncn)
      as (h' & Hrun & Hsrc & Hnew).
    { by rewrite !lookup_insert_ne. }
    { by rewrite lookup_insert_eq. }
    { lia. }
    { unfold len in *. lia. }
    exists h'. split; [exact Hrun|]. split; [exact Hsrc|].
    rewrite Hnew, len_concat_pieces, Z.add_assoc. do 3 f_equal.
    assert (length (take (Z.to_nat e) dn) = Z.to_nat e) as Hte.
    { rewrite length_take. unfold len in *. lia. }
    unfold dn'. cbn [map concat].
    replace (Z.to_nat (e + len (piece sr d s)))
      with (length (take (Z.to_nat e) dn ++ piece sr d s))
      by (rewrite length_app, Hte; unfold len; lia).
    rewrite (app_assoc (take _ dn) (piece sr d s)).
    rewrite take_app_length. rewrite <- !app_assoc. do 3 f_equal.
    rewrite (app_assoc (take _ dn) (piece sr d s)).
    rewrite drop_app_ge by (rewrite length_app, Hte; unfold len in *; lia).
    rewrite drop_drop. f_equal. rewrite !length_app, Hte. unfold len in *. lia.
Qed.

Lemma len_concat_sum sr d segs :
  len (concat (map (piece sr d) segs)) = sumZ (map (fun s => len (piece sr d s)) segs).
Proof.
  induction segs as [|s segs IH]; [done|].
  rewrite len_concat_pieces, IH. done.
Qed.

(** The number of rows of one piece; inside the source it is the
    difference of the two truncated bounds. *)
Lemma len_piece_inside sr d s :
  0 <= py_int (start s * inject_Z sr) ->
  py_int (start s * inject_Z sr) <= py_int ((start s + duration s) * inject_Z sr) ->
  py_int ((start s + duration s) * inject_Z sr) <= len d ->
  len (piece sr d s) =
    py_int ((start s + duration s) * inject_Z sr) - py_int (start s * inject_Z sr).
Proof.
  intros H0 H1 H2. unfold piece. rewrite getrows_length.
  by apply slice_len_inside.
Qed.

(** C1 (amended).  For a source buffer with an array and a sample rate
    [sr], and an ordered list of quanta whose slices fit in the rows
    that [getpieces] allocates, [getpieces] returns a new buffer whose
    end index is exactly the sum, over the list, of the number of rows
    of [source.data[int(q.start*sr) : int((q.start+q.duration)*sr)]],
    and whose rows below the end index are those slices in the order
    of the list.  The source is unchanged and the new buffer has
    [sum(int(q.duration*sr)) + 100000] rows. *)
Theorem getpieces_length h src a d sr segs :
  h !! src = Some a -> data a = Some d -> sampleRate a = Some sr ->
  len (concat (map (piece sr d) segs)) <= allocated sr segs ->
  exists new b h' d',
    getpieces zero_row shape1 src segs h = (Return new, h') /\
    h !! new = None /\ h' !! new = Some b /\ h' !! src = Some a /\
    endindex b = sumZ (map (fun s => len (piece sr d s)) segs) /\
    data b = Some d' /\ len d' = allocated sr segs /\
    take (Z.to_nat (endindex b)) d' = concat (map (piece sr d) segs).
Proof.
  intros Ha Hd Hsr Hfit.
  pose proof (len_nonneg (concat (map (piece sr d) segs))) as Hpos.
  set (new := fresh (dom h)).
  assert (h !! new = None) as Hfresh by apply fresh_unused.
  assert (new <> src) as Hne by (intros Heq; rewrite Heq in Hfresh; congruence).
  set (cap := allocated sr segs) in *.
  set (nc := Some (match shape1 with Some c => c | None => 1 end)).
  set (b0 := mkAudioData (Some (replicate (Z.to_nat cap) zero_row)) 0 (sampleRate a) nc).
  destruct (getpieces_loop src a d sr new segs Hd Hsr Hne (<[new := b0]> h)
              (replicate (Z.to_nat cap) zero_row) 0 (sampleRate a) nc)
    as (h' & Hrun & Hsrc & Hnew).
  { by rewrite lookup_insert_ne. }
  { by rewrite lookup_insert_eq. }
  { lia. }
  { unfold len at 2. rewrite length_replicate. lia. }
  eexists new, _, h', _.
  split; [|split; [exact Hfresh|split; [exact Hnew|split; [exact Hsrc|]]]].
  - unfold getpieces.
    rewrite (bind_returns _ _ h h (0 + sumZ (map (fun s => py_int (duration s * inject_Z sr)) segs)))
      by (by apply sum_durations_run with a).
    rewrite (bind_returns _ _ h h a) by (unfold get_obj; by rewrite Ha).
    rewrite Hd.
    rewrite (bind_returns _ _ h (<[new := b0]> h) new)
      by (apply AudioData_init_shape; unfold cap, allocated in *; lia).
    rewrite (bind_returns _ _ _ h' tt) by exact Hrun.
    done.
  - cbn [endindex data]. rewrite Z.add_0_l.
    split; [apply len_concat_sum|]. split; [reflexivity|]. split.
    + rewrite !len_app. unfold len at 1 3. rewrite length_take, length_drop, length_replicate.
      unfold len in *. lia.
    + change (Z.to_nat 0) with 0%nat. rewrite take_0. cbn [app].
      replace (Z.to_nat (len (concat (map (piece sr d) segs))))
        with (length (concat (map (piece sr d) segs))) by (unfold len; lia).
      by rewrite take_app_length.
Qed.

End GetPieces.

(** ** Mixing two buffers *)

Section Mix.

Context {Row : Type}.
Variable row_mul : Q -> Row -> Row.
Variable row_add : Row -> Row -> Row.

Implicit Types h : gmap ref (AudioData Row).
Implicit Types a b : AudioData Row.
Implicit Types d v : list Row.

(** C6.  The function as written, whose last branch tests
    [A.endindex == A.endindex], and the variant whose last branch
    tests [A.endindex == B.endindex] give the same outcome and the
    same store on every pair of buffers and every ratio: the last
    test is reached only when neither end index is larger than the
    other, and then both tests hold. *)
Theorem mix_three_way_equal h A B ratio :
  mix row_mul row_add A B ratio h = mix_three_way row_mul row_add A B ratio h.
Proof.
  unfold mix, mix_three_way, mix_with.
  rewrite !bind_run.
  destruct (imul_data row_mul A ratio h) as [[[]|e] h1]; [|done].
  rewrite !bind_run.
  destruct (imul_data row_mul B (1 - ratio)%Q h1) as [[[]|e] h2]; [|done].
  rewrite !bind_run.
  destruct (get_obj A h2) as [[a|e] h3]; [|done].
  rewrite !bind_run.
  destruct (get_obj B h3) as [[b|e] h4]; [|done].
  destruct (Z.ltb_spec (endindex b) (endindex a)); [done|].
  destruct (Z.ltb_spec (endindex a) (endindex b)); [done|].
  assert (endindex a = endindex b) as Heq by lia.
  rewrite Z.eqb_refl. rewrite (proj2 (Z.eqb_eq _ _) Heq). done.
Qed.

Lemma imul_data_run h x a d f :
  h !! x = Some a -> data a = Some d ->
  imul_data row_mul x f h =
    (Return tt,
     <[x := mkAudioData (Some (map (row_mul f) d)) (endindex a)
              (sampleRate a) (numChannels a)]> h).
Proof.
  intros Ha Hd. unfold imul_data, bind, get_obj. by rewrite Ha, Hd.
Qed.

Lemma iadd_data_run h x y a b d v stop :
  h !! x = Some a -> h !! y = Some b -> data a = Some d -> data b = Some v ->
  len v = slice_len None stop (len d) ->
  exists d',
    iadd_data row_add x stop y h =
      (Return tt,
       <[x := mkAudioData (Some d') (endindex a) (sampleRate a) (numChannels a)]> h)
    /\ length d' = length d.
Proof.
  intros Ha Hb Hd Hv Hlen.
  unfold iadd_data, bind, get_obj, lift, data_slice. rewrite Ha, Hb, Hd, Hv.
  rewrite getrows_from_0.
  destruct (iaddrows row_add d None stop v) as [d'|e] eqn:Hadd.
  - exists d'. split; [done|]. by apply iaddrows_length in Hadd.
  - exfalso. unfold iaddrows in Hadd. rewrite <- Hlen in Hadd.
    replace (Z.to_nat (len v)) with (length v) in Hadd by (unfold len; lia).
    by rewrite broadcast_rows_same in Hadd.
Qed.

(** The rows selected by [d[:k]] for a [k] inside [d]. *)
Lemma slice_len_upto k n : 0 <= k <= n -> slice_len None (Some k) n = k.
Proof.
  intros Hk. unfold slice_len, slice_hi, slice_lo, adjust_bound.
  destruct (Z.ltb_spec k 0); lia.
Qed.

Lemma slice_len_whole n : 0 <= n -> slice_len None None n = n.
Proof. intros Hn. unfold slice_len, slice_hi, slice_lo, adjust_bound. lia. Qed.

(** What [mix] keeps.  For two buffers with arrays whose operands of
    the in-place addition have the same number of rows ([addable]),
    [mix] returns one of its two inputs, the one with the larger end
    index (the first on a tie); it allocates nothing and changes no
    object other than its inputs; and the returned object has the
    same number of rows, end index, sample rate and channel count as
    before the call. *)
Theorem mix_returns_longer h A B a b dA dB ratio :
  h !! A = Some a -> h !! B = Some b ->
  data a = Some dA -> data b = Some dB ->
  addable a b ->
  exists h' l l',
    mix row_mul row_add A B ratio h = (Return (Some (longer a b A B)), h') /\
    dom h' = dom h /\
    (forall r, r <> A -> r <> B -> h' !! r = h !! r) /\
    h !! longer a b A B = Some l /\
    h' !! longer a b A B = Some l' /\
    shape_of l' = shape_of l.
Proof.
  intros Ha Hb HdA HdB Hadd.
  pose proof (len_nonneg dA) as HnA. pose proof (len_nonneg dB) as HnB.
  unfold mix, mix_with.
  set (a1 := mkAudioData (Some (map (row_mul ratio) dA)) (endindex a)
               (sampleRate a) (numChannels a)).
  rewrite (bind_returns _ _ h (<[A := a1]> h) tt) by (by apply imul_data_run).
  (* the object behind [B] after the first scaling *)
  assert (exists b1 d1, <[A := a1]> h !! B = Some b1 /\ data b1 = Some d1 /\
            length d1 = length dB /\ endindex b1 = endindex b /\
            sampleRate b1 = sampleRate b /\ numChannels b1 = numChannels b)
    as (b1 & d1 & Hb1 & Hd1 & Hl1 & He1 & Hs1 & Hc1).
  { destruct (decide (A = B)) as [->|Hne].
    - exists a1, (map (row_mul ratio) dA). rewrite lookup_insert_eq.
      assert (a = b) as -> by congruence.
      assert (dA = dB) as -> by congruence.
      by rewrite length_map.
    - exists b, dB. by rewrite lookup_insert_ne. }
  set (b2 := mkAudioData (Some (map (row_mul (1 - ratio)%Q) d1)) (endindex b1)
               (sampleRate b1) (numChannels b1)).
  set (h2 := <[B := b2]> (<[A := a1]> h)).
  rewrite (bind_returns _ _ _ h2 tt) by (by apply imul_data_run).
  (* the object behind [A] after the second scaling *)
  assert (exists a2 d2, h2 !! A = Some a2 /\ data a2 = Some d2 /\
            length d2 = length dA /\ endindex a2 = endindex a /\
            sampleRate a2 = sampleRate a /\ numChannels a2 = numChannels a)
    as (a2 & d2 & Ha2 & Hd2 & Hl2 & He2 & Hs2 & Hc2).
  { unfold h2. destruct (decide (A = B)) as [->|Hne].
    - exists b2, (map (row_mul (1 - ratio)%Q) d1). rewrite lookup_insert_eq.
      assert (a = b) as -> by congruence.
      assert (dA = dB) as -> by congruence.
      rewrite length_map. cbn. by rewrite He1, Hs1, Hc1.
    - exists a1, (map (row_mul ratio) dA).
      rewrite lookup_insert_ne, lookup_insert_eq by done. by rewrite length_map. }
  assert (h2 !! B = Some b2) as Hb2 by (unfold h2; by rewrite lookup_insert_eq).
  assert (dom h2 = dom h) as Hdom.
  { unfold h2. rewrite !dom_insert_lookup_L; [done|by eexists|].
    rewrite lookup_insert. case_decide; by eexists. }
  assert (forall r, r <> A -> r <> B -> h2 !! r = h !! r) as Hframe.
  { intros r HrA HrB. unfold h2. by rewrite !lookup_insert_ne. }
  rewrite (bind_returns _ _ h2 h2 a2) by (unfold get_obj; by rewrite Ha2).
  rewrite (bind_returns _ _ h2 h2 b2) by (unfold get_obj; by rewrite Hb2).
  rewrite He2. cbn [endindex b2]. rewrite He1.
  unfold addable, longer, AudioData_len in *. rewrite HdA, HdB in Hadd.
  destruct (Z.ltb_spec (endindex b) (endindex a)) as [Hlt|Hge].
  - (* [A] is longer *)
    destruct Hadd as [Hfull Hfit].
    destruct (iadd_data_run h2 A B a2 b2 d2 (map (row_mul (1 - ratio)%Q) d1)
                (Some (endindex b)) Ha2 Hb2 Hd2 eq_refl) as (d' & Hrun & Hlen).
    { rewrite slice_len_upto by (unfold len in *; lia).
      unfold len in *. rewrite length_map. lia. }
    rewrite (bind_returns _ _ _ _ tt Hrun).
    eexists _, a, _. split; [reflexivity|]. split.
    { rewrite dom_insert_lookup_L; [done|by eexists]. }
    split. { intros r HrA HrB. rewrite lookup_insert_ne by done. by apply Hframe. }
    split; [done|]. split; [by rewrite lookup_insert_eq|].
    unfold shape_of. cbn. rewrite HdA. cbn. by rewrite Hlen, Hl2, He2, Hs2, Hc2.
  - destruct (Z.ltb_spec (endindex a) (endindex b)) as [Hlt|Hge'].
    + (* [B] is longer *)
      destruct Hadd as [Hfull Hfit].
      destruct (iadd_data_run h2 B A b2 a2 (map (row_mul (1 - ratio)%Q) d1) d2
                  (Some (endindex a)) Hb2 Ha2 eq_refl Hd2) as (d' & Hrun & Hlen).
      { rewrite slice_len_upto by (unfold len in *; rewrite length_map; lia).
        unfold len in *. lia. }
      rewrite (bind_returns _ _ _ _ tt Hrun).
      eexists _, b, _. split; [reflexivity|]. split.
      { rewrite dom_insert_lookup_L; [done|by eexists]. }
      split. { intros r HrA HrB. rewrite lookup_insert_ne by done. by apply Hframe. }
      split; [done|]. split; [by rewrite lookup_insert_eq|].
      unfold shape_of. cbn. rewrite HdB. cbn.
      by rewrite Hlen, length_map, Hl1, He1, Hs1, Hc1.
    + (* equal end indices *)
      rewrite Z.eqb_refl.
      destruct (iadd_data_run h2 A B a2 b2 d2 (map (row_mul (1 - ratio)%Q) d1)
                  None Ha2 Hb2 Hd2 eq_refl) as (d' & Hrun & Hlen).
      { rewrite slice_len_whole by apply len_nonneg.
        unfold len in *. rewrite length_map. lia. }
      rewrite (bind_returns _ _ _ _ tt Hrun).
      eexists _, a, _. split; [reflexivity|]. split.
      { rewrite dom_insert_lookup_L; [done|by eexists]. }
      split. { intros r HrA HrB. rewrite lookup_insert_ne by done. by apply Hframe. }
      split; [done|]. split; [by rewrite lookup_insert_eq|].
      unfold shape_of. cbn. rewrite HdA. cbn. by rewrite Hlen, Hl2, He2, Hs2, Hc2.
Qed.

(** [x.data[:stop] += y.data[0:]] raises when the arrays on the two
    sides have different numbers of rows and the right one is not a
    single row; nothing is written. *)
Lemma iadd_data_raises h x y a b d v stop :
  h !! x = Some a -> h !! y = Some b -> data a = Some d -> data b = Some v ->
  len v <> slice_len None stop (len d) -> len v <> 1 ->
  iadd_data row_add x stop y h = (Raise ValueError, h).
Proof.
  intros Ha Hb Hd Hv Hlen Hone.
  unfold iadd_data, bind, get_obj, lift, data_slice. rewrite Ha, Hb, Hd, Hv.
  rewrite getrows_from_0. unfold iaddrows.
  destruct (broadcast_rows (Z.to_nat (slice_len None stop (len d))) v)
    as [w|e] eqn:Hbc.
  - exfalso.
    assert (~ exists e, broadcast_rows
                (Z.to_nat (slice_len None stop (len d))) v = Raise e) as Hno
      by (intros [e He]; congruence).
    apply Hno, broadcast_rows_raises.
    pose proof (slice_len_fits None stop (len d) (len_nonneg d)).
    unfold len in *. lia.
  - by apply broadcast_rows_exn in Hbc as ->.
Qed.

(** C5.  [mix] cuts the array of the longer buffer at the end index of
    the shorter one, but adds the array of the shorter one whole
    ([B.data[0:]], not [B.data[:B.endindex]]).  So for two buffers of
    the same sample rate and channel count of which [B] is the shorter
    and has allocated rows beyond its end index, as every result of
    [getpieces] and every preallocated buffer has, [mix] returns no
    buffer: the in-place addition raises [ValueError], after the rows
    of both arrays have been scaled in place. *)
Theorem mix_unfilled_shorter_raises h A B a b dA dB ratio :
  h !! A = Some a -> h !! B = Some b ->
  data a = Some dA -> data b = Some dB ->
  sampleRate a = sampleRate b -> numChannels a = numChannels b ->
  endindex b < endindex a ->
  0 <= endindex b <= len dA ->
  endindex b < len dB -> 1 < len dB ->
  mix row_mul row_add A B ratio h =
    (Raise ValueError,
     <[B := mkAudioData (Some (map (row_mul (1 - ratio)%Q) dB))
              (endindex b) (sampleRate b) (numChannels b)]>
       (<[A := mkAudioData (Some (map (row_mul ratio) dA))
                (endindex a) (sampleRate a) (numChannels a)]> h)).
Proof.
  intros Ha Hb HdA HdB _ _ Hlt Hcut Hroom Hmany.
  assert (A <> B) as Hne by (intros ->; assert (a = b) by congruence; subst; lia).
  unfold mix, mix_with.
  set (a1 := mkAudioData (Some (map (row_mul ratio) dA)) (endindex a)
               (sampleRate a) (numChannels a)).
  set (b1 := mkAudioData (Some (map (row_mul (1 - ratio)%Q) dB)) (endindex b)
               (sampleRate b) (numChannels b)).
  rewrite (bind_returns _ _ h (<[A := a1]> h) tt) by (by apply imul_data_run).
  rewrite (bind_returns _ _ _ (<[B := b1]> (<[A := a1]> h)) tt)
    by (apply imul_data_run; [by rewrite lookup_insert_ne|done]).
  set (h2 := <[B := b1]> (<[A := a1]> h)).
  assert (h2 !! A = Some a1) as Ha2
    by (unfold h2; rewrite lookup_insert_ne, lookup_insert_eq; done).
  assert (h2 !! B = Some b1) as Hb2 by (unfold h2; by rewrite lookup_insert_eq).
  rewrite (bind_returns _ _ h2 h2 a1) by (unfold get_obj; by rewrite Ha2).
  rewrite (bind_returns _ _ h2 h2 b1) by (unfold get_obj; by rewrite Hb2).
  cbn [endindex a1 b1].
  destruct (Z.ltb_spec (endindex b) (endindex a)) as [_|]; [|lia].
  apply bind_raises.
  apply (iadd_data_raises h2 A B a1 b1 (map (row_mul ratio) dA)
           (map (row_mul (1 - ratio)%Q) dB) (Some (endindex b)) Ha2 Hb2 eq_refl eq_refl).
  - rewrite slice_len_upto by (unfold len in *; rewrite length_map; lia).
    unfold len in *. rewrite length_map. lia.
  - unfold len in *. rewrite length_map. lia.
Qed.

End Mix.

(** ** Stepping through a collection *)

Section Navigator.

Implicit Types s : Store.
Implicit Types q g : ref.

Lemma index_of_range l x i : index_of l x = Return i -> 0 <= i < len l.
Proof.
  revert i. induction l as [|y l IH]; intros i; simpl; [discriminate|].
  destruct (decide (y = x)).
  - intros [= <-]. unfold len. simpl. lia.
  - destruct (index_of l x) as [j|e]; [|discriminate].
    intros [= <-]. specialize (IH j eq_refl). unfold len in *. simpl. lia.
Qed.

(** Indexing a list at its length raises [IndexError]. *)
Lemma py_index_at_len {A} (l : list A) : py_index l (len l) = Raise IndexError.
Proof.
  unfold py_index. pose proof (len_nonneg l).
  destruct (Z.ltb_spec (len l) 0); [lia|].
  destruct (Z.ltb_spec (len l) 0); [lia|].
  rewrite lookup_ge_None_2; [done|]. unfold len. lia.
Qed.

(** C10.  For a quantum [q] found at index [loc] of its containing
    collection, [next(q, step)] with [loc + step >= len(collection)]
    returns [q] itself and not the last element: the index is clamped
    to the length, the lookup there raises, and the handler returns
    [self].  The store is unchanged. *)
Theorem next_past_end s q Q g G loc step :
  quanta s !! q = Some Q ->
  container Q = Some (VQuantumList g) ->
  qlists s !! g = Some G ->
  index_of (items G) q = Return loc ->
  len (items G) <= loc + step ->
  next q step s = (Return q, s).
Proof.
  intros Hq Hc Hg Hloc Hstep.
  unfold next, quantum_container.
  rewrite (bind_returns _ _ s s (VQuantumList g))
    by (unfold bind, get_quantum; by rewrite Hq, Hc).
  assert (get_list g s = (Return G, s)) as HG by (unfold get_list; by rewrite Hg).
  unfold try_except, group_index, group_len, group_getitem, list_len, list_getitem.
  rewrite (bind_returns _ _ s s loc)
    by (rewrite (bind_returns _ _ s s G HG); unfold lift; by rewrite Hloc).
  rewrite (bind_returns _ _ s s (len (items G)))
    by (by rewrite (bind_returns _ _ s s G HG)).
  rewrite (bind_returns _ _ s s G HG).
  unfold lift. rewrite Z.min_r by lia. by rewrite py_index_at_len.
Qed.

(** C4, on the code.  [prev] reads [self.container] before its [try]
    block: on a quantum whose [container] attribute was never bound,
    the [AttributeError] reaches the caller and the quantum is not
    returned. *)
Theorem prev_unattached_raises s q Q step :
  quanta s !! q = Some Q ->
  container Q = None ->
  prev q step s = (Raise AttributeError, s).
Proof.
  intros Hq Hc. unfold prev, quantum_container, bind, get_quantum, raise.
  by rewrite Hq, Hc.
Qed.

(** Once a container is bound, [prev] fails soft: a container that is
    not a collection, or a collection that does not hold the quantum,
    gives the quantum back. *)
Lemma prev_not_found_is_self s q Q c step :
  quanta s !! q = Some Q ->
  container Q = Some c ->
  (forall g G, c = VQuantumList g -> qlists s !! g = Some G ->
               index_of (items G) q = Raise ValueError) ->
  prev q step s = (Return q, s).
Proof.
  intros Hq Hc Hmiss. unfold prev, quantum_container.
  rewrite (bind_returns _ _ s s c) by (unfold bind, get_quantum; by rewrite Hq, Hc).
  unfold try_except, group_index, bind, get_list, lift, raise, ret.
  destruct c as [| | | |r|g|r]; try done.
  destruct (qlists s !! g) as [G|] eqn:HG; [|done].
  by rewrite (Hmiss g G eq_refl HG).
Qed.

End Navigator.

Section Parent.

Variable World : Type.
Variable analyze : string -> string -> M World pyval.

Lemma on_store_reads {A} (m : M Store A) (s : State World) o :
  m (store s) = (o, store s) -> on_store m s = (o, s).
Proof. intros H. unfold on_store. rewrite H. by destruct s. Qed.

Lemma quantum_container_reads (s : State World) q o s' :
  on_store (quantum_container q) s = (o, s') -> s' = s.
Proof.
  unfold on_store, quantum_container, bind, get_quantum, raise, ret.
  destruct (quanta (store s) !! q) as [R|]; [|destruct s; by intros [= _ <-]].
  destruct (container R); destruct s; by intros [= _ <-].
Qed.

Lemma getattr_container_reads (s : State World) c o s' :
  getattr_container World c s = (o, s') -> s' = s.
Proof.
  destruct c as [| | | |r|g|r]; try (by intros [= _ <-]).
  - apply quantum_container_reads.
  - unfold getattr_container, on_store, bind, get_list, ret.
    destruct (qlists (store s) !! g); destruct s; by intros [= _ <-].
Qed.

(** For a quantum of kind ['section'], [parent] returns the quantum
    itself and changes nothing: [pars] has no entry for that kind, and
    the [KeyError], like any exception of the lookups before it, is
    caught. *)
Lemma parent_of_section_is_self (s : State World) q Q :
  quanta (store s) !! q = Some Q ->
  kind Q = Some "section"%string ->
  parent World analyze q s = (Return q, s).
Proof.
  intros Hq Hk. unfold parent, try_or_return.
  rewrite bind_run.
  destruct (on_store (quantum_container q) s) as [[c|e] s1] eqn:Hc;
    apply quantum_container_reads in Hc as ->; [|done].
  rewrite bind_run.
  destruct (getattr_container World c s) as [[cc|e] s2] eqn:Hcc;
    apply getattr_container_reads in Hcc as ->; [|done].
  rewrite bind_run.
  rewrite (on_store_reads (get_quantum q) s (Return Q))
    by (unfold get_quantum; by rewrite Hq).
  rewrite bind_run. unfold lift. by rewrite Hk.
Qed.

End Parent.

(** ** Parsing a document into a collection *)

Section DataParser.

Variable tag : string.
Variable out : ref.

Implicit Types s : Store.
Implicit Types rs : list ref.
Implicit Types qs : list AudioQuantum.

#[local] Abbreviation built := (built tag out).
#[local] Abbreviation body2 := (fun i : Z =>
  let! next := list_getitem out (i + 1) in
  let! qn := get_quantum next in
  let! this := list_getitem out i in
  let! qt := get_quantum this in
  set_duration this (start qn - start qt)%Q).

Lemma built_lookup s rs qs i r :
  built s rs qs -> rs !! i = Some r ->
  exists q, qs !! i = Some q /\ quanta s !! r = Some q.
Proof.
  intros (_ & Hall & _) Hr.
  destruct (Forall2_lookup_l _ _ _ _ _ Hall Hr) as (q & Hq & Hrq). eauto.
Qed.

Lemma built_length s rs qs : built s rs qs -> length rs = length qs.
Proof. intros (_ & Hall & _). by apply Forall2_length in Hall. Qed.

(** One round of the first loop: a new quantum is made from the node
    and put at the end of the collection. *)
Lemma build_step s rs qs n :
  built s rs qs ->
  exists s' r,
    (let! q := new_quantum (AudioQuantum_init (node_data n) 0 (Some tag)
                              (Some (node_confidence n))) in
     list_append out q) s = (Return tt, s') /\
    built s' (rs ++ [r])
      (qs ++ [AudioQuantum_init (node_data n) 0 (Some tag) (Some (node_confidence n))]).
Proof.
  intros (Hout & Hall & Hnd).
  set (r := fresh (dom (quanta s))).
  assert (quanta s !! r = None) as Hr by apply not_elem_of_dom, is_fresh.
  assert (r ∉ rs) as Hnotin.
  { intros Hin. apply list_elem_of_lookup in Hin as [i Hi].
    destruct (Forall2_lookup_l _ _ _ _ _ Hall Hi) as (q & _ & Hq). congruence. }
  eexists _, r. split.
  - unfold bind, new_quantum, list_append, bind, get_list, set_list, modify.
    cbn. rewrite Hout. reflexivity.
  - split; [|split].
    + cbn. by rewrite lookup_insert_eq.
    + cbn. apply Forall2_app.
      * eapply Forall2_impl; [exact Hall|]. intros r' q' Hq'. cbn in Hq'.
        rewrite lookup_insert_ne; [done|]. intros Heq. unfold r in *. congruence.
      * constructor; [|constructor]. by rewrite lookup_insert_eq.
    + apply NoDup_app. split; [done|]. split; [|apply NoDup_singleton].
      intros x Hx Hx'. apply list_elem_of_singleton in Hx'. by subst.
Qed.

Lemma build_loop nodes :
  forall s rs qs,
    built s rs qs ->
    exists s' rs',
      for_each nodes (fun n =>
        let! q := new_quantum (AudioQuantum_init (node_data n) 0 (Some tag)
                                 (Some (node_confidence n))) in
        list_append out q) s = (Return tt, s') /\
      built s' (rs ++ rs')
        (qs ++ map (fun n => AudioQuantum_init (node_data n) 0 (Some tag)
                               (Some (node_confidence n))) nodes).
Proof.
  induction nodes as [|n nodes IH]; intros s rs qs Hb.
  - exists s, []. split; [done|]. by rewrite !app_nil_r.
  - destruct (build_step s rs qs n Hb) as (s1 & r & Hrun & Hb1).
    destruct (IH s1 _ _ Hb1) as (s' & rs' & Hrun' & Hb').
    exists s', (r :: rs'). split.
    + rewrite for_each_cons, Hrun. exact Hrun'.
    + cbn [map]. by rewrite !(cons_middle _ _ _), !app_assoc.
Qed.

Lemma py_index_nonneg {A} (l : list A) i x :
  0 <= i -> l !! Z.to_nat i = Some x -> py_index l i = Return x.
Proof.
  intros Hi Hx. unfold py_index.
  destruct (Z.ltb_spec i 0); [lia|]. destruct (Z.ltb_spec i 0); [lia|].
  by rewrite Hx.
Qed.

Lemma py_index_neg {A} (l : list A) i x :
  i < 0 -> 0 <= i + len l -> l !! Z.to_nat (i + len l) = Some x ->
  py_index l i = Return x.
Proof.
  intros Hi Hn Hx. unfold py_index.
  destruct (Z.ltb_spec i 0); [|lia]. destruct (Z.ltb_spec (i + len l) 0); [lia|].
  by rewrite Hx.
Qed.

Lemma get_list_built s rs qs :
  built s rs qs ->
  get_list out s = (Return (mkAudioQuantumList rs (Some tag) VNone), s).
Proof. intros (Hout & _). unfold get_list. by rewrite Hout. Qed.

(** [out[i]] for an index inside the collection. *)
Lemma getitem_built s rs qs i r :
  built s rs qs -> rs !! i = Some r ->
  list_getitem out (Z.of_nat i) s = (Return r, s).
Proof.
  intros Hb Hr. unfold list_getitem.
  rewrite (bind_returns _ _ s s _ (get_list_built s rs qs Hb)).
  unfold lift. cbn [items]. rewrite (py_index_nonneg rs (Z.of_nat i) r); [done|lia|].
  by rewrite Nat2Z.id.
Qed.

(** [out[-k]] counts from the end. *)
Lemma getitem_built_neg s rs qs k r :
  built s rs qs -> (0 < k <= length rs)%nat -> rs !! (length rs - k)%nat = Some r ->
  list_getitem out (- Z.of_nat k) s = (Return r, s).
Proof.
  intros Hb Hk Hr. unfold list_getitem.
  rewrite (bind_returns _ _ s s _ (get_list_built s rs qs Hb)).
  unfold lift. cbn [items].
  rewrite (py_index_neg rs (- Z.of_nat k) r); [done|lia|unfold len; lia|].
  replace (Z.to_nat (- Z.of_nat k + len rs)) with (length rs - k)%nat
    by (unfold len; lia).
  done.
Qed.

Lemma get_quantum_built s rs qs i r q :
  built s rs qs -> rs !! i = Some r -> qs !! i = Some q ->
  get_quantum r s = (Return q, s).
Proof.
  intros Hb Hr Hq. destruct (built_lookup s rs qs i r Hb Hr) as (q' & Hq' & Hs).
  unfold get_quantum. rewrite Hs. congruence.
Qed.

(** [out[i].duration = d] changes the quantum at position [i] and no
    other. *)
Lemma set_duration_built s rs qs i r q d :
  built s rs qs -> rs !! i = Some r -> qs !! i = Some q ->
  exists s', set_duration r d s = (Return tt, s') /\
             built s' rs (<[i := with_duration q d]> qs).
Proof.
  intros Hb Hr Hq. pose proof Hb as (Hout & Hall & Hnd).
  eexists. split.
  - unfold set_duration.
    rewrite (bind_returns _ _ s s q (get_quantum_built s rs qs i r q Hb Hr Hq)).
    reflexivity.
  - split; [done|]. split; [|done]. cbn.
    apply Forall2_same_length_lookup. split.
    + rewrite length_insert. by apply Forall2_length in Hall.
    + intros j r' q' Hr' Hq'. destruct (decide (j = i)) as [->|Hji].
      * rewrite list_lookup_insert_eq in Hq' by (by apply lookup_lt_Some in Hq).
        assert (r' = r) as -> by congruence.
        rewrite lookup_insert_eq. congruence.
      * rewrite list_lookup_insert_ne in Hq' by done.
        rewrite lookup_insert_ne.
        -- by apply (Forall2_lookup_lr _ _ _ j r' q' Hall).
        -- intros <-. apply Hji. by apply (NoDup_lookup rs j i r).
Qed.

(** One round of the second loop. *)
Lemma spacing_step s rs qs i qt qn :
  built s rs qs -> qs !! i = Some qt -> qs !! S i = Some qn ->
  exists s', body2 (Z.of_nat i) s = (Return tt, s') /\
             built s' rs (<[i := with_duration qt (start qn - start qt)%Q]> qs).
Proof.
  intros Hb Hqt Hqn. pose proof (built_length s rs qs Hb) as Hlen.
  destruct (lookup_lt_is_Some_2 rs i) as [rt Hrt];
    [apply lookup_lt_Some in Hqt; lia|].
  destruct (lookup_lt_is_Some_2 rs (S i)) as [rn Hrn];
    [apply lookup_lt_Some in Hqn; lia|].
  destruct (set_duration_built s rs qs i rt qt (start qn - start qt)%Q Hb Hrt Hqt)
    as (s' & Hset & Hb').
  exists s'. split; [|done].
  replace (Z.of_nat i + 1) with (Z.of_nat (S i)) by lia.
  rewrite (bind_returns _ _ s s rn (getitem_built s rs qs (S i) rn Hb Hrn)).
  rewrite (bind_returns _ _ s s qn (get_quantum_built s rs qs (S i) rn qn Hb Hrn Hqn)).
  rewrite (bind_returns _ _ s s rt (getitem_built s rs qs i rt Hb Hrt)).
  rewrite (bind_returns _ _ s s qt (get_quantum_built s rs qs i rt qt Hb Hrt Hqt)).
  exact Hset.
Qed.

Lemma starts_insert qs i q d :
  qs !! i = Some q -> map start (<[i := with_duration q d]> qs) = map start qs.
Proof.
  intros Hq. change (map start) with (fmap (M:=list) start).
  rewrite list_fmap_insert. cbn [with_duration start].
  apply list_insert_id. by rewrite list_lookup_fmap, Hq.
Qed.

(** The second loop, from index [k] on for [m] rounds: every quantum
    it has passed has its duration, and the start times stay. *)
Lemma spacing_loop rs st m :
  forall k s qs,
    built s rs qs -> map start qs = st -> (k + m < length rs)%nat ->
    (forall j, (j < k)%nat -> spaced st qs j) ->
    exists s' qs',
      for_each (map Z.of_nat (seq k m)) body2 s = (Return tt, s') /\
      built s' rs qs' /\ map start qs' = st /\
      (forall j, (j < k + m)%nat -> spaced st qs' j).
Proof.
  induction m as [|m IH]; intros k s qs Hb Hst Hkm Hdone.
  - exists s, qs. split; [done|]. split; [done|]. split; [done|].
    intros j Hj. apply Hdone. lia.
  - pose proof (built_length s rs qs Hb) as Hlen.
    destruct (lookup_lt_is_Some_2 qs k) as [qt Hqt]; [lia|].
    destruct (lookup_lt_is_Some_2 qs (S k)) as [qn Hqn]; [lia|].
    destruct (spacing_step s rs qs k qt qn Hb Hqt Hqn) as (s1 & Hrun & Hb1).
    destruct (IH (S k) s1 _ Hb1) as (s' & qs' & Hrun' & Hb' & Hst' & Hdone').
    + by rewrite starts_insert.
    + lia.
    + intros j Hj. destruct (decide (j = k)) as [->|Hjk].
      * exists (with_duration qt (start qn - start qt)%Q), (start qt), (start qn).
        rewrite list_lookup_insert_eq by lia. split; [done|].
        rewrite <- Hst. change (map start qs) with (start <$> qs).
        rewrite !list_lookup_fmap, Hqt, Hqn. done.
      * destruct (Hdone j) as (q & x & y & Hq & Hx & Hy & Hd); [lia|].
        exists q, x, y. by rewrite list_lookup_insert_ne.
    + exists s', qs'. split.
      * cbn [seq map]. by rewrite for_each_cons, Hrun.
      * split; [done|]. split; [done|]. intros j Hj. apply Hdone'. lia.
Qed.

End DataParser.

(** C3.  For a document with [n >= 2] elements of the tag,
    [dataParser] returns a collection of [n] quanta, in document order,
    such that for every [i < n-1] the start plus the duration of
    quantum [i] equals the start of quantum [i+1] (in exact arithmetic),
    and the duration of quantum [n-1] is the duration of quantum [n-2]. *)
Theorem dataParser_durations (tag : string) (doc : gmap string (list Node))
    (nodes : list Node) (s : Store) :
  doc !! tag = Some nodes -> (2 <= length nodes)%nat ->
  exists out s' rs qs,
    dataParser tag doc s = (Return out, s') /\
    qlists s' !! out = Some (mkAudioQuantumList rs (Some tag) VNone) /\
    Forall2 (fun r q => quanta s' !! r = Some q) rs qs /\
    map start qs = map node_data nodes /\
    (forall i q q', qs !! i = Some q -> qs !! S i = Some q' ->
                    (start q + duration q == start q')%Q) /\
    (forall q q', qs !! (length nodes - 1)%nat = Some q ->
                  qs !! (length nodes - 2)%nat = Some q' ->
                  duration q = duration q').
Proof.
  intros Hdoc Hn.
  set (out := fresh (dom (qlists s))).
  set (s1 := mkStore (quanta s)
               (<[out := mkAudioQuantumList [] (Some tag) VNone]> (qlists s))).
  assert (built tag out s1 [] []) as Hb1.
  { split; [|split; [constructor|constructor]]. cbn. by rewrite lookup_insert_eq. }
  destruct (build_loop tag out nodes s1 [] [] Hb1) as (s2 & rs & Hrun2 & Hb2).
  cbn [app] in Hb2.
  set (qs0 := map (fun n => AudioQuantum_init (node_data n) 0 (Some tag)
                              (Some (node_confidence n))) nodes) in *.
  set (st := map node_data nodes).
  assert (map start qs0 = st) as Hst0.
  { unfold qs0, st. rewrite map_map. done. }
  assert (length rs = length nodes) as Hlen.
  { rewrite (built_length tag out s2 rs qs0 Hb2). unfold qs0. by rewrite length_map. }
  destruct (spacing_loop tag out rs st (length rs - 1) 0 s2 qs0 Hb2 Hst0)
    as (s3 & qs3 & Hrun3 & Hb3 & Hst3 & Hsp3); [lia|intros j Hj; lia|].
  pose proof (built_length tag out s3 rs qs3 Hb3) as Hlen3.
  destruct (lookup_lt_is_Some_2 rs (length rs - 2)) as [rp Hrp]; [lia|].
  destruct (lookup_lt_is_Some_2 rs (length rs - 1)) as [rl Hrl]; [lia|].
  destruct (lookup_lt_is_Some_2 qs3 (length rs - 2)) as [qp Hqp]; [lia|].
  destruct (lookup_lt_is_Some_2 qs3 (length rs - 1)) as [ql Hql]; [lia|].
  destruct (set_duration_built tag out s3 rs qs3 (length rs - 1) rl ql (duration qp)
              Hb3 Hrl Hql) as (s4 & Hrun4 & Hb4).
  exists out, s4, rs, (<[(length rs - 1)%nat := with_duration ql (duration qp)]> qs3).
  split; [|split; [apply Hb4|split; [apply Hb4|split; [by rewrite starts_insert|split]]]].
  - unfold dataParser.
    rewrite (bind_returns _ _ s s1 out) by done.
    rewrite Hdoc. cbn [default].
    rewrite (bind_returns _ _ s1 s2 tt Hrun2).
    rewrite (bind_returns _ _ s2 s2 (len rs))
      by (unfold list_len; by rewrite (bind_returns _ _ s2 s2 _ (get_list_built tag out s2 rs qs0 Hb2))).
    rewrite (bind_returns _ _ s2 s4 tt); [done|].
    destruct (Z.ltb_spec 1 (len rs)) as [_|Hle]; [|unfold len in Hle; lia].
    unfold range. replace (Z.to_nat (len rs - 1)) with (length rs - 1)%nat
      by (unfold len; lia).
    rewrite (bind_returns _ _ s2 s3 tt Hrun3).
    change (-2) with (- Z.of_nat 2). change (-1) with (- Z.of_nat 1).
    rewrite (bind_returns _ _ s3 s3 rp)
      by (apply (getitem_built_neg tag out s3 rs qs3); [done|lia|done]).
    rewrite (bind_returns _ _ s3 s3 qp)
      by (by apply (get_quantum_built tag out s3 rs qs3 (length rs - 2))).
    rewrite (bind_returns _ _ s3 s3 rl)
      by (apply (getitem_built_neg tag out s3 rs qs3); [done|lia|done]).
    exact Hrun4.
  - intros i q q' Hq Hq'.
    assert (S i < length rs)%nat as Hi.
    { apply lookup_lt_Some in Hq'. rewrite length_insert in Hq'. lia. }
    rewrite list_lookup_insert_ne in Hq by lia.
    destruct (Hsp3 i) as (q2 & x & y & Hq2 & Hx & Hy & Hd); [lia|].
    assert (q2 = q) as -> by congruence.
    assert (start q = x) as <-.
    { rewrite <- Hst3 in Hx. change (map start qs3) with (start <$> qs3) in Hx.
      rewrite list_lookup_fmap, Hq2 in Hx. by injection Hx. }
    assert (start q' = y) as <-.
    { rewrite <- Hst3, <- (starts_insert qs3 (length rs - 1) ql (duration qp) Hql) in Hy.
      change (map start ?l) with (start <$> l) in Hy.
      rewrite list_lookup_fmap, Hq' in Hy. by injection Hy. }
    rewrite Hd. ring.
  - rewrite <- Hlen. intros q q' Hq Hq'.
    rewrite list_lookup_insert_eq in Hq by lia.
    rewrite list_lookup_insert_ne in Hq' by lia.
    injection Hq as <-. cbn. congruence.
Qed.

(** ** The cached analysis *)

Section Preserves.

Context {S : Type} (R : S -> S -> Prop) `{!Reflexive R, !Transitive R}.

Lemma preserves_ret {A} (a : A) : preserves R (ret a).
Proof. intros s o s' [= _ <-]. reflexivity. Qed.

Lemma preserves_raise {A} e : preserves R (@raise S A e).
Proof. intros s o s' [= _ <-]. reflexivity. Qed.

Lemma preserves_lift {A} (x : outcome A) : preserves R (lift x).
Proof. intros s o s' [= _ <-]. reflexivity. Qed.

Lemma preserves_bind {A B} (m : M S A) (k : A -> M S B) :
  preserves R m -> (forall a, preserves R (k a)) -> preserves R (bind m k).
Proof.
  intros Hm Hk s o s'. rewrite bind_run.
  destruct (m s) as [[a|e] s1] eqn:Hrun.
  - intros Hrun'. transitivity s1; [by eapply Hm|by eapply Hk].
  - intros [= _ <-]. by eapply Hm.
Qed.

End Preserves.

Section Cache.

Variable World : Type.
Variable analyze : string -> string -> M World pyval.

Implicit Types s : State World.
Implicit Types f : ref.
Implicit Types a : AudioAnalysis.

#[local] Instance no_fetch_refl : Reflexive (@no_fetch World).
Proof. by intros s. Qed.

#[local] Instance no_fetch_trans : Transitive (@no_fetch World).
Proof. intros s1 s2 s3 [H1 H2] [H3 H4]. split; congruence. Qed.

Lemma on_store_no_fetch {A} (m : M Store A) : preserves no_fetch (on_store (World:=World) m).
Proof.
  intros s o s'. unfold on_store. destruct (m (store s)) as [o' st].
  by intros [= _ <-].
Qed.

Lemma on_store_analyses {A} (m : M Store A) s o s' :
  on_store m s = (o, s') -> analyses s' = analyses s.
Proof.
  unfold on_store. destruct (m (store s)) as [o' st]. by intros [= _ <-].
Qed.

Lemma get_analysis_no_fetch f : preserves no_fetch (get_analysis World f).
Proof.
  intros s o s'. unfold get_analysis.
  destruct (analyses s !! f); by intros [= _ <-].
Qed.

Lemma object_getattribute_no_fetch f name :
  preserves no_fetch (object_getattribute World f name).
Proof.
  unfold object_getattribute, setattr; apply (preserves_bind no_fetch); [apply get_analysis_no_fetch|].
  intros a. destruct (attrs a !! name);
    [by apply preserves_ret|by apply preserves_raise].
Qed.

Lemma setattr_no_fetch f name v : preserves no_fetch (setattr World f name v).
Proof.
  unfold object_getattribute, setattr; apply (preserves_bind no_fetch); [apply get_analysis_no_fetch|].
  intros a s o s' [= _ <-]. done.
Qed.

Lemma object_getattribute_run s f a name v :
  analyses s !! f = Some a -> attrs a !! name = Some v ->
  object_getattribute World f name s = (Return v, s).
Proof.
  intros Ha Hv. unfold object_getattribute, bind, get_analysis, ret.
  by rewrite Ha, Hv.
Qed.

(** A read that returns [v] found [v] in the attribute. *)
Lemma object_getattribute_inv s f name v s' :
  object_getattribute World f name s = (Return v, s') ->
  s' = s /\ exists a, analyses s !! f = Some a /\ attrs a !! name = Some v.
Proof.
  unfold object_getattribute, bind, get_analysis, ret, raise.
  destruct (analyses s !! f) as [a|]; [|discriminate].
  destruct (attrs a !! name) as [v'|] eqn:Hv; [|discriminate].
  intros [= <- <-]. eauto.
Qed.

(** An access to a variable that holds a value other than [None]
    returns it and leaves the whole state as it is. *)
Lemma getattribute_cached s f a name v :
  analyses s !! f = Some a -> attrs a !! name = Some v -> v <> VNone ->
  getattribute World analyze f name s = (Return v, s).
Proof.
  intros Ha Hv Hnone. unfold getattribute.
  pose proof (object_getattribute_run s f a name v Ha Hv) as Hread.
  destruct (bool_decide (name ∈ CACHED_VARIABLES)).
  - rewrite (bind_returns _ _ s s tt); [done|].
    rewrite (bind_returns _ _ s s v Hread). by destruct v.
  - by rewrite (bind_returns _ _ s s tt).
Qed.

(** What follows the request in [__getattribute__] makes no request. *)
Lemma after_fetch_no_fetch f a name value :
  preserves no_fetch
    (let! value := match parsers a !! name with
                   | Some parseFunction => on_store (parseFunction value)
                   | None => ret value
                   end in
     setattr World f name value ;;
     let! v' := object_getattribute World f name in
     match v' with
     | VQuantumList l => on_store (attach l (VAnalysis f))
     | _ => ret tt
     end).
Proof.
  unfold object_getattribute, setattr; apply (preserves_bind no_fetch).
  { destruct (parsers a !! name); [apply on_store_no_fetch|by apply preserves_ret]. }
  intros v. unfold object_getattribute, setattr; apply (preserves_bind no_fetch); [apply setattr_no_fetch|].
  intros _. unfold object_getattribute, setattr; apply (preserves_bind no_fetch); [apply object_getattribute_no_fetch|].
  intros v'. destruct v'; try (by apply preserves_ret). apply on_store_no_fetch.
Qed.

(** An access to a cached variable that holds [None] makes exactly one
    request to the service, whatever comes of it. *)
Lemma getattribute_unfetched_requests s f a name :
  analyses s !! f = Some a -> name ∈ CACHED_VARIABLES ->
  attrs a !! name = Some VNone ->
  fetches (snd (getattribute World analyze f name s)) = fetches s ++ [(name, id a)].
Proof.
  intros Ha Hname Hv. unfold getattribute.
  rewrite bool_decide_eq_true_2 by done.
  rewrite bind_run.
  rewrite (bind_returns _ _ s s VNone) by (by apply object_getattribute_run with a).
  rewrite (bind_returns _ _ s s a) by (unfold get_analysis; by rewrite Ha).
  rewrite bind_run. unfold fetch at 1.
  destruct (analyze name (id a) (world s)) as [[raw|e] w]; [|done].
  set (s1 := mkState (store s) (analyses s) w (fetches s ++ [(name, id a)])).
  change (fetches s ++ [(name, id a)]) with (fetches s1).
  match goal with
  | |- context [ (bind ?m ?k) s1 ] =>
      destruct (bind m k s1) as [[[]|e] s2] eqn:Hrest;
      apply (after_fetch_no_fetch f a name raw) in Hrest as [_ Hlog]
  end; [|done].
  destruct (object_getattribute World f name s2) as [o s3] eqn:Hread.
  apply object_getattribute_no_fetch in Hread as [_ Hlog']. cbn.
  by rewrite Hlog', Hlog.
Qed.

(** C8 (amended).  For a cached variable of an analysis:
    - if the request to the service raises, the exception reaches the
      caller, the attributes of the analysis are as before (the
      variable still holds [None]) and the next access makes the
      request again;
    - likewise if the parse function raises;
    - once an access has returned a value other than [None], an
      access returns that value and changes nothing, so that no
      request is made, however often it is repeated. *)
Theorem cached_variable_contract s f a name :
  analyses s !! f = Some a -> name ∈ CACHED_VARIABLES ->
  (forall e w,
      attrs a !! name = Some VNone ->
      analyze name (id a) (world s) = (Raise e, w) ->
      let s' := mkState (store s) (analyses s) w (fetches s ++ [(name, id a)]) in
      getattribute World analyze f name s = (Raise e, s') /\
      fetches (snd (getattribute World analyze f name s')) =
        fetches s' ++ [(name, id a)]) /\
  (forall raw w (parseFunction : Parser) e st,
      attrs a !! name = Some VNone ->
      analyze name (id a) (world s) = (Return raw, w) ->
      parsers a !! name = Some parseFunction ->
      parseFunction raw (store s) = (Raise e, st) ->
      let s' := mkState st (analyses s) w (fetches s ++ [(name, id a)]) in
      getattribute World analyze f name s = (Raise e, s') /\
      fetches (snd (getattribute World analyze f name s')) =
        fetches s' ++ [(name, id a)]) /\
  (forall v s',
      getattribute World analyze f name s = (Return v, s') ->
      v <> VNone ->
      getattribute World analyze f name s' = (Return v, s')).
Proof.
  intros Ha Hname. split; [|split].
  - intros e w Hv Hraise s'. split.
    + unfold getattribute. rewrite bool_decide_eq_true_2 by done.
      rewrite (bind_raises _ _ s s' e); [done|].
      rewrite (bind_returns _ _ s s VNone) by (by apply object_getattribute_run with a).
      rewrite (bind_returns _ _ s s a) by (unfold get_analysis; by rewrite Ha).
      rewrite (bind_raises _ _ s s' e); [done|].
      unfold fetch. by rewrite Hraise.
    + by apply getattribute_unfetched_requests.
  - intros raw w parseFunction e st Hv Hfetch Hparser Hparse s'. split.
    + unfold getattribute. rewrite bool_decide_eq_true_2 by done.
      rewrite (bind_raises _ _ s s' e); [done|].
      rewrite (bind_returns _ _ s s VNone) by (by apply object_getattribute_run with a).
      rewrite (bind_returns _ _ s s a) by (unfold get_analysis; by rewrite Ha).
      rewrite (bind_returns _ _ s
                 (mkState (store s) (analyses s) w (fetches s ++ [(name, id a)])) raw)
        by (unfold fetch; by rewrite Hfetch).
      rewrite (bind_raises _ _ _ s' e); [done|].
      unfold Parser in *. rewrite Hparser. unfold on_store. cbn. by rewrite Hparse.
    + by apply getattribute_unfetched_requests.
  - intros v s' Hrun Hnone. unfold getattribute in Hrun. rewrite bind_run in Hrun.
    match type of Hrun with
    | context [ match ?m s with _ => _ end ] => destruct (m s) as [[[]|e] s1]
    end; [|discriminate].
    apply object_getattribute_inv in Hrun as (-> & a' & Ha' & Hv').
    by apply getattribute_cached with a'.
Qed.

End Cache.

(** ** The statements on concrete stores *)

Section Examples.

Import Ex.

(** [getpieces] on two quanta given out of time order: four rows,
    second half of the source first. *)
Lemma getpieces_length_witness :
  h_source !! 0%nat = Some source /\
  data source = Some [1; 2; 3; 4] /\
  sampleRate source = Some 4 /\
  len (concat (map (piece 4 [1; 2; 3; 4]) [q_second; q_first]))
    <= allocated 4 [q_second; q_first] /\
  exists new b h' d',
    getpieces Mono.zero None 0%nat [q_second; q_first] h_source = (Return new, h') /\
    h_source !! new = None /\ h' !! new = Some b /\ h' !! 0%nat = Some source /\
    endindex b = sumZ (map (fun s => len (piece 4 [1; 2; 3; 4] s)) [q_second; q_first]) /\
    data b = Some d' /\ len d' = allocated 4 [q_second; q_first] /\
    take (Z.to_nat (endindex b)) d' =
      concat (map (piece 4 [1; 2; 3; 4]) [q_second; q_first]).
Proof.
  assert (h_source !! 0%nat = Some source) as H1 by reflexivity.
  assert (data source = Some [1; 2; 3; 4]) as H2 by reflexivity.
  assert (sampleRate source = Some 4) as H3 by reflexivity.
  assert (len (concat (map (piece 4 [1; 2; 3; 4]) [q_second; q_first]))
          <= allocated 4 [q_second; q_first]) as H4 by (vm_compute; discriminate).
  exact (conj H1 (conj H2 (conj H3 (conj H4
    (getpieces_length Mono.zero None h_source 0%nat source [1; 2; 3; 4] 4
       [q_second; q_first] H1 H2 H3 H4))))).
Defined.

(** C1 as stated fails.  The source has four samples at 4 Hz and the
    one quantum lasts 7/16 s, 1.75 samples: [getpieces] returns a
    buffer whose end index is 1, the number of rows of
    [data[0:int(1.75)]], while [round(1.75)] is 2. *)
Lemma getpieces_rounded_length_counterexample :
  match getpieces Mono.zero None 0%nat [q_short] h_source with
  | (Return new, h') => endindex <$> h' !! new
  | (Raise _, _) => None
  end = Some 1 /\
  rounded_length 4 [q_short] = 2.
Proof. split; vm_compute; reflexivity. Qed.

Lemma append_copies_all_rows_witness :
  h_append !! 0%nat = Some prealloc /\ h_append !! 1%nat = Some partial /\
  data prealloc = Some [0; 0; 0; 0; 0] /\ data partial = Some [7; 0; 0] /\
  0 <= endindex prealloc /\
  endindex prealloc + len [7; 0; 0] <= len [0; 0; 0; 0; 0] /\
  append 0%nat 1%nat h_append =
    (Return tt,
     <[0%nat := mkAudioData
                 (Some (take (Z.to_nat (endindex prealloc)) [0; 0; 0; 0; 0] ++
                        [7; 0; 0] ++
                        drop (Z.to_nat (endindex prealloc) + length [7; 0; 0])
                          [0; 0; 0; 0; 0]))
                 (endindex prealloc + AudioData_len partial)
                 (sampleRate prealloc) (numChannels prealloc)]> h_append).
Proof.
  assert (h_append !! 0%nat = Some prealloc) as H1 by reflexivity.
  assert (h_append !! 1%nat = Some partial) as H2 by reflexivity.
  assert (data prealloc = Some [0; 0; 0; 0; 0]) as H3 by reflexivity.
  assert (data partial = Some [7; 0; 0]) as H4 by reflexivity.
  assert (0 <= endindex prealloc) as H5 by (vm_compute; discriminate).
  assert (endindex prealloc + len [7; 0; 0] <= len [0; 0; 0; 0; 0]) as H6
    by (vm_compute; discriminate).
  exact (conj H1 (conj H2 (conj H3 (conj H4 (conj H5 (conj H6
    (append_copies_all_rows h_append 0%nat 1%nat prealloc partial
       [0; 0; 0; 0; 0] [7; 0; 0] H1 H2 H3 H4 H5 H6))))))).
Defined.

(** C2 as stated fails.  [partial] has three allocated rows and end
    index 1.  Appending it to the empty [prealloc] moves the end index
    of [prealloc] from 0 to 3, the allocated length of [partial], not
    to 1, its valid length. *)
Lemma append_valid_length_counterexample :
  endindex prealloc = 0 /\ endindex partial = 1 /\ AudioData_len partial = 3 /\
  fst (append 0%nat 1%nat h_append) = Return tt /\
  endindex <$> snd (append 0%nat 1%nat h_append) !! 0%nat = Some 3 /\
  3 <> endindex prealloc + endindex partial.
Proof. repeat split; vm_compute; congruence. Qed.

Lemma append_capacity_error_witness :
  h_full !! 0%nat = Some full2 /\ h_full !! 2%nat = Some two_rows /\
  data full2 = Some [1; 2] /\ data two_rows = Some [8; 9] /\
  0 <= endindex full2 <= len [1; 2] /\
  ((exists e h', append 0%nat 2%nat h_full = (Raise e, h')) <->
     len [1; 2] < endindex full2 + len [8; 9] /\ len [8; 9] <> 1) /\
  (forall e h', append 0%nat 2%nat h_full = (Raise e, h') ->
                e = ValueError /\ h' = h_full).
Proof.
  assert (h_full !! 0%nat = Some full2) as H1 by reflexivity.
  assert (h_full !! 2%nat = Some two_rows) as H2 by reflexivity.
  assert (data full2 = Some [1; 2]) as H3 by reflexivity.
  assert (data two_rows = Some [8; 9]) as H4 by reflexivity.
  assert (0 <= endindex full2 <= len [1; 2]) as H5
    by (split; vm_compute; discriminate).
  exact (conj H1 (conj H2 (conj H3 (conj H4 (conj H5
    (append_capacity_error h_full 0%nat 2%nat full2 two_rows [1; 2] [8; 9]
       H1 H2 H3 H4 H5)))))).
Defined.

(** [full2] has two rows and end index 2, and
    [one_row] has one row: [endindex + len(other)] is 3 and exceeds the
    capacity, yet [append] raises nothing.  The one row is broadcast
    into an empty slice, the array is as before and the end index
    becomes 3. *)
Lemma append_over_capacity_counterexample :
  AudioData_len full2 < endindex full2 + AudioData_len one_row /\
  fst (append 0%nat 1%nat h_full) = Return tt /\
  snd (append 0%nat 1%nat h_full) !! 0%nat = Some (Mono.buffer [1; 2] 3).
Proof. repeat split; vm_compute; reflexivity. Qed.

Lemma dataParser_durations_witness :
  beats_doc !! "beat"%string = Some [mkNode 0 1; mkNode (1 # 2) 1; mkNode (3 # 2) 1] /\
  (2 <= length [mkNode 0 1; mkNode (1 # 2) 1; mkNode (3 # 2) 1])%nat /\
  exists out s' rs qs,
    dataParser "beat" beats_doc empty_store = (Return out, s') /\
    qlists s' !! out = Some (mkAudioQuantumList rs (Some "beat"%string) VNone) /\
    Forall2 (fun r q => quanta s' !! r = Some q) rs qs /\
    map start qs = map node_data [mkNode 0 1; mkNode (1 # 2) 1; mkNode (3 # 2) 1] /\
    (forall i q q', qs !! i = Some q -> qs !! S i = Some q' ->
                    (start q + duration q == start q')%Q) /\
    (forall q q',
        qs !! (length [mkNode 0 1; mkNode (1 # 2) 1; mkNode (3 # 2) 1] - 1)%nat = Some q ->
        qs !! (length [mkNode 0 1; mkNode (1 # 2) 1; mkNode (3 # 2) 1] - 2)%nat = Some q' ->
        duration q = duration q').
Proof.
  assert (beats_doc !! "beat"%string =
          Some [mkNode 0 1; mkNode (1 # 2) 1; mkNode (3 # 2) 1]) as H1
    by (vm_compute; reflexivity).
  assert (2 <= length [mkNode 0 1; mkNode (1 # 2) 1; mkNode (3 # 2) 1])%nat as H2
    by (simpl; lia).
  exact (conj H1 (conj H2
    (dataParser_durations "beat" beats_doc _ empty_store H1 H2))).
Defined.

(** The third tatum of [tatums] was never attached: [prev] raises. *)
Lemma prev_unattached_raises_witness :
  quanta tatums !! 2%nat = Some (tatum (1 # 2) None) /\
  container (tatum (1 # 2) None) = None /\
  prev 2%nat 1 tatums = (Raise AttributeError, tatums).
Proof.
  assert (quanta tatums !! 2%nat = Some (tatum (1 # 2) None)) as H1 by reflexivity.
  assert (container (tatum (1 # 2) None) = None) as H2 by reflexivity.
  exact (conj H1 (conj H2
    (prev_unattached_raises tatums 2%nat (tatum (1 # 2) None) 1 H1 H2))).
Defined.

(** The second tatum is the last of its collection: one step forward
    gives the tatum itself. *)
Lemma next_past_end_witness :
  quanta tatums !! 1%nat = Some (tatum (1 # 4) (Some (VQuantumList 0%nat))) /\
  container (tatum (1 # 4) (Some (VQuantumList 0%nat))) = Some (VQuantumList 0%nat) /\
  qlists tatums !! 0%nat =
    Some (mkAudioQuantumList [0%nat; 1%nat] (Some "tatum"%string) VNone) /\
  index_of [0%nat; 1%nat] 1%nat = Return 1 /\
  len [0%nat; 1%nat] <= 1 + 1 /\
  next 1%nat 1 tatums = (Return 1%nat, tatums).
Proof.
  assert (quanta tatums !! 1%nat = Some (tatum (1 # 4) (Some (VQuantumList 0%nat))))
    as H1 by reflexivity.
  assert (container (tatum (1 # 4) (Some (VQuantumList 0%nat)))
          = Some (VQuantumList 0%nat)) as H2 by reflexivity.
  assert (qlists tatums !! 0%nat =
          Some (mkAudioQuantumList [0%nat; 1%nat] (Some "tatum"%string) VNone))
    as H3 by reflexivity.
  assert (index_of [0%nat; 1%nat] 1%nat = Return 1) as H4 by reflexivity.
  assert (len [0%nat; 1%nat] <= 1 + 1) as H5 by (vm_compute; discriminate).
  exact (conj H1 (conj H2 (conj H3 (conj H4 (conj H5
    (next_past_end tatums 1%nat _ 0%nat
       (mkAudioQuantumList [0%nat; 1%nat] (Some "tatum"%string) VNone) 1 1
       H1 H2 H3 H4 H5)))))).
Defined.

Lemma getitem_full_range_witness :
  h_append !! 1%nat = Some partial /\ data partial = Some [7; 0; 0] /\
  (Some 0 = None \/ Some 0 = Some 0) /\
  (Some 3 = None \/ exists j, Some 3 = Some j /\ len [7; 0; 0] <= j) /\
  let new := fresh (dom h_append) in
  let copy := mkAudioData (Some [7; 0; 0]) (len [7; 0; 0]) (sampleRate partial) None in
  getitem Mono.zero 1%nat (SampleRange (Some 0) (Some 3)) h_append =
    (Return (Buffer new), <[new := copy]> h_append) /\
  h_append !! new = None /\
  <[new := copy]> h_append !! 1%nat = Some partial.
Proof.
  assert (h_append !! 1%nat = Some partial) as H1 by reflexivity.
  assert (data partial = Some [7; 0; 0]) as H2 by reflexivity.
  assert (Some 0 = None \/ Some 0 = Some 0) as H3 by (right; reflexivity).
  assert (Some 3 = None \/ exists j, Some 3 = Some j /\ len [7; 0; 0] <= j) as H4.
  { right. exists 3. split; [reflexivity|]. vm_compute. discriminate. }
  exact (conj H1 (conj H2 (conj H3 (conj H4
    (getitem_full_range Mono.zero h_append 1%nat partial [7; 0; 0]
       (Some 0) (Some 3) H1 H2 H3 H4))))).
Defined.

Lemma mix_returns_longer_witness :
  h_mix !! 0%nat = Some long3 /\ h_mix !! 1%nat = Some short2 /\
  data long3 = Some [10; 20; 30] /\ data short2 = Some [4; 6] /\
  addable long3 short2 /\
  exists h' l l',
    mix Mono.mul Mono.add 0%nat 1%nat (1 # 2) h_mix =
      (Return (Some (longer long3 short2 0%nat 1%nat)), h') /\
    dom h' = dom h_mix /\
    (forall r, r <> 0%nat -> r <> 1%nat -> h' !! r = h_mix !! r) /\
    h_mix !! longer long3 short2 0%nat 1%nat = Some l /\
    h' !! longer long3 short2 0%nat 1%nat = Some l' /\
    shape_of l' = shape_of l.
Proof.
  assert (h_mix !! 0%nat = Some long3) as H1 by reflexivity.
  assert (h_mix !! 1%nat = Some short2) as H2 by reflexivity.
  assert (data long3 = Some [10; 20; 30]) as H3 by reflexivity.
  assert (data short2 = Some [4; 6]) as H4 by reflexivity.
  assert (addable long3 short2) as H5
    by (split; [reflexivity|vm_compute; discriminate]).
  exact (conj H1 (conj H2 (conj H3 (conj H4 (conj H5
    (mix_returns_longer Mono.mul Mono.add h_mix 0%nat 1%nat long3 short2
       [10; 20; 30] [4; 6] (1 # 2) H1 H2 H3 H4 H5)))))).
Defined.

(** [long3] and [partial] have the same sample rate and channel
    count, and [long3] has the larger end index.
    [partial] has three allocated rows and end index 1, so
    [A.data[:1] += B.data[0:]] adds three rows to one: [mix] raises
    [ValueError] and returns no buffer, after it has scaled both. *)
Lemma mix_raises_counterexample :
  sampleRate long3 = sampleRate partial /\
  numChannels long3 = numChannels partial /\
  endindex partial < endindex long3 /\
  fst (mix Mono.mul Mono.add 0%nat 1%nat (1 # 2) h_mix_partial) = Raise ValueError /\
  data <$> snd (mix Mono.mul Mono.add 0%nat 1%nat (1 # 2) h_mix_partial) !! 0%nat
    = Some (Some [5; 10; 15]).
Proof. repeat split; vm_compute; reflexivity. Qed.

(** The full [full2] and the one row of [one_row]: nothing is raised,
    the array is as before and the end index is 3, past its two rows. *)
Lemma append_past_capacity_silent_witness :
  h_full !! 0%nat = Some full2 /\ h_full !! 1%nat = Some one_row /\
  data full2 = Some [1; 2] /\ data one_row = Some [9] /\
  len [1; 2] <= endindex full2 /\
  len [1; 2] < endindex full2 + AudioData_len one_row /\
  append 0%nat 1%nat h_full =
    (Return tt,
     <[0%nat := mkAudioData (Some [1; 2]) (endindex full2 + 1)
                  (sampleRate full2) (numChannels full2)]> h_full).
Proof.
  assert (h_full !! 0%nat = Some full2) as H1 by reflexivity.
  assert (h_full !! 1%nat = Some one_row) as H2 by reflexivity.
  assert (data full2 = Some [1; 2]) as H3 by reflexivity.
  assert (data one_row = Some [9]) as H4 by reflexivity.
  assert (len [1; 2] <= endindex full2) as H5 by (vm_compute; discriminate).
  exact (conj H1 (conj H2 (conj H3 (conj H4 (conj H5
    (append_past_capacity_silent h_full 0%nat 1%nat full2 one_row [1; 2] 9
       H1 H2 H3 H4 H5)))))).
Defined.

(** [long3] mixed with [partial], which has three allocated rows and
    end index 1: both arrays are scaled, then the addition of three
    rows to [long3.data[:1]] raises. *)
Lemma mix_unfilled_shorter_raises_witness :
  h_mix_partial !! 0%nat = Some long3 /\ h_mix_partial !! 1%nat = Some partial /\
  data long3 = Some [10; 20; 30] /\ data partial = Some [7; 0; 0] /\
  sampleRate long3 = sampleRate partial /\
  numChannels long3 = numChannels partial /\
  endindex partial < endindex long3 /\
  0 <= endindex partial <= len [10; 20; 30] /\
  endindex partial < len [7; 0; 0] /\ 1 < len [7; 0; 0] /\
  mix Mono.mul Mono.add 0%nat 1%nat (1 # 2) h_mix_partial =
    (Raise ValueError,
     <[1%nat := mkAudioData (Some (map (Mono.mul (1 - (1 # 2))%Q) [7; 0; 0]))
                  (endindex partial) (sampleRate partial) (numChannels partial)]>
       (<[0%nat := mkAudioData (Some (map (Mono.mul (1 # 2)) [10; 20; 30]))
                     (endindex long3) (sampleRate long3) (numChannels long3)]>
          h_mix_partial)).
Proof.
  assert (h_mix_partial !! 0%nat = Some long3) as H1 by reflexivity.
  assert (h_mix_partial !! 1%nat = Some partial) as H2 by reflexivity.
  assert (data long3 = Some [10; 20; 30]) as H3 by reflexivity.
  assert (data partial = Some [7; 0; 0]) as H4 by reflexivity.
  assert (sampleRate long3 = sampleRate partial) as H5 by reflexivity.
  assert (numChannels long3 = numChannels partial) as H6 by reflexivity.
  assert (endindex partial < endindex long3) as H7 by reflexivity.
  assert (0 <= endindex partial <= len [10; 20; 30]) as H8
    by (split; vm_compute; discriminate).
  assert (endindex partial < len [7; 0; 0]) as H9 by reflexivity.
  assert (1 < len [7; 0; 0]) as H10 by reflexivity.
  exact (conj H1 (conj H2 (conj H3 (conj H4 (conj H5 (conj H6 (conj H7 (conj H8
    (conj H9 (conj H10
       (mix_unfilled_shorter_raises Mono.mul Mono.add h_mix_partial 0%nat 1%nat
          long3 partial [10; 20; 30] [7; 0; 0] (1 # 2)
          H1 H2 H3 H4 H5 H6 H7 H8 H9 H10))))))))))).
Defined.

Lemma cached_variable_contract_witness :
  analyses unfetched !! 0%nat = Some analysis /\
  "bars"%string ∈ CACHED_VARIABLES /\
  (let s' := mkState (store unfetched) (analyses unfetched) 1%nat
               (fetches unfetched ++ [("bars"%string, id analysis)]) in
   getattribute nat service 0%nat "bars" unfetched = (Raise (FetchError 404), s') /\
   fetches (snd (getattribute nat service 0%nat "bars" s')) =
     fetches s' ++ [("bars"%string, id analysis)]).
Proof.
  assert (analyses unfetched !! 0%nat = Some analysis) as H1 by reflexivity.
  assert ("bars"%string ∈ CACHED_VARIABLES) as H2
    by (apply (bool_decide_unpack _); vm_compute; exact I).
  assert (attrs analysis !! "bars"%string = Some VNone) as H3
    by (vm_compute; reflexivity).
  assert (service "bars" (id analysis) (world unfetched)
          = (Raise (FetchError 404), 1%nat)) as H4 by reflexivity.
  exact (conj H1 (conj H2
    (proj1 (cached_variable_contract nat service unfetched 0%nat analysis "bars" H1 H2)
       (FetchError 404) 1%nat H3 H4))).
Defined.

(** C8 as stated fails.  The parse function of ['tempo'] returns
    [None].  The first access succeeds, after one request; the
    variable then holds [None], and the second access makes the
    request again. *)
Lemma refetch_after_success_counterexample :
  fst (getattribute nat service 0%nat "tempo" unfetched) = Return VNone /\
  fetches (snd (getattribute nat service 0%nat "tempo" unfetched))
    = [("tempo"%string, "TRXYZ"%string)] /\
  fetches (snd (getattribute nat service 0%nat "tempo"
                  (snd (getattribute nat service 0%nat "tempo" unfetched))))
    = [("tempo"%string, "TRXYZ"%string); ("tempo"%string, "TRXYZ"%string)].
Proof. repeat split; vm_compute; reflexivity. Qed.

End Examples.

(** ** More on sample buffers *)

Section MoreBufferFacts.

Context {Row : Type}.
Variable zero_row : Row.
Variable shape1 : option Z.
Variable row_mul : Q -> Row -> Row.
Variable row_add : Row -> Row -> Row.

Implicit Types h : gmap ref (AudioData Row).
Implicit Types a b : AudioData Row.
Implicit Types d rows : list Row.

(** X1.  The sum of two buffers of one row shape that have arrays is a
    new, full buffer
    whose rows are all the allocated rows of the first followed by all
    those of the second, so that its length is the sum of the two
    lengths; it has neither a sample rate nor a channel count, and the
    operands are unchanged. *)
Theorem add_concatenates h self as2 a b d1 d2 :
  h !! self = Some a -> h !! as2 = Some b ->
  data a = Some d1 -> data b = Some d2 ->
  let new := fresh (dom h) in
  AudioData_add zero_row self as2 h =
    (Return new,
     <[new := mkAudioData (Some (d1 ++ d2)) (AudioData_len a + AudioData_len b)
                None None]> h) /\
  h !! new = None.
Proof.
  intros Ha Hb Hd1 Hd2 new. split; [|apply fresh_unused].
  unfold AudioData_add.
  rewrite (bind_returns _ _ h h a) by (unfold get_obj; by rewrite Ha).
  rewrite Hd1.
  rewrite (bind_returns _ _ h h b) by (unfold get_obj; by rewrite Hb).
  rewrite Hd2, AudioData_init_array. unfold AudioData_len.
  by rewrite Hd1, Hd2, len_app.
Qed.

(** X2.  When one operand of a sum has no array, the sum is a new full
    buffer with a copy of the other operand's array; when neither has
    one, the sum raises [AttributeError] and the store is unchanged. *)
Theorem add_missing_array h self as2 a b :
  h !! self = Some a -> h !! as2 = Some b ->
  (data a = None \/ data b = None) ->
  AudioData_add zero_row self as2 h =
    match data a, data b with
    | None, Some d | Some d, None =>
        (Return (fresh (dom h)),
         <[fresh (dom h) := mkAudioData (Some d) (len d) None None]> h)
    | _, _ => (Raise AttributeError, h)
    end.
Proof.
  intros Ha Hb Hnone. unfold AudioData_add.
  rewrite (bind_returns _ _ h h a) by (unfold get_obj; by rewrite Ha).
  destruct (data a) as [d1|] eqn:Hd1.
  - rewrite (bind_returns _ _ h h b) by (unfold get_obj; by rewrite Hb).
    destruct (data b) as [d2|] eqn:Hd2.
    + by destruct Hnone.
    + by rewrite AudioData_init_array.
  - rewrite (bind_returns _ _ h h b) by (unfold get_obj; by rewrite Hb).
    destruct (data b) as [d2|] eqn:Hd2; [|done].
    by rewrite AudioData_init_array.
Qed.

Lemma getslice_time_run h self a d sr t0 t1 :
  h !! self = Some a -> data a = Some d -> sampleRate a = Some sr ->
  getslice_time zero_row self t0 t1 h =
    (Return (fresh (dom h)),
     <[fresh (dom h) :=
         mkAudioData
           (Some (getrows d (Some (py_int (t0 * inject_Z sr)))
                            (Some (py_int (t1 * inject_Z sr)))))
           (len (getrows d (Some (py_int (t0 * inject_Z sr)))
                           (Some (py_int (t1 * inject_Z sr)))))
           (Some sr) None]> h).
Proof.
  intros Ha Hd Hsr.
  unfold getslice_time, bind, get_obj, lift, times_rate, data_slice.
  rewrite Ha, Hsr, Hd. by rewrite AudioData_init_array.
Qed.

Lemma getslice_samples_run h self a d start stop :
  h !! self = Some a -> data a = Some d ->
  getslice_samples zero_row self start stop h =
    (Return (fresh (dom h)),
     <[fresh (dom h) :=
         mkAudioData (Some (getrows d start stop)) (len (getrows d start stop))
           (sampleRate a) None]> h).
Proof.
  intros Ha Hd. unfold getslice_samples, bind, get_obj, lift, data_slice.
  rewrite Ha, Hd. by rewrite AudioData_init_array.
Qed.

(** X3.  On a buffer with an array and a sample rate, every slice form
    of [__getitem__] returns a new buffer that holds a contiguous run of
    the source's rows and is full (its end index is its number of rows);
    the sample rate is inherited, the channel count is not, and the
    source stays as it was. *)
Theorem getitem_slice_is_full h self a d sr ix :
  h !! self = Some a -> data a = Some d -> sampleRate a = Some sr ->
  is_slice ix = true ->
  exists lo n rows,
    rows = take n (drop lo d) /\
    getitem zero_row self ix h =
      (Return (Buffer (fresh (dom h))),
       <[fresh (dom h) := mkAudioData (Some rows) (len rows) (Some sr) None]> h) /\
    h !! fresh (dom h) = None /\
    <[fresh (dom h) := mkAudioData (Some rows) (len rows) (Some sr) None]> h !! self
      = Some a.
Proof.
  intros Ha Hd Hsr Hix.
  assert (forall rows, <[fresh (dom h) := mkAudioData (Some rows) (len rows) (Some sr) None]> h
                         !! self = Some a) as Hkeep.
  { intros rows. rewrite lookup_insert_ne; [done|].
    intros Heq. pose proof (fresh_unused h) as Hf. rewrite Heq in Hf. congruence. }
  destruct ix as [i|t|q|i j|t0 t1|q1 q2]; try discriminate; unfold getitem.
  - eexists _, _, _. split; [reflexivity|]. split; [|split; [apply fresh_unused|apply Hkeep]].
    erewrite bind_returns; [|by eapply getslice_time_run]. reflexivity.
  - eexists _, _, _. split; [reflexivity|]. split; [|split; [apply fresh_unused|apply Hkeep]].
    erewrite bind_returns; [|by eapply getslice_samples_run]. rewrite Hsr. reflexivity.
  - eexists _, _, _. split; [reflexivity|]. split; [|split; [apply fresh_unused|apply Hkeep]].
    erewrite bind_returns; [|by eapply getslice_time_run]. reflexivity.
  - eexists _, _, _. split; [reflexivity|]. split; [|split; [apply fresh_unused|apply Hkeep]].
    erewrite bind_returns; [|by eapply getslice_time_run]. reflexivity.
Qed.

(** X4.  On a buffer that has no array, [__getitem__] raises
    [TypeError] for every form of index, and the store is unchanged. *)
Theorem getitem_no_array_raises h self a ix :
  h !! self = Some a -> data a = None ->
  getitem zero_row self ix h = (Raise TypeError, h).
Proof.
  intros Ha Hd.
  destruct ix as [i|t|q|i j|t0 t1|q1 q2];
    unfold getitem, getslice_time, getslice_samples, getsample, bind, get_obj,
      lift, times_rate, data_slice, raise;
    rewrite ?Ha; destruct (sampleRate a); rewrite ?Ha, ?Hd; done.
Qed.

(** X5.  Whatever its outcome, [append] allocates nothing, changes no
    object other than [self], and leaves the number of rows, the sample
    rate and the channel count of [self] as they were: the array never
    grows; the end index never moves back. *)
Theorem append_keeps_capacity h self as2 o h' :
  append self as2 h = (o, h') ->
  dom h' = dom h /\
  (forall r, r <> self -> h' !! r = h !! r) /\
  (forall a, h !! self = Some a ->
     exists a', h' !! self = Some a' /\
                AudioData_len a' = AudioData_len a /\
                sampleRate a' = sampleRate a /\ numChannels a' = numChannels a /\
                endindex a <= endindex a').
Proof.
  intros Hrun. destruct o as [[]|e].
  - assert (exists a b d rows, h !! self = Some a /\ h !! as2 = Some b /\
                               data a = Some d /\ data b = Some rows)
      as (a & b & d & rows & Ha & Hb & Hd & Hrows).
    { revert Hrun. unfold append, bind, get_obj, lift, data_slice, raise.
      destruct (h !! as2) as [b|]; [|discriminate].
      destruct (data b) as [rows|] eqn:Hrows; [|discriminate].
      destruct (h !! self) as [a|]; [|discriminate].
      destruct (data a) as [d|] eqn:Hd; [|discriminate]. intros _.
      by exists a, b, d, rows. }
    rewrite (append_run h self as2 a b d rows Ha Hb Hd Hrows) in Hrun.
    destruct (setrows d _ _ rows) as [d'|e] eqn:Hset; [|discriminate].
    injection Hrun as <-. apply setrows_length in Hset.
    split; [|split].
    + apply dom_insert_lookup_L. by eexists.
    + intros r Hr. by rewrite lookup_insert_ne.
    + intros a0 Ha0. assert (a0 = a) as -> by congruence.
      eexists. rewrite lookup_insert_eq. split; [reflexivity|].
      unfold AudioData_len. cbn. rewrite Hd. unfold len. rewrite Hset.
      pose proof (len_nonneg rows). unfold len in *. repeat split; lia.
  - apply append_atomic in Hrun as ->. split; [done|]. split; [done|].
    intros a Ha. exists a. repeat split; [done|lia].
Qed.

Lemma getrows_splice d e rows :
  0 <= e -> e + len rows <= len d ->
  getrows (splice d (Z.to_nat e) rows) (Some e) (Some (e + len rows)) = rows.
Proof.
  intros He Hfit. pose proof (len_nonneg rows) as Hn.
  assert (length (splice d (Z.to_nat e) rows) = length d) as Hlen
    by (apply splice_length; unfold len in *; lia).
  unfold getrows. replace (len (splice d (Z.to_nat e) rows)) with (len d)
    by (unfold len; by rewrite Hlen).
  rewrite slice_len_inside, slice_lo_inside by lia.
  unfold splice.
  assert (length (take (Z.to_nat e) d) = Z.to_nat e) as Hte
    by (rewrite length_take; unfold len in *; lia).
  rewrite drop_app_ge by lia. rewrite Hte, Nat.sub_diag, drop_0.
  replace (Z.to_nat (e + len rows - e)) with (length rows) by (unfold len; lia).
  by rewrite take_app_length.
Qed.

(** X6.  What [append] writes can be read back: after an [append] that
    fits, the slice of [self] from the old end index to the new one is
    a buffer with exactly the rows of the appended array. *)
Theorem append_then_slice h self as2 a b d rows :
  h !! self = Some a -> h !! as2 = Some b ->
  data a = Some d -> data b = Some rows ->
  0 <= endindex a -> endindex a + len rows <= len d ->
  let h1 := snd (append self as2 h) in
  fst (append self as2 h) = Return tt /\
  getitem zero_row self
      (SampleRange (Some (endindex a)) (Some (endindex a + len rows))) h1 =
    (Return (Buffer (fresh (dom h1))),
     <[fresh (dom h1) := mkAudioData (Some rows) (len rows) (sampleRate a) None]> h1).
Proof.
  intros Ha Hb Hd Hrows He Hfit.
  rewrite (append_run h self as2 a b d rows Ha Hb Hd Hrows).
  rewrite setrows_fits by done. cbn [fst snd]. split; [done|].
  unfold getitem. erewrite bind_returns.
  2:{ eapply getslice_samples_run; [by rewrite lookup_insert_eq|reflexivity]. }
  cbn [sampleRate]. by rewrite getrows_splice.
Qed.

(** X8.  [getpieces] on a source that cannot be cut: with quanta to cut
    and no sample rate it raises [TypeError]; with no array (and a
    sample rate, or nothing to cut) it raises [AttributeError].  In both
    cases nothing was allocated. *)
Theorem getpieces_errors h src a segs :
  h !! src = Some a ->
  (sampleRate a = None -> segs <> [] ->
   getpieces zero_row shape1 src segs h = (Raise TypeError, h)) /\
  (data a = None -> is_Some (sampleRate a) \/ segs = [] ->
   getpieces zero_row shape1 src segs h = (Raise AttributeError, h)).
Proof.
  intros Ha.
  assert (get_obj src h = (Return a, h)) as Hget by (unfold get_obj; by rewrite Ha).
  split.
  - intros Hsr Hsegs. destruct segs as [|s segs]; [done|].
    unfold getpieces. apply bind_raises. cbn [sum_durations].
    rewrite (bind_returns _ _ h h a Hget). apply bind_raises.
    unfold lift, times_rate. by rewrite Hsr.
  - intros Hd Hcase. unfold getpieces.
    assert (exists dur, sum_durations src segs 0 h = (Return dur, h)) as [dur Hdur].
    { destruct Hcase as [[sr Hsr]| ->]; [|by eexists].
      eexists. by apply sum_durations_run with a. }
    rewrite (bind_returns _ _ h h dur Hdur), (bind_returns _ _ h h a Hget).
    by rewrite Hd.
Qed.

(** X9.  With no quanta, [getpieces] needs no sample rate: for every
    source with an array it returns a new, empty buffer of exactly
    100000 zero rows, with the sample rate of the source and the channel
    count read off the shape of its array. *)
Theorem getpieces_empty h src a d :
  h !! src = Some a -> data a = Some d ->
  getpieces zero_row shape1 src [] h =
    (Return (fresh (dom h)),
     <[fresh (dom h) :=
         mkAudioData (Some (replicate (Z.to_nat 100000) zero_row)) 0 (sampleRate a)
           (Some (match shape1 with Some c => c | None => 1 end))]> h).
Proof.
  intros Ha Hd. unfold getpieces.
  rewrite (bind_returns _ _ h h 0) by done.
  rewrite (bind_returns _ _ h h a) by (unfold get_obj; by rewrite Ha).
  rewrite Hd. erewrite bind_returns; [|by apply AudioData_init_shape].
  done.
Qed.

(** X10.  What [mix] leaves in the buffers when [A] is the longer of two
    distinct buffers and [B] is full: [B] holds its rows scaled by
    [1 - mix]; the first [B.endindex] rows of [A] are its rows scaled by
    [mix] plus the scaled rows of [B], the rest of [A] is only scaled;
    [A] is returned. *)
Theorem mix_adds_into_longer h A B a b dA dB ratio :
  A <> B ->
  h !! A = Some a -> h !! B = Some b ->
  data a = Some dA -> data b = Some dB ->
  endindex b < endindex a ->
  len dB = endindex b -> endindex b <= len dA ->
  mix row_mul row_add A B ratio h =
    (Return (Some A),
     <[A := mkAudioData
              (Some (zip_with row_add
                       (map (row_mul ratio) (take (length dB) dA))
                       (map (row_mul (1 - ratio)%Q) dB) ++
                     map (row_mul ratio) (drop (length dB) dA)))
              (endindex a) (sampleRate a) (numChannels a)]>
       (<[B := mkAudioData (Some (map (row_mul (1 - ratio)%Q) dB))
                 (endindex b) (sampleRate b) (numChannels b)]> h)).
Proof.
  intros Hne Ha Hb HdA HdB Hlt Hfull Hfit.
  pose proof (len_nonneg dB) as HnB.
  set (a1 := mkAudioData (Some (map (row_mul ratio) dA)) (endindex a)
               (sampleRate a) (numChannels a)).
  set (b2 := mkAudioData (Some (map (row_mul (1 - ratio)%Q) dB)) (endindex b)
               (sampleRate b) (numChannels b)).
  set (h2 := <[B := b2]> (<[A := a1]> h)).
  assert (h2 !! A = Some a1) as Ha2
    by (unfold h2; by rewrite lookup_insert_ne, lookup_insert_eq).
  assert (h2 !! B = Some b2) as Hb2 by (unfold h2; by rewrite lookup_insert_eq).
  unfold mix, mix_with.
  rewrite (bind_returns _ _ h (<[A := a1]> h) tt) by (by apply imul_data_run).
  rewrite (bind_returns _ _ _ h2 tt)
    by (apply (imul_data_run row_mul _ B b dB); [by rewrite lookup_insert_ne|done]).
  rewrite (bind_returns _ _ h2 h2 a1) by (unfold get_obj; by rewrite Ha2).
  rewrite (bind_returns _ _ h2 h2 b2) by (unfold get_obj; by rewrite Hb2).
  cbn [endindex a1 b2].
  destruct (Z.ltb_spec (endindex b) (endindex a)) as [_|]; [|lia].
  erewrite bind_returns.
  2:{ unfold iadd_data, bind, get_obj, lift, data_slice, set_obj, modify.
      rewrite Ha2, Hb2. cbn [data a1 b2]. rewrite getrows_from_0.
      unfold iaddrows.
      rewrite slice_len_upto
        by (unfold len in *; rewrite length_map; lia).
      replace (Z.to_nat (endindex b)) with (length (map (row_mul (1 - ratio)%Q) dB))
        by (rewrite length_map; unfold len in *; lia).
      rewrite broadcast_rows_same. reflexivity. }
  unfold ret, h2. f_equal.
  rewrite (insert_insert_ne _ B A) by done. rewrite insert_insert_eq.
  f_equal. cbn [endindex sampleRate numChannels a1]. do 2 f_equal.
  unfold slice_lo, adjust_bound, splice.
  change (Z.to_nat 0) with 0%nat. rewrite take_0, drop_0. cbn [app].
  rewrite length_map, <- !fmap_take, <- !fmap_drop.
  f_equal. rewrite length_zip_with, !length_fmap, length_take.
  do 2 f_equal. unfold len in *. lia.
Qed.

(** X11.  [mix] is not atomic.  When [B] has no array, [mix] raises
    [TypeError] after [A.data] has been scaled in place; when [A] has
    none, it raises before anything is changed. *)
Theorem mix_not_atomic h A B a b ratio :
  A <> B ->
  h !! A = Some a -> h !! B = Some b ->
  (data a = None -> mix row_mul row_add A B ratio h = (Raise TypeError, h)) /\
  (forall dA, data a = Some dA -> data b = None ->
     mix row_mul row_add A B ratio h =
       (Raise TypeError,
        <[A := mkAudioData (Some (map (row_mul ratio) dA)) (endindex a)
                 (sampleRate a) (numChannels a)]> h)).
Proof.
  intros Hne Ha Hb. unfold mix, mix_with. split.
  - intros HdA. apply bind_raises. unfold imul_data, bind, get_obj, raise.
    by rewrite Ha, HdA.
  - intros dA HdA HdB.
    rewrite (bind_returns _ _ h _ tt (imul_data_run row_mul h A a dA ratio Ha HdA)).
    apply bind_raises. unfold imul_data, bind, get_obj, raise.
    by rewrite lookup_insert_ne, Hb, HdB.
Qed.

End MoreBufferFacts.

(** ** More on navigation *)

Section MoreNavigation.

Implicit Types s : Store.
Implicit Types q g r : ref.
Implicit Types rs : list ref.

Lemma index_of_NoDup rs i r :
  NoDup rs -> rs !! i = Some r -> index_of rs r = Return (Z.of_nat i).
Proof.
  intros Hnd. revert i. induction Hnd as [|x rs Hx Hnd IH]; intros i Hi; [done|].
  destruct i as [|i]; cbn in Hi |- *.
  - injection Hi as ->. by rewrite decide_True.
  - rewrite decide_False.
    + rewrite (IH i Hi). f_equal. lia.
    + intros ->. apply Hx. by eapply list_elem_of_lookup_2.
Qed.

Lemma attached_member s g rs i r :
  attached s g rs -> rs !! i = Some r ->
  exists k c (Q : AudioQuantum),
    qlists s !! g = Some (mkAudioQuantumList rs k c) /\
    quanta s !! r = Some Q /\ container Q = Some (VQuantumList g) /\
    index_of rs r = Return (Z.of_nat i).
Proof.
  intros ((k & c & Hg) & Hnd & Hmem) Hi.
  destruct (Hmem r) as (Q & Hq & Hc); [by eapply list_elem_of_lookup_2|].
  exists k, c, Q. repeat split; try done. by apply index_of_NoDup.
Qed.

(** The run of [prev] and [next] on a member of a collection. *)
Lemma prev_run s q Q g G loc step :
  quanta s !! q = Some Q -> container Q = Some (VQuantumList g) ->
  qlists s !! g = Some G -> index_of (items G) q = Return loc ->
  prev q step s =
    (match py_index (items G) (Z.max (loc - step) 0) with
     | Return r => Return r
     | Raise _ => Return q
     end, s).
Proof.
  intros Hq Hc Hg Hloc.
  unfold prev, quantum_container, try_except, group_index, group_getitem,
    list_getitem, bind, get_quantum, get_list, lift, raise, ret.
  rewrite Hq, Hc, Hg, Hloc, Hg. by destruct (py_index _ _).
Qed.

Lemma next_run s q Q g G loc step :
  quanta s !! q = Some Q -> container Q = Some (VQuantumList g) ->
  qlists s !! g = Some G -> index_of (items G) q = Return loc ->
  next q step s =
    (match py_index (items G) (Z.min (loc + step) (len (items G))) with
     | Return r => Return r
     | Raise _ => Return q
     end, s).
Proof.
  intros Hq Hc Hg Hloc.
  unfold next, quantum_container, try_except, group_index, group_len,
    group_getitem, list_getitem, list_len, bind, get_quantum, get_list,
    lift, raise, ret.
  rewrite Hq, Hc, Hg, Hloc, Hg. cbn. rewrite Hg. by destruct (py_index _ _).
Qed.

(** X12.  In a collection of pairwise distinct members that are
    attached to it, [next] and [prev] are inverse walks: [k] steps
    forward from member [i] give member [i + k], and [k] steps back from
    there give member [i] again; the store is not touched. *)
Theorem next_prev_inverse s g rs i k r r' :
  attached s g rs ->
  rs !! i = Some r -> rs !! (i + k)%nat = Some r' ->
  next r (Z.of_nat k) s = (Return r', s) /\
  prev r' (Z.of_nat k) s = (Return r, s).
Proof.
  intros Hatt Hr Hr'.
  destruct (attached_member s g rs i r Hatt Hr) as (kd & c & Q & Hg & Hq & Hc & Hi).
  destruct (attached_member s g rs (i + k) r' Hatt Hr') as (_ & _ & Q' & _ & Hq' & Hc' & Hi').
  pose proof (lookup_lt_Some _ _ _ Hr') as Hlt.
  split.
  - rewrite (next_run s r Q g _ _ _ Hq Hc Hg Hi). cbn [items].
    rewrite Z.min_l by (unfold len; lia).
    rewrite (py_index_nonneg rs _ r'); [done|lia|].
    by replace (Z.to_nat (Z.of_nat i + Z.of_nat k)) with (i + k)%nat by lia.
  - rewrite (prev_run s r' Q' g _ _ _ Hq' Hc' Hg Hi'). cbn [items].
    rewrite Z.max_l by lia.
    rewrite (py_index_nonneg rs _ r); [done|lia|].
    by replace (Z.to_nat (Z.of_nat (i + k) - Z.of_nat k)) with i by lia.
Qed.

(** X13.  Once the [container] attribute of a quantum is bound, to
    whatever value, [prev] and [next] never raise and never change the
    store, for any step. *)
Theorem prev_next_fail_soft s q Q c step :
  quanta s !! q = Some Q -> container Q = Some c ->
  (exists r, prev q step s = (Return r, s)) /\
  (exists r, next q step s = (Return r, s)).
Proof.
  intros Hq Hc.
  unfold prev, next, quantum_container, try_except, group_index, group_len,
    group_getitem, list_getitem, list_len, bind, get_quantum, get_list,
    lift, raise, ret.
  rewrite Hq, Hc.
  destruct c as [| | | |x|g|x]; try (split; by eexists).
  destruct (qlists s !! g) as [G|] eqn:Hg; [|split; by eexists].
  destruct (index_of (items G) q) as [loc|e]; [|split; by eexists].
  cbn. rewrite Hg. split.
  - destruct (py_index (items G) (Z.max (loc - step) 0)); by eexists.
  - rewrite Hg.
    destruct (py_index (items G) (Z.min (loc + step) (len (items G)))); by eexists.
Qed.

(** X14.  [prev] stops at the first member: from member [i] of an
    attached collection, any step of at least [i] gives the first
    member. *)
Theorem prev_clamps_to_first s g rs i r r0 step :
  attached s g rs ->
  rs !! i = Some r -> rs !! 0%nat = Some r0 ->
  Z.of_nat i <= step ->
  prev r step s = (Return r0, s).
Proof.
  intros Hatt Hr Hr0 Hstep.
  destruct (attached_member s g rs i r Hatt Hr) as (kd & c & Q & Hg & Hq & Hc & Hi).
  rewrite (prev_run s r Q g _ _ _ Hq Hc Hg Hi). cbn [items].
  rewrite Z.max_r by lia. by rewrite (py_index_nonneg rs 0 r0).
Qed.

(** X15.  [next] has no such stop at the front: a negative step that
    leads before the first member is taken as an index from the end.
    From member [i], a step [-(i + j)] with [1 <= j <= len] gives the
    [j]-th member from the end. *)
Theorem next_negative_wraps s g rs i j r r' :
  attached s g rs ->
  rs !! i = Some r ->
  (1 <= j <= length rs)%nat ->
  rs !! (length rs - j)%nat = Some r' ->
  next r (- Z.of_nat (i + j)) s = (Return r', s).
Proof.
  intros Hatt Hr Hj Hr'.
  destruct (attached_member s g rs i r Hatt Hr) as (kd & c & Q & Hg & Hq & Hc & Hi).
  rewrite (next_run s r Q g _ _ _ Hq Hc Hg Hi). cbn [items].
  rewrite Z.min_l by (unfold len; lia).
  rewrite (py_index_neg rs _ r'); [done|lia|unfold len; lia|].
  by replace (Z.to_nat (Z.of_nat i + - Z.of_nat (i + j) + len rs))
    with (length rs - j)%nat by (unfold len; lia).
Qed.

(** [absolute_context] of member [i] of an attached collection of [n]
    distinct members is [(i, n)]. *)
Lemma absolute_context_position s g rs i r :
  attached s g rs -> rs !! i = Some r ->
  absolute_context r s = (Return (Z.of_nat i, len rs), s).
Proof.
  intros Hatt Hr.
  destruct (attached_member s g rs i r Hatt Hr) as (kd & c & Q & Hg & Hq & Hc & Hi).
  unfold absolute_context.
  rewrite (bind_returns _ _ s s (VQuantumList g))
    by (unfold quantum_container, bind, get_quantum; by rewrite Hq, Hc).
  rewrite (bind_returns _ _ s s (len rs))
    by (unfold group_len, list_len, bind, get_list; by rewrite Hg).
  rewrite (bind_returns _ _ s s (Z.of_nat i)); [done|].
  unfold group_index, bind, get_list, lift. rewrite Hg. cbn [items]. by rewrite Hi.
Qed.

(** X16.  [absolute_context] returns the position of the quantum in its
    container and the length of the container, and leaves the store as
    it is.  It does not fail soft: on a quantum that was never attached
    it raises [AttributeError], and on a quantum whose container is a
    collection that does not hold it, it raises [ValueError]. *)
Theorem absolute_context_cases s q Q :
  quanta s !! q = Some Q ->
  (forall g G loc, container Q = Some (VQuantumList g) -> qlists s !! g = Some G ->
                   index_of (items G) q = Return loc ->
                   absolute_context q s = (Return (loc, len (items G)), s)) /\
  (container Q = None -> absolute_context q s = (Raise AttributeError, s)) /\
  (forall g G, container Q = Some (VQuantumList g) -> qlists s !! g = Some G ->
               q ∉ items G ->
               absolute_context q s = (Raise ValueError, s)).
Proof.
  intros Hq. split; [|split].
  - intros g G loc Hc Hg Hloc. unfold absolute_context.
    rewrite (bind_returns _ _ s s (VQuantumList g))
      by (unfold quantum_container, bind, get_quantum; by rewrite Hq, Hc).
    rewrite (bind_returns _ _ s s (len (items G)))
      by (unfold group_len, list_len, bind, get_list; by rewrite Hg).
    rewrite (bind_returns _ _ s s loc); [done|].
    unfold group_index, bind, get_list, lift. by rewrite Hg, Hloc.
  - intros Hc. unfold absolute_context, quantum_container, bind, get_quantum, raise.
    by rewrite Hq, Hc.
  - intros g G Hc Hg Hnotin.
    assert (index_of (items G) q = Raise ValueError) as Hidx.
    { induction (items G) as [|x l IH]; [done|]. cbn.
      rewrite decide_False by (intros ->; apply Hnotin; left).
      rewrite IH; [done|]. intros Hin. apply Hnotin. by right. }
    unfold absolute_context.
    rewrite (bind_returns _ _ s s (VQuantumList g))
      by (unfold quantum_container, bind, get_quantum; by rewrite Hq, Hc).
    rewrite (bind_returns _ _ s s (len (items G)))
      by (unfold group_len, list_len, bind, get_list; by rewrite Hg).
    apply bind_raises. unfold group_index, bind, get_list, lift. by rewrite Hg, Hidx.
Qed.

End MoreNavigation.

(** ** Attaching and selecting *)

Section AttachSelect.

Implicit Types s : Store.
Implicit Types rs : list ref.
Implicit Types qs : list AudioQuantum.

Lemma set_container_run s r Q c :
  quanta s !! r = Some Q ->
  set_container r c s =
    (Return tt, mkStore (<[r := with_container Q c]> (quanta s)) (qlists s)).
Proof.
  intros Hr. unfold set_container, bind, get_quantum. by rewrite Hr.
Qed.

(** The loop of [attach]: every member gets the container, the other
    quanta and all collections stay. *)
Lemma bind_members c rs :
  forall s,
    Forall (fun r => is_Some (quanta s !! r)) rs ->
    exists s',
      for_each rs (fun i => set_container i c) s = (Return tt, s') /\
      qlists s' = qlists s /\
      forall r, quanta s' !! r =
                if decide (r ∈ rs)
                then (fun Q => with_container Q c) <$> quanta s !! r
                else quanta s !! r.
Proof.
  induction rs as [|x rs IH]; intros s Hall.
  - exists s. split; [done|]. split; [done|]. intros r.
    rewrite decide_False; [done|]. apply not_elem_of_nil.
  - apply Forall_cons in Hall as [[Q HQ] Hall].
    set (s1 := mkStore (<[x := with_container Q c]> (quanta s)) (qlists s)).
    destruct (IH s1) as (s' & Hrun & Hlists & Hquanta).
    { eapply Forall_impl; [exact Hall|]. intros r [R HR]. cbn.
      destruct (decide (x = r)) as [->|Hne];
        [rewrite lookup_insert_eq|rewrite lookup_insert_ne by done]; by eexists. }
    exists s'. split; [|split; [done|]].
    + by rewrite for_each_cons, (set_container_run s x Q c HQ).
    + intros r. rewrite Hquanta. cbn.
      destruct (decide (r = x)) as [->|Hne].
      * rewrite lookup_insert_eq, HQ, (decide_True (P := x ∈ x :: rs)) by left.
        by destruct (decide (x ∈ rs)).
      * rewrite lookup_insert_ne by done.
        destruct (decide (r ∈ rs)) as [Hin|Hnotin].
        -- by rewrite decide_True by (by right).
        -- rewrite decide_False; [done|].
           intros Hin. apply elem_of_cons in Hin as [?|?]; done.
Qed.

(** X17.  [attach] binds the container of the collection and makes the
    collection the container of each of its members, and of no other
    quantum; start, duration, kind and confidence are kept.  When the
    members are pairwise distinct the collection is then attached, so
    that [prev], [next] and [absolute_context] work on its members. *)
Theorem attach_binds_members s l L c :
  qlists s !! l = Some L ->
  Forall (fun r => is_Some (quanta s !! r)) (items L) ->
  exists s',
    attach l c s = (Return tt, s') /\
    qlists s' = <[l := mkAudioQuantumList (items L) (list_kind L) c]> (qlists s) /\
    (forall r, quanta s' !! r =
               if decide (r ∈ items L)
               then (fun Q => with_container Q (VQuantumList l)) <$> quanta s !! r
               else quanta s !! r) /\
    (NoDup (items L) -> attached s' l (items L)).
Proof.
  intros Hl Hall.
  set (s1 := mkStore (quanta s)
               (<[l := mkAudioQuantumList (items L) (list_kind L) c]> (qlists s))).
  destruct (bind_members (VQuantumList l) (items L) s1 Hall)
    as (s' & Hrun & Hlists & Hquanta).
  exists s'. split; [|split; [done|split; [done|]]].
  - unfold attach.
    rewrite (bind_returns _ _ s s L) by (unfold get_list; by rewrite Hl).
    by rewrite (bind_returns _ _ s s1 tt).
  - intros Hnd. split; [|split; [done|]].
    + exists (list_kind L), c. rewrite Hlists. cbn. by rewrite lookup_insert_eq.
    + intros r Hr. rewrite Hquanta, decide_True by done. cbn.
      rewrite Forall_forall in Hall. destruct (Hall r Hr) as [Q HQ].
      exists (with_container Q (VQuantumList l)). by rewrite HQ.
Qed.

Lemma select_run filt rs qs s :
  Forall2 (fun r q => quanta s !! r = Some q) rs qs ->
  select filt rs s = (Return (accepted filt rs qs), s).
Proof.
  intros Hall. induction Hall as [|r q rs qs Hr Hall IH]; [done|].
  cbn [select].
  rewrite (bind_returns _ _ s s q) by (unfold get_quantum; by rewrite Hr).
  rewrite (bind_returns _ _ s s _ IH). unfold ret, accepted. cbn [zip zip_with].
  destruct (filt q) eqn:Hf.
  - rewrite filter_cons_True by (cbn; by rewrite Hf). done.
  - rewrite filter_cons_False by (cbn; rewrite Hf; intros []). done.
Qed.

Lemma that_run s g G qs filt :
  qlists s !! g = Some G ->
  Forall2 (fun r q => quanta s !! r = Some q) (items G) qs ->
  that g filt s =
    (Return (fresh (dom (qlists s))),
     mkStore (quanta s)
       (<[fresh (dom (qlists s)) :=
            mkAudioQuantumList (accepted filt (items G) qs) None VNone]>
          (qlists s))).
Proof.
  intros Hg Hall. unfold that.
  rewrite (bind_returns _ _ s s G) by (unfold get_list; by rewrite Hg).
  by rewrite (bind_returns _ _ s s _ (select_run filt _ qs s Hall)).
Qed.

(** X18.  [that] returns a new collection with the members that the
    filter accepts, in their order; it has no kind and no container,
    the members are not re-attached, and nothing that existed is
    changed. *)
Theorem that_filters s g G qs filt :
  qlists s !! g = Some G ->
  Forall2 (fun r q => quanta s !! r = Some q) (items G) qs ->
  let new := fresh (dom (qlists s)) in
  that g filt s =
    (Return new,
     mkStore (quanta s)
       (<[new := mkAudioQuantumList (accepted filt (items G) qs) None VNone]>
          (qlists s))) /\
  qlists s !! new = None /\
  accepted filt (items G) qs `sublist_of` items G.
Proof.
  intros Hg Hall new. split; [|split].
  - unfold that.
    rewrite (bind_returns _ _ s s G) by (unfold get_list; by rewrite Hg).
    by rewrite (bind_returns _ _ s s _ (select_run filt _ qs s Hall)).
  - apply not_elem_of_dom, is_fresh.
  - unfold accepted.
    rewrite <- (fst_zip (items G) qs) at 2
      by (apply Forall2_length in Hall; lia).
    apply fmap_sublist, sublist_filter.
Qed.

End AttachSelect.

(** ** Parents and children *)

Section MoreHierarchy.

Variable World : Type.
Variable analyze : string -> string -> M World pyval.

Implicit Types s : State World.

(** The lookup that [parent] and [children] make inside their [try]
    block, for a quantum in a collection that belongs to an analysis
    whose variable [name] holds the collection [u]. *)
Lemma hierarchy_lookup (table : option string -> outcome string)
    s q Q g G f a name u :
  quanta (store s) !! q = Some Q ->
  container Q = Some (VQuantumList g) ->
  qlists (store s) !! g = Some G ->
  list_container G = VAnalysis f ->
  analyses s !! f = Some a ->
  table (kind Q) = Return name ->
  attrs a !! name = Some (VQuantumList u) ->
  (let! c := on_store (quantum_container q) in
   let! cc := getattr_container World c in
   let! x := on_store (get_quantum q) in
   let! name := lift (table (kind x)) in
   getattr_collection World analyze cc name) s = (Return (VQuantumList u), s).
Proof.
  intros Hq Hc Hg Hf Ha Hname Hu.
  rewrite (bind_returns _ _ s s (VQuantumList g)).
  2:{ apply on_store_reads. unfold quantum_container, bind, get_quantum.
      by rewrite Hq, Hc. }
  rewrite (bind_returns _ _ s s (VAnalysis f)).
  2:{ apply on_store_reads. unfold bind, get_list. by rewrite Hg, Hf. }
  rewrite (bind_returns _ _ s s Q)
    by (apply on_store_reads; unfold get_quantum; by rewrite Hq).
  rewrite (bind_returns _ _ s s name) by (unfold lift; by rewrite Hname).
  by apply getattribute_cached with a.
Qed.

(** X19.  For a quantum in a collection of an analysis whose upper
    collection is fetched, [parent] returns the first member of the
    upper collection that overlaps the quantum; when no member overlaps
    it raises [IndexError], which no handler catches.  Either way the
    selection has been allocated as a new collection. *)
Theorem parent_first_overlap s q Q g G f a name u U qs :
  quanta (store s) !! q = Some Q ->
  container Q = Some (VQuantumList g) ->
  qlists (store s) !! g = Some G ->
  list_container G = VAnalysis f ->
  analyses s !! f = Some a ->
  pars (kind Q) = Return name ->
  attrs a !! name = Some (VQuantumList u) ->
  qlists (store s) !! u = Some U ->
  Forall2 (fun r x => quanta (store s) !! r = Some x) (items U) qs ->
  parent World analyze q s =
    (match accepted (overlap Q) (items U) qs with
     | r :: _ => Return r
     | [] => Raise IndexError
     end,
     mkState
       (mkStore (quanta (store s))
          (<[fresh (dom (qlists (store s))) :=
               mkAudioQuantumList (accepted (overlap Q) (items U) qs) None VNone]>
             (qlists (store s))))
       (analyses s) (world s) (fetches s)).
Proof.
  intros Hq Hc Hg Hf Ha Hname Hu HU Hall.
  unfold parent, try_or_return.
  rewrite (hierarchy_lookup pars s q Q g G f a name u Hq Hc Hg Hf Ha Hname Hu).
  unfold on_store.
  rewrite (bind_returns _ _ (store s) (store s) Q)
    by (unfold get_quantum; by rewrite Hq).
  pose proof (that_run (store s) u U qs (overlap Q) HU Hall) as Hthat.
  rewrite (bind_returns _ _ _ _ _ Hthat).
  unfold list_getitem, bind, get_list, lift. cbn [qlists].
  rewrite lookup_insert_eq. cbn [items].
  by destruct (accepted (overlap Q) (items U) qs).
Qed.

(** X20.  Under the same conditions [children] returns a new collection
    with the members of the lower collection that lie within the
    quantum, in order; when none does the collection is empty and
    nothing is raised. *)
Theorem children_contained s q Q g G f a name u U qs :
  quanta (store s) !! q = Some Q ->
  container Q = Some (VQuantumList g) ->
  qlists (store s) !! g = Some G ->
  list_container G = VAnalysis f ->
  analyses s !! f = Some a ->
  chils (kind Q) = Return name ->
  attrs a !! name = Some (VQuantumList u) ->
  qlists (store s) !! u = Some U ->
  Forall2 (fun r x => quanta (store s) !! r = Some x) (items U) qs ->
  children World analyze q s =
    (Return (VQuantumList (fresh (dom (qlists (store s))))),
     mkState
       (mkStore (quanta (store s))
          (<[fresh (dom (qlists (store s))) :=
               mkAudioQuantumList (accepted (are_contained_by Q) (items U) qs)
                 None VNone]>
             (qlists (store s))))
       (analyses s) (world s) (fetches s)).
Proof.
  intros Hq Hc Hg Hf Ha Hname Hu HU Hall.
  unfold children, try_or_return.
  rewrite (hierarchy_lookup chils s q Q g G f a name u Hq Hc Hg Hf Ha Hname Hu).
  unfold on_store.
  rewrite (bind_returns _ _ (store s) (store s) Q)
    by (unfold get_quantum; by rewrite Hq).
  pose proof (that_run (store s) u U qs (are_contained_by Q) HU Hall) as Hthat.
  by rewrite (bind_returns _ _ _ _ _ Hthat).
Qed.

(** X21.  For a quantum of a kind that has no lower kind (a tatum, a
    segment, a quantum without kind), [children] returns the quantum
    itself, not a collection, and changes nothing. *)
Theorem children_of_lowest_is_self s q Q :
  quanta (store s) !! q = Some Q ->
  chils (kind Q) = Raise KeyError ->
  children World analyze q s = (Return (VQuantum q), s).
Proof.
  intros Hq Hk. unfold children, try_or_return.
  rewrite bind_run.
  destruct (on_store (quantum_container q) s) as [[c|e] s1] eqn:Hc;
    apply quantum_container_reads in Hc as ->; [|done].
  rewrite bind_run.
  destruct (getattr_container World c s) as [[cc|e] s2] eqn:Hcc;
    apply getattr_container_reads in Hcc as ->; [|done].
  rewrite bind_run.
  rewrite (on_store_reads World (get_quantum q) s (Return Q))
    by (unfold get_quantum; by rewrite Hq).
  rewrite bind_run. unfold lift. by rewrite Hk.
Qed.

(** X22.  For a quantum whose kind is not tatum, beat or bar, in an
    attached collection, [local_context] is the position in that
    collection, the same as [absolute_context]. *)
Theorem local_context_outside_hierarchy s g rs i r Q :
  attached (store s) g rs -> rs !! i = Some r ->
  quanta (store s) !! r = Some Q -> in_hierarchy (kind Q) = false ->
  local_context World analyze r s = (Return (Z.of_nat i, len rs), s) /\
  on_store (absolute_context r) s = (Return (Z.of_nat i, len rs), s).
Proof.
  intros Hatt Hr Hq Hk.
  destruct (attached_member (store s) g rs i r Hatt Hr)
    as (kd & c & Q' & Hg & Hq' & Hc & Hi).
  assert (Q' = Q) as -> by congruence.
  split.
  - unfold local_context, group.
    rewrite (bind_returns _ _ s s (VQuantumList g)).
    2:{ rewrite (bind_returns _ _ s s Q)
          by (apply on_store_reads; unfold get_quantum; by rewrite Hq).
        rewrite Hk. apply on_store_reads.
        unfold quantum_container, bind, get_quantum. by rewrite Hq, Hc. }
    rewrite (bind_returns _ _ s s (len rs)).
    2:{ apply on_store_reads. unfold group_len, list_len, bind, get_list.
        by rewrite Hg. }
    rewrite (bind_returns _ _ s s (Z.of_nat i)); [done|].
    apply on_store_reads. unfold group_index, bind, get_list, lift.
    rewrite Hg. cbn [items]. by rewrite Hi.
  - apply on_store_reads. by apply absolute_context_position with g.
Qed.

End MoreHierarchy.

(** ** More on the parsers *)

Section MoreParsers.

Variable tag : string.
Variable out : ref.
Variable s0 : Store.

Implicit Types s : Store.
Implicit Types rs : list ref.
Implicit Types qs : list AudioQuantum.

#[local] Abbreviation parsed := (parsed tag out s0).

(** One round of the loop that fills a collection, for any way [mk] of
    making a quantum from a node. *)
Lemma fill_step {N} (mk : N -> AudioQuantum) s rs qs n :
  parsed s rs qs ->
  exists s' r,
    (let! q := new_quantum (mk n) in list_append out q) s = (Return tt, s') /\
    parsed s' (rs ++ [r]) (qs ++ [mk n]).
Proof.
  intros ((Hout & Hall & Hnd) & Hnew & Hfresh & Hold & Hlists).
  set (r := fresh (dom (quanta s))).
  assert (quanta s !! r = None) as Hr by apply not_elem_of_dom, is_fresh.
  assert (r ∉ rs) as Hnotin.
  { intros Hin. apply list_elem_of_lookup in Hin as [i Hi].
    destruct (Forall2_lookup_l _ _ _ _ _ Hall Hi) as (q & _ & Hq).
    unfold r in *. congruence. }
  eexists _, r. split.
  - unfold bind, new_quantum, list_append, bind, get_list, set_list, modify.
    cbn. rewrite Hout. reflexivity.
  - split; [split; [|split]|split; [done|split; [|split]]]; cbn.
    + by rewrite lookup_insert_eq.
    + apply Forall2_app.
      * eapply Forall2_impl; [exact Hall|]. intros r' q' Hq'. cbn in Hq'.
        rewrite lookup_insert_ne; [done|]. intros Heq. unfold r in *. congruence.
      * constructor; [|constructor]. by rewrite lookup_insert_eq.
    + apply NoDup_app. split; [done|]. split; [|apply NoDup_singleton].
      intros x Hx Hx'. apply list_elem_of_singleton in Hx'. by subst.
    + intros x Hx. apply elem_of_app in Hx as [Hx|Hx]; [by apply Hfresh|].
      apply list_elem_of_singleton in Hx as ->.
      destruct (quanta s0 !! r) as [q0|] eqn:Hq0; [|done].
      rewrite <- (Hold r) in Hq0 by (by eexists). unfold r in *. congruence.
    + intros x Hx. rewrite <- (Hold x Hx). apply lookup_insert_ne.
      intros Heq. pose proof (Hold x Hx) as Hsame. rewrite <- Heq in Hsame, Hx.
      fold r in Hsame, Hx. rewrite Hr in Hsame. destruct Hx as [? Hx].
      rewrite Hx in Hsame. discriminate.
    + intros l Hl. rewrite lookup_insert_ne by done. by apply Hlists.
Qed.

Lemma fill_loop {N} (mk : N -> AudioQuantum) nodes :
  forall s rs qs,
    parsed s rs qs ->
    exists s' rs',
      for_each nodes (fun n => let! q := new_quantum (mk n) in list_append out q) s
        = (Return tt, s') /\
      parsed s' (rs ++ rs') (qs ++ map mk nodes).
Proof.
  induction nodes as [|n nodes IH]; intros s rs qs Hp.
  - exists s, []. split; [done|]. by rewrite !app_nil_r.
  - destruct (fill_step mk s rs qs n Hp) as (s1 & r & Hrun & Hp1).
    destruct (IH s1 _ _ Hp1) as (s' & rs' & Hrun' & Hp').
    exists s', (r :: rs'). split.
    + rewrite for_each_cons, Hrun. exact Hrun'.
    + cbn [map]. by rewrite !(cons_middle _ _ _), !app_assoc.
Qed.

(** The store right after the empty collection was made. *)
Lemma parsed_start :
  out = fresh (dom (qlists s0)) ->
  parsed
    (mkStore (quanta s0)
       (<[out := mkAudioQuantumList [] (Some tag) VNone]> (qlists s0))) [] [].
Proof.
  intros ->. split; [split; [|split; constructor]|split; [|split; [|split]]]; cbn.
  - by rewrite lookup_insert_eq.
  - apply not_elem_of_dom, is_fresh.
  - intros r Hr. by apply not_elem_of_nil in Hr.
  - done.
  - intros l Hl. by rewrite lookup_insert_ne.
Qed.

Lemma parsed_built s rs qs : parsed s rs qs -> built tag out s rs qs.
Proof. by intros [Hb _]. Qed.

(** [out[i].duration = d] keeps everything but that duration. *)
Lemma set_duration_parsed s rs qs i r q d :
  parsed s rs qs -> rs !! i = Some r -> qs !! i = Some q ->
  exists s', set_duration r d s = (Return tt, s') /\
             parsed s' rs (<[i := with_duration q d]> qs).
Proof.
  intros Hp Hr Hq. pose proof Hp as (Hb & Hnew & Hfresh & Hold & Hlists).
  destruct (set_duration_built tag out s rs qs i r q d Hb Hr Hq) as (s' & Hrun & Hb').
  exists s'. split; [done|].
  unfold set_duration in Hrun.
  rewrite (bind_returns _ _ s s q (get_quantum_built tag out s rs qs i r q Hb Hr Hq))
    in Hrun.
  injection Hrun as <-.
  split; [done|]. split; [done|]. split; [done|]. split; cbn.
  - intros x Hx. rewrite lookup_insert_ne; [by apply Hold|].
    intros <-. destruct Hx as [? Hx].
    rewrite (Hfresh r) in Hx; [done|]. by eapply list_elem_of_lookup_2.
  - done.
Qed.

Lemma spacing_step_parsed s rs qs i qt qn :
  parsed s rs qs -> qs !! i = Some qt -> qs !! S i = Some qn ->
  exists s',
    (let! next := list_getitem out (Z.of_nat i + 1) in
     let! qn := get_quantum next in
     let! this := list_getitem out (Z.of_nat i) in
     let! qt := get_quantum this in
     set_duration this (start qn - start qt)%Q) s = (Return tt, s') /\
    parsed s' rs (<[i := with_duration qt (start qn - start qt)%Q]> qs).
Proof.
  intros Hp Hqt Hqn. pose proof (parsed_built s rs qs Hp) as Hb.
  pose proof (built_length tag out s rs qs Hb) as Hlen.
  destruct (lookup_lt_is_Some_2 rs i) as [rt Hrt];
    [apply lookup_lt_Some in Hqt; lia|].
  destruct (lookup_lt_is_Some_2 rs (S i)) as [rn Hrn];
    [apply lookup_lt_Some in Hqn; lia|].
  destruct (set_duration_parsed s rs qs i rt qt (start qn - start qt)%Q Hp Hrt Hqt)
    as (s' & Hset & Hp').
  exists s'. split; [|done].
  replace (Z.of_nat i + 1) with (Z.of_nat (S i)) by lia.
  rewrite (bind_returns _ _ s s rn (getitem_built tag out s rs qs (S i) rn Hb Hrn)).
  rewrite (bind_returns _ _ s s qn (get_quantum_built tag out s rs qs (S i) rn qn Hb Hrn Hqn)).
  rewrite (bind_returns _ _ s s rt (getitem_built tag out s rs qs i rt Hb Hrt)).
  rewrite (bind_returns _ _ s s qt (get_quantum_built tag out s rs qs i rt qt Hb Hrt Hqt)).
  exact Hset.
Qed.

Lemma undated_insert qs i q d :
  qs !! i = Some q ->
  map (fun x => with_duration x 0) (<[i := with_duration q d]> qs) =
  map (fun x => with_duration x 0) qs.
Proof.
  intros Hq. change (map ?f) with (fmap (M:=list) f).
  rewrite list_fmap_insert. apply list_insert_id.
  by rewrite list_lookup_fmap, Hq.
Qed.

(** The second loop of [dataParser] changes durations only. *)
Lemma spacing_loop_parsed rs m :
  forall k s qs,
    parsed s rs qs -> (k + m < length rs)%nat ->
    exists s' qs',
      for_each (map Z.of_nat (seq k m)) (fun i : Z =>
        let! next := list_getitem out (i + 1) in
        let! qn := get_quantum next in
        let! this := list_getitem out i in
        let! qt := get_quantum this in
        set_duration this (start qn - start qt)%Q) s = (Return tt, s') /\
      parsed s' rs qs' /\
      map (fun x => with_duration x 0) qs' = map (fun x => with_duration x 0) qs.
Proof.
  induction m as [|m IH]; intros k s qs Hp Hkm.
  - by exists s, qs.
  - pose proof (built_length tag out s rs qs (parsed_built s rs qs Hp)) as Hlen.
    destruct (lookup_lt_is_Some_2 qs k) as [qt Hqt]; [lia|].
    destruct (lookup_lt_is_Some_2 qs (S k)) as [qn Hqn]; [lia|].
    destruct (spacing_step_parsed s rs qs k qt qn Hp Hqt Hqn) as (s1 & Hrun & Hp1).
    destruct (IH (S k) s1 _ Hp1) as (s' & qs' & Hrun' & Hp' & Hund); [lia|].
    exists s', qs'. split; [|split; [done|]].
    + cbn [seq map]. rewrite for_each_cons. cbv beta. by rewrite Hrun.
    + by rewrite Hund, undated_insert.
Qed.

End MoreParsers.

(** The run of [dataParser] on any document. *)
Lemma dataParser_run (tag : string) (doc : gmap string (list Node)) (s0 : Store) :
  exists out s' rs qs,
    dataParser tag doc s0 = (Return out, s') /\
    parsed tag out s0 s' rs qs /\
    map (fun q => with_duration q 0) qs =
      map (fun n => AudioQuantum_init (node_data n) 0 (Some tag)
                      (Some (node_confidence n))) (default [] (doc !! tag)) /\
    ((length (default [] (doc !! tag)) <= 1)%nat ->
     qs = map (fun n => AudioQuantum_init (node_data n) 0 (Some tag)
                          (Some (node_confidence n))) (default [] (doc !! tag))).
Proof.
  set (nodes := default [] (doc !! tag)).
  set (out := fresh (dom (qlists s0))).
  set (s1 := mkStore (quanta s0)
               (<[out := mkAudioQuantumList [] (Some tag) VNone]> (qlists s0))).
  pose proof (parsed_start tag out s0 eq_refl) as Hp1. fold s1 in Hp1.
  destruct (fill_loop tag out s0
              (fun n => AudioQuantum_init (node_data n) 0 (Some tag)
                          (Some (node_confidence n))) nodes s1 [] [] Hp1)
    as (s2 & rs & Hrun2 & Hp2).
  cbn [app] in Hp2.
  set (qs0 := map (fun n => AudioQuantum_init (node_data n) 0 (Some tag)
                              (Some (node_confidence n))) nodes) in *.
  pose proof (parsed_built tag out s0 s2 rs qs0 Hp2) as Hb2.
  assert (length rs = length nodes) as Hlen.
  { rewrite (built_length tag out s2 rs qs0 Hb2). unfold qs0. by rewrite length_map. }
  assert (map (fun q => with_duration q 0) qs0 = qs0) as Hund0.
  { unfold qs0. rewrite map_map. done. }
  assert (dataParser tag doc s0 =
          ((if 1 <? len rs then
              for_each (range (len rs - 1)) (fun i =>
                let! next := list_getitem out (i + 1) in
                let! qn := get_quantum next in
                let! this := list_getitem out i in
                let! qt := get_quantum this in
                set_duration this (start qn - start qt)%Q) ;;
              let! penultimate := list_getitem out (-2) in
              let! qp := get_quantum penultimate in
              let! last := list_getitem out (-1) in
              set_duration last (duration qp)
            else ret tt) ;;
           ret out) s2) as Hrest.
  { unfold dataParser.
    rewrite (bind_returns _ _ s0 s1 out) by done. fold nodes.
    rewrite (bind_returns _ _ s1 s2 tt Hrun2).
    by rewrite (bind_returns _ _ s2 s2 (len rs))
      by (unfold list_len;
          by rewrite (bind_returns _ _ s2 s2 _ (get_list_built tag out s2 rs qs0 Hb2))). }
  rewrite Hrest.
  destruct (Z.ltb_spec 1 (len rs)) as [Hmany|Hfew].
  - unfold len in Hmany.
    destruct (spacing_loop_parsed tag out s0 rs (length rs - 1) 0 s2 qs0 Hp2)
      as (s3 & qs3 & Hrun3 & Hp3 & Hund3); [lia|].
    pose proof (parsed_built tag out s0 s3 rs qs3 Hp3) as Hb3.
    pose proof (built_length tag out s3 rs qs3 Hb3) as Hlen3.
    destruct (lookup_lt_is_Some_2 rs (length rs - 2)) as [rp Hrp]; [lia|].
    destruct (lookup_lt_is_Some_2 rs (length rs - 1)) as [rl Hrl]; [lia|].
    destruct (lookup_lt_is_Some_2 qs3 (length rs - 2)) as [qp Hqp]; [lia|].
    destruct (lookup_lt_is_Some_2 qs3 (length rs - 1)) as [ql Hql]; [lia|].
    destruct (set_duration_parsed tag out s0 s3 rs qs3 (length rs - 1) rl ql
                (duration qp) Hp3 Hrl Hql) as (s4 & Hrun4 & Hp4).
    exists out, s4, rs, (<[(length rs - 1)%nat := with_duration ql (duration qp)]> qs3).
    split; [|split; [done|split]].
    + rewrite (bind_returns _ _ s2 s4 tt); [done|].
      unfold range. replace (Z.to_nat (len rs - 1)) with (length rs - 1)%nat
        by (unfold len; lia).
      rewrite (bind_returns _ _ s2 s3 tt Hrun3).
      change (-2) with (- Z.of_nat 2). change (-1) with (- Z.of_nat 1).
      rewrite (bind_returns _ _ s3 s3 rp)
        by (apply (getitem_built_neg tag out s3 rs qs3); [done|lia|done]).
      rewrite (bind_returns _ _ s3 s3 qp)
        by (by apply (get_quantum_built tag out s3 rs qs3 (length rs - 2))).
      rewrite (bind_returns _ _ s3 s3 rl)
        by (apply (getitem_built_neg tag out s3 rs qs3); [done|lia|done]).
      exact Hrun4.
    + by rewrite undated_insert, Hund3, Hund0.
    + intros Hshort. fold nodes in Hshort. lia.
  - exists out, s2, rs, qs0. split; [|split; [done|split; [done|done]]].
    by rewrite (bind_returns _ _ s2 s2 tt).
Qed.

(** X23.  On a document whose elements of the tag all carry a numeric
    text and a numeric [confidence] attribute, with any number of such
    elements, [dataParser] returns a new collection of the kind of the
    tag, not attached, with one new quantum per element of the tag, in
    document order; apart from their durations the quanta are the ones
    the constructor makes from the start time and the confidence of the
    elements, and none has a container.  Nothing that was in the store
    is changed. *)
Theorem dataParser_members (tag : string) (doc : gmap string (list Node))
    (s0 : Store) :
  exists out s' rs qs,
    dataParser tag doc s0 = (Return out, s') /\
    parsed tag out s0 s' rs qs /\
    map (fun q => with_duration q 0) qs =
      map (fun n => AudioQuantum_init (node_data n) 0 (Some tag)
                      (Some (node_confidence n))) (default [] (doc !! tag)).
Proof.
  destruct (dataParser_run tag doc s0) as (out & s' & rs & qs & Hrun & Hp & Hund & _).
  by exists out, s', rs, qs.
Qed.

(** X24.  With fewer than two elements of the tag there is nothing to
    take a duration from: the collection is empty, or holds one quantum
    whose duration is the 0 of the constructor. *)
Theorem dataParser_short (tag : string) (doc : gmap string (list Node))
    (s0 : Store) :
  (length (default [] (doc !! tag)) <= 1)%nat ->
  exists out s' rs,
    dataParser tag doc s0 = (Return out, s') /\
    parsed tag out s0 s' rs
      (map (fun n => AudioQuantum_init (node_data n) 0 (Some tag)
                       (Some (node_confidence n))) (default [] (doc !! tag))).
Proof.
  intros Hshort.
  destruct (dataParser_run tag doc s0) as (out & s' & rs & qs & Hrun & Hp & _ & Hqs).
  exists out, s', rs. rewrite <- (Hqs Hshort). done.
Qed.

(** X25.  [attributeParser] returns a new collection of the kind of the
    tag, not attached, with one new quantum per element in document
    order, whose start and duration are exactly the attributes of the
    element; the quanta have no confidence and no container, and
    nothing that was in the store is changed. *)
Theorem attributeParser_members (tag : string) (doc : gmap string (list Element))
    (s0 : Store) :
  exists out s' rs,
    attributeParser tag doc s0 = (Return out, s') /\
    parsed tag out s0 s' rs
      (map (fun n => AudioQuantum_init (attr_start n) (attr_duration n)
                       (Some tag) None) (default [] (doc !! tag))).
Proof.
  set (out := fresh (dom (qlists s0))).
  set (s1 := mkStore (quanta s0)
               (<[out := mkAudioQuantumList [] (Some tag) VNone]> (qlists s0))).
  pose proof (parsed_start tag out s0 eq_refl) as Hp1. fold s1 in Hp1.
  destruct (fill_loop tag out s0
              (fun n => AudioQuantum_init (attr_start n) (attr_duration n)
                          (Some tag) None)
              (default [] (doc !! tag)) s1 [] [] Hp1)
    as (s2 & rs & Hrun2 & Hp2).
  exists out, s2, rs. split; [|done].
  unfold attributeParser.
  rewrite (bind_returns _ _ s0 s1 out) by done.
  by rewrite (bind_returns _ _ s1 s2 tt Hrun2).
Qed.


(** ** More on the cached analysis *)

Section MoreCache.

Variable World : Type.
Variable analyze : string -> string -> M World pyval.

Implicit Types s : State World.
Implicit Types f : ref.
Implicit Types a : AudioAnalysis.

(** X26.  The first access to a cached variable whose parse function is
    [dataParser] on some tag, when the service answers with a document:
    one request is made; the access returns a new collection with one
    quantum per element of the tag; the variable holds the collection;
    and the collection is attached: its container is the analysis and
    it is the container of each of its members. *)
Theorem getattribute_attaches s f a name tag doc w :
  analyses s !! f = Some a -> name ∈ CACHED_VARIABLES ->
  attrs a !! name = Some VNone ->
  analyze name (id a) (world s) = (Return (VDoc doc), w) ->
  parsers a !! name = Some (collectionParser tag) ->
  exists out s' rs,
    getattribute World analyze f name s = (Return (VQuantumList out), s') /\
    fetches s' = fetches s ++ [(name, id a)] /\ world s' = w /\
    analyses s' =
      <[f := mkAudioAnalysis (id a) (parsers a)
               (<[name := VQuantumList out]> (attrs a))]> (analyses s) /\
    qlists (store s') !! out =
      Some (mkAudioQuantumList rs (Some tag) (VAnalysis f)) /\
    attached (store s') out rs /\
    length rs = length (default [] (doc !! tag)).
Proof.
  intros Ha Hname Hv Hfetch Hparser.
  destruct (dataParser_run tag doc (store s))
    as (out & st2 & rs & qs & Hparse & Hp & Hund & _).
  pose proof Hp as ((Hout & Hall & Hnd) & _).
  set (s1 := mkState (store s) (analyses s) w (fetches s ++ [(name, id a)])).
  set (a3 := mkAudioAnalysis (id a) (parsers a) (<[name := VQuantumList out]> (attrs a))).
  set (s3 := mkState st2 (<[f := a3]> (analyses s)) w (fetches s ++ [(name, id a)])).
  destruct (bind_members (VQuantumList out) rs
              (mkStore (quanta st2)
                 (<[out := mkAudioQuantumList rs (Some tag) (VAnalysis f)]> (qlists st2))))
    as (st4 & Hloop & Hlists & Hquanta).
  { apply Forall_forall. intros r Hr. apply list_elem_of_lookup in Hr as [i Hi].
    destruct (Forall2_lookup_l _ _ _ _ _ Hall Hi) as (q & _ & Hq). by eexists. }
  set (s4 := mkState st4 (<[f := a3]> (analyses s)) w (fetches s ++ [(name, id a)])).
  assert (object_getattribute World f name s3 = (Return (VQuantumList out), s3)) as Hread3.
  { apply object_getattribute_run with a3; [apply lookup_insert_eq|].
    apply lookup_insert_eq. }
  assert (object_getattribute World f name s4 = (Return (VQuantumList out), s4)) as Hread4.
  { apply object_getattribute_run with a3; [apply lookup_insert_eq|].
    apply lookup_insert_eq. }
  exists out, s4, rs. split; [|split; [done|split; [done|split; [done|split; [|split]]]]].
  - unfold getattribute. rewrite bool_decide_eq_true_2 by done.
    rewrite (bind_returns _ _ s s4 tt); [exact Hread4|].
    rewrite (bind_returns _ _ s s VNone) by (by apply object_getattribute_run with a).
    rewrite (bind_returns _ _ s s a) by (unfold get_analysis; by rewrite Ha).
    rewrite (bind_returns _ _ s s1 (VDoc doc)) by (unfold fetch; by rewrite Hfetch).
    unfold Parser in *. rewrite Hparser.
    rewrite (bind_returns _ _ s1 (mkState st2 (analyses s) w (fetches s ++ [(name, id a)]))
               (VQuantumList out)).
    2:{ unfold on_store, collectionParser. cbn [store s1].
        by rewrite (bind_returns _ _ _ _ _ Hparse). }
    rewrite (bind_returns _ _ _ s3 tt)
      by (unfold setattr, bind, get_analysis, modify; cbn; by rewrite Ha).
    rewrite (bind_returns _ _ s3 s3 _ Hread3).
    unfold on_store, attach. cbn [store s3].
    rewrite (bind_returns _ _ st2 st2 _ (get_list_built tag out st2 rs qs (conj Hout (conj Hall Hnd)))).
    cbn [items list_kind].
    rewrite (bind_returns _ _ st2
               (mkStore (quanta st2)
                  (<[out := mkAudioQuantumList rs (Some tag) (VAnalysis f)]> (qlists st2)))
               tt) by reflexivity.
    by rewrite Hloop.
  - cbn. rewrite Hlists. cbn. by rewrite lookup_insert_eq.
  - split; [|split; [done|]].
    + exists (Some tag), (VAnalysis f). cbn. rewrite Hlists. cbn.
      by rewrite lookup_insert_eq.
    + intros r Hr. cbn. rewrite Hquanta, decide_True by done. cbn.
      apply list_elem_of_lookup in Hr as [i Hi].
      destruct (Forall2_lookup_l _ _ _ _ _ Hall Hi) as (q & _ & Hq).
      rewrite Hq. by eexists.
  - apply Forall2_length in Hall. rewrite Hall.
    apply (f_equal length) in Hund. by rewrite !length_map in Hund.
Qed.

#[local] Instance keeps_ids_refl : Reflexive (@keeps_ids World).
Proof. by intros s r. Qed.

#[local] Instance keeps_ids_trans : Transitive (@keeps_ids World).
Proof. intros s1 s2 s3 H1 H2 r. by rewrite H2, H1. Qed.









End MoreCache.

Section MoreConstructor.

Variable World : Type.
Variable analyze : string -> string -> M World pyval.
Variable isfile : string -> bool.
Variable upload : string -> M World string.

Implicit Types s : State World.




End MoreConstructor.

(** ** The loudness of segments *)

Section Segments.

Implicit Types loc : Locals.
Implicit Types n : SegmentNode.

Lemma scan_keeps_bound ls :
  forall loc le, all_bound loc -> all_bound (foldl scan_dB (loc, le) ls).1.
Proof.
  induction ls as [|l ls IH]; intros loc le Hb; [done|].
  cbn [foldl]. unfold scan_dB at 2.
  destruct Hb as (Hb1 & Hb2 & Hb3).
  destruct (has_type l); [|destruct (negb (Qeq_bool (dB_time l) 0))];
    apply IH; repeat split; cbn; eauto.
Qed.

Lemma scan_no_begin ls :
  forall loc le,
    local_begin loc = None ->
    Forall (fun l => has_type l = true \/ Qeq_bool (dB_time l) 0 = false) ls ->
    local_begin (foldl scan_dB (loc, le) ls).1 = None.
Proof.
  induction ls as [|l ls IH]; intros loc le Hnone Hall; [done|].
  apply Forall_cons in Hall as [Hl Hall].
  cbn [foldl]. unfold scan_dB at 2.
  destruct (has_type l) eqn:Ht; [by apply IH|].
  destruct Hl as [|Hl]; [done|]. rewrite Hl. cbn [negb]. by apply IH.
Qed.

Lemma make_segment_bound n loc le :
  all_bound loc ->
  exists lb lm tlm,
    local_begin loc = Some lb /\ local_max loc = Some lm /\
    local_time_max loc = Some tlm /\
    make_segment n loc le =
      Parsed (AudioSegment_init (seg_start n) (seg_duration n) (seg_pitch n)
                (seg_coeff n) lb lm tlm le (Some "segment"%string)).
Proof.
  intros ([lb Hb] & [lm Hm] & [tlm Ht]). exists lb, lm, tlm.
  unfold make_segment. by rewrite Hb, Hm, Ht.
Qed.

Lemma make_segment_inv n loc le seg :
  make_segment n loc le = Parsed seg ->
  all_bound loc /\
  local_begin loc = Some (loudness_begin seg) /\
  local_max loc = Some (loudness_max seg) /\
  local_time_max loc = Some (time_loudness_max seg).
Proof.
  unfold make_segment, all_bound.
  destruct (local_begin loc) as [lb|]; [|discriminate].
  destruct (local_max loc) as [lm|]; [|discriminate].
  destruct (local_time_max loc) as [tlm|]; [|discriminate].
  intros [= <-]. cbn. eauto 10.
Qed.

(** From locals that are all assigned, no document can make the parser
    raise. *)
Lemma parse_segments_bound nodes :
  forall loc, all_bound loc ->
    exists l, parse_segments loc nodes = Parsed l /\ length l = length nodes.
Proof.
  induction nodes as [|n nodes IH]; intros loc Hb; [by exists []|].
  cbn [parse_segments].
  pose proof (scan_keeps_bound (seg_dB n) loc None Hb) as Hb'.
  destruct (foldl scan_dB (loc, None) (seg_dB n)) as [loc' le]. cbn [fst] in Hb'.
  destruct (make_segment_bound n loc' le Hb') as (lb & lm & tlm & _ & _ & _ & ->).
  destruct (IH loc' Hb') as (l & -> & Hlen).
  eexists. split; [reflexivity|]. cbn. by rewrite Hlen.
Qed.

(** X29.  The loudness variables of [fullSegmentsParser] are not
    initialised: when the first segment has no [dB] element without
    [type] at time 0, the parser raises the [UnboundLocalError] of
    [loudness_begin], whatever follows in the document. *)
Theorem segments_first_unbound n rest :
  Forall (fun l => has_type l = true \/ Qeq_bool (dB_time l) 0 = false) (seg_dB n) ->
  fullSegmentsParser (n :: rest) = UnboundLocalError "loudness_begin".
Proof.
  intros Hall. unfold fullSegmentsParser. cbn [parse_segments].
  pose proof (scan_no_begin (seg_dB n) (mkLocals None None None) None eq_refl Hall)
    as Hnone.
  destruct (foldl scan_dB (mkLocals None None None, None) (seg_dB n)) as [loc' le].
  cbn [fst] in Hnone. unfold make_segment. by rewrite Hnone.
Qed.

Lemma parse_segments_carry loc n1 n2 rest s1 :
  parse_segments loc [n1] = Parsed [s1] ->
  seg_dB n2 = [] ->
  exists s2 l,
    parse_segments loc (n1 :: n2 :: rest) = Parsed (s1 :: s2 :: l) /\
    length l = length rest /\
    loudness_begin s2 = loudness_begin s1 /\
    loudness_max s2 = loudness_max s1 /\
    time_loudness_max s2 = time_loudness_max s1 /\
    loudness_end s2 = None.
Proof.
  intros Hfirst Hempty. cbn [parse_segments] in *. rewrite Hempty. cbn [foldl].
  destruct (foldl scan_dB (loc, None) (seg_dB n1)) as [loc1 le1].
  destruct (make_segment n1 loc1 le1) as [seg|x] eqn:Hseg; [|discriminate].
  injection Hfirst as ->.
  destruct (make_segment_inv n1 loc1 le1 s1 Hseg) as (Hb & Hlb & Hlm & Htlm).
  destruct (parse_segments_bound rest loc1 Hb) as (l & Hrest & Hlen).
  unfold make_segment. rewrite Hlb, Hlm, Htlm, Hrest.
  by eexists _, l.
Qed.

(** X30.  The loudness variables are not reset between segments either.
    When the first segment of a document parses on its own, the whole
    document parses, whatever its later segments hold, and a second
    segment without [dB] elements silently gets the [loudness_begin],
    [loudness_max] and [time_loudness_max] of the first; only
    [loudness_end] starts afresh, and is absent. *)
Theorem segments_carry_over n1 n2 rest s1 :
  fullSegmentsParser [n1] = Parsed [s1] ->
  seg_dB n2 = [] ->
  exists s2 l,
    fullSegmentsParser (n1 :: n2 :: rest) = Parsed (s1 :: s2 :: l) /\
    length l = length rest /\
    loudness_begin s2 = loudness_begin s1 /\
    loudness_max s2 = loudness_max s1 /\
    time_loudness_max s2 = time_loudness_max s1 /\
    loudness_end s2 = None.
Proof. unfold fullSegmentsParser. apply parse_segments_carry. Qed.

End Segments.

(** ** More examples *)

Section MoreExamples.

Import Ex.
Import Cases.

(** [full2 + one_row] has the three rows [1, 2, 9]. *)
Lemma add_concatenates_witness :
  h_full !! 0%nat = Some full2 /\ h_full !! 1%nat = Some one_row /\
  data full2 = Some [1; 2] /\ data one_row = Some [9] /\
  let new := fresh (dom h_full) in
  AudioData_add Mono.zero 0%nat 1%nat h_full =
    (Return new,
     <[new := mkAudioData (Some ([1; 2] ++ [9]))
                (AudioData_len full2 + AudioData_len one_row) None None]> h_full) /\
  h_full !! new = None.
Proof.
  assert (h_full !! 0%nat = Some full2) as H1 by reflexivity.
  assert (h_full !! 1%nat = Some one_row) as H2 by reflexivity.
  assert (data full2 = Some [1; 2]) as H3 by reflexivity.
  assert (data one_row = Some [9]) as H4 by reflexivity.
  exact (conj H1 (conj H2 (conj H3 (conj H4
    (add_concatenates Mono.zero h_full 0%nat 1%nat full2 one_row [1; 2] [9]
       H1 H2 H3 H4))))).
Defined.

(** [long3 + no_array] is a copy of [long3]. *)
Lemma add_missing_array_witness :
  h_none !! 0%nat = Some long3 /\ h_none !! 1%nat = Some no_array /\
  (data long3 = None \/ data no_array = None) /\
  AudioData_add Mono.zero 0%nat 1%nat h_none =
    (Return (fresh (dom h_none)),
     <[fresh (dom h_none) := mkAudioData (Some [10; 20; 30]) (len [10; 20; 30])
                               None None]> h_none).
Proof.
  assert (h_none !! 0%nat = Some long3) as H1 by reflexivity.
  assert (h_none !! 1%nat = Some no_array) as H2 by reflexivity.
  assert (data long3 = None \/ data no_array = None) as H3 by (right; reflexivity).
  exact (conj H1 (conj H2 (conj H3
    (add_missing_array Mono.zero h_none 0%nat 1%nat long3 no_array H1 H2 H3)))).
Defined.

(** The slice from 0.25 s to 0.75 s of the source of four samples. *)
Lemma getitem_slice_is_full_witness :
  h_source !! 0%nat = Some source /\ data source = Some [1; 2; 3; 4] /\
  sampleRate source = Some 4 /\
  is_slice (TimeRange (1 # 4) (3 # 4)) = true /\
  exists lo n rows,
    rows = take n (drop lo [1; 2; 3; 4]) /\
    getitem Mono.zero 0%nat (TimeRange (1 # 4) (3 # 4)) h_source =
      (Return (Buffer (fresh (dom h_source))),
       <[fresh (dom h_source) := mkAudioData (Some rows) (len rows) (Some 4) None]>
         h_source) /\
    h_source !! fresh (dom h_source) = None /\
    <[fresh (dom h_source) := mkAudioData (Some rows) (len rows) (Some 4) None]>
      h_source !! 0%nat = Some source.
Proof.
  assert (h_source !! 0%nat = Some source) as H1 by reflexivity.
  assert (data source = Some [1; 2; 3; 4]) as H2 by reflexivity.
  assert (sampleRate source = Some 4) as H3 by reflexivity.
  assert (is_slice (TimeRange (1 # 4) (3 # 4)) = true) as H4 by reflexivity.
  exact (conj H1 (conj H2 (conj H3 (conj H4
    (getitem_slice_is_full Mono.zero h_source 0%nat source [1; 2; 3; 4] 4
       (TimeRange (1 # 4) (3 # 4)) H1 H2 H3 H4))))).
Defined.

Lemma getitem_no_array_raises_witness :
  h_none !! 1%nat = Some no_array /\ data no_array = None /\
  getitem Mono.zero 1%nat (Sample 0) h_none = (Raise TypeError, h_none).
Proof.
  assert (h_none !! 1%nat = Some no_array) as H1 by reflexivity.
  assert (data no_array = None) as H2 by reflexivity.
  exact (conj H1 (conj H2
    (getitem_no_array_raises Mono.zero h_none 1%nat no_array (Sample 0) H1 H2))).
Defined.

(** The [append] of [partial] to the empty [prealloc]. *)
Lemma append_keeps_capacity_witness :
  let h' := <[0%nat := Mono.buffer [7; 0; 0; 0; 0] 3]> h_append in
  append 0%nat 1%nat h_append = (Return tt, h') /\
  dom h' = dom h_append /\
  (forall r, r <> 0%nat -> h' !! r = h_append !! r) /\
  (forall a, h_append !! 0%nat = Some a ->
     exists a', h' !! 0%nat = Some a' /\
                AudioData_len a' = AudioData_len a /\
                sampleRate a' = sampleRate a /\ numChannels a' = numChannels a /\
                endindex a <= endindex a').
Proof.
  assert (append 0%nat 1%nat h_append =
          (Return tt, <[0%nat := Mono.buffer [7; 0; 0; 0; 0] 3]> h_append)) as H1
    by (vm_compute; reflexivity).
  exact (conj H1
    (append_keeps_capacity h_append 0%nat 1%nat (Return tt) _ H1)).
Defined.

Lemma append_then_slice_witness :
  h_append !! 0%nat = Some prealloc /\ h_append !! 1%nat = Some partial /\
  data prealloc = Some [0; 0; 0; 0; 0] /\ data partial = Some [7; 0; 0] /\
  0 <= endindex prealloc /\
  endindex prealloc + len [7; 0; 0] <= len [0; 0; 0; 0; 0] /\
  let h1 := snd (append 0%nat 1%nat h_append) in
  fst (append 0%nat 1%nat h_append) = Return tt /\
  getitem Mono.zero 0%nat
      (SampleRange (Some (endindex prealloc))
         (Some (endindex prealloc + len [7; 0; 0]))) h1 =
    (Return (Buffer (fresh (dom h1))),
     <[fresh (dom h1) := mkAudioData (Some [7; 0; 0]) (len [7; 0; 0])
                           (sampleRate prealloc) None]> h1).
Proof.
  assert (h_append !! 0%nat = Some prealloc) as H1 by reflexivity.
  assert (h_append !! 1%nat = Some partial) as H2 by reflexivity.
  assert (data prealloc = Some [0; 0; 0; 0; 0]) as H3 by reflexivity.
  assert (data partial = Some [7; 0; 0]) as H4 by reflexivity.
  assert (0 <= endindex prealloc) as H5 by (vm_compute; discriminate).
  assert (endindex prealloc + len [7; 0; 0] <= len [0; 0; 0; 0; 0]) as H6
    by (vm_compute; discriminate).
  exact (conj H1 (conj H2 (conj H3 (conj H4 (conj H5 (conj H6
    (append_then_slice Mono.zero h_append 0%nat 1%nat prealloc partial
       [0; 0; 0; 0; 0] [7; 0; 0] H1 H2 H3 H4 H5 H6))))))).
Defined.

(** A source without an array but with a sample rate. *)
Lemma getpieces_errors_witness :
  h_none !! 1%nat = Some no_array /\ data no_array = None /\
  (is_Some (sampleRate no_array) \/ [q_first] = []) /\
  getpieces Mono.zero None 1%nat [q_first] h_none = (Raise AttributeError, h_none).
Proof.
  assert (h_none !! 1%nat = Some no_array) as H1 by reflexivity.
  assert (data no_array = None) as H2 by reflexivity.
  assert (is_Some (sampleRate no_array) \/ [q_first] = []) as H3
    by (left; exists 44100; reflexivity).
  exact (conj H1 (conj H2 (conj H3
    (proj2 (getpieces_errors Mono.zero None h_none 1%nat no_array [q_first] H1)
       H2 H3)))).
Defined.

Lemma getpieces_empty_witness :
  h_source !! 0%nat = Some source /\ data source = Some [1; 2; 3; 4] /\
  getpieces Mono.zero None 0%nat [] h_source =
    (Return (fresh (dom h_source)),
     <[fresh (dom h_source) :=
         mkAudioData (Some (replicate (Z.to_nat 100000) Mono.zero)) 0
           (sampleRate source) (Some 1)]> h_source).
Proof.
  assert (h_source !! 0%nat = Some source) as H1 by reflexivity.
  assert (data source = Some [1; 2; 3; 4]) as H2 by reflexivity.
  exact (conj H1 (conj H2
    (getpieces_empty Mono.zero None h_source 0%nat source [1; 2; 3; 4] H1 H2))).
Defined.

(** [long3] and [short2] mixed half and half. *)
Lemma mix_adds_into_longer_witness :
  0%nat <> 1%nat /\
  h_mix !! 0%nat = Some long3 /\ h_mix !! 1%nat = Some short2 /\
  data long3 = Some [10; 20; 30] /\ data short2 = Some [4; 6] /\
  endindex short2 < endindex long3 /\
  len [4; 6] = endindex short2 /\ endindex short2 <= len [10; 20; 30] /\
  mix Mono.mul Mono.add 0%nat 1%nat (1 # 2) h_mix =
    (Return (Some 0%nat),
     <[0%nat := mkAudioData
              (Some (zip_with Mono.add
                       (map (Mono.mul (1 # 2)) (take (length [4; 6]) [10; 20; 30]))
                       (map (Mono.mul (1 - (1 # 2))%Q) [4; 6]) ++
                     map (Mono.mul (1 # 2)) (drop (length [4; 6]) [10; 20; 30])))
              (endindex long3) (sampleRate long3) (numChannels long3)]>
       (<[1%nat := mkAudioData (Some (map (Mono.mul (1 - (1 # 2))%Q) [4; 6]))
                 (endindex short2) (sampleRate short2) (numChannels short2)]> h_mix)).
Proof.
  assert (0%nat <> 1%nat) as H0 by discriminate.
  assert (h_mix !! 0%nat = Some long3) as H1 by reflexivity.
  assert (h_mix !! 1%nat = Some short2) as H2 by reflexivity.
  assert (data long3 = Some [10; 20; 30]) as H3 by reflexivity.
  assert (data short2 = Some [4; 6]) as H4 by reflexivity.
  assert (endindex short2 < endindex long3) as H5 by reflexivity.
  assert (len [4; 6] = endindex short2) as H6 by reflexivity.
  assert (endindex short2 <= len [10; 20; 30]) as H7 by (vm_compute; discriminate).
  exact (conj H0 (conj H1 (conj H2 (conj H3 (conj H4 (conj H5 (conj H6 (conj H7
    (mix_adds_into_longer Mono.mul Mono.add h_mix 0%nat 1%nat long3 short2
       [10; 20; 30] [4; 6] (1 # 2) H0 H1 H2 H3 H4 H5 H6 H7))))))))).
Defined.

(** [long3] has been halved when [mix] finds that [no_array] has no
    array. *)
Lemma mix_not_atomic_witness :
  0%nat <> 1%nat /\
  h_none !! 0%nat = Some long3 /\ h_none !! 1%nat = Some no_array /\
  data long3 = Some [10; 20; 30] /\ data no_array = None /\
  mix Mono.mul Mono.add 0%nat 1%nat (1 # 2) h_none =
    (Raise TypeError,
     <[0%nat := mkAudioData (Some (map (Mono.mul (1 # 2)) [10; 20; 30]))
                  (endindex long3) (sampleRate long3) (numChannels long3)]> h_none).
Proof.
  assert (0%nat <> 1%nat) as H0 by discriminate.
  assert (h_none !! 0%nat = Some long3) as H1 by reflexivity.
  assert (h_none !! 1%nat = Some no_array) as H2 by reflexivity.
  assert (data long3 = Some [10; 20; 30]) as H3 by reflexivity.
  assert (data no_array = None) as H4 by reflexivity.
  exact (conj H0 (conj H1 (conj H2 (conj H3 (conj H4
    (proj2 (mix_not_atomic Mono.mul Mono.add h_none 0%nat 1%nat long3 no_array
              (1 # 2) H0 H1 H2) [10; 20; 30] H3 H4)))))).
Defined.

Lemma tatums_attached : attached tatums 0%nat [0%nat; 1%nat].
Proof.
  split; [by eexists _, _|]. split.
  - apply (bool_decide_unpack _). vm_compute. exact I.
  - intros r Hr. rewrite !elem_of_cons, elem_of_nil in Hr.
    destruct Hr as [->|[->|[]]]; eexists; split; reflexivity.
Qed.

(** One step forward from the first tatum and one step back. *)
Lemma next_prev_inverse_witness :
  attached tatums 0%nat [0%nat; 1%nat] /\
  [0%nat; 1%nat] !! 0%nat = Some 0%nat /\
  [0%nat; 1%nat] !! (0 + 1)%nat = Some 1%nat /\
  next 0%nat (Z.of_nat 1) tatums = (Return 1%nat, tatums) /\
  prev 1%nat (Z.of_nat 1) tatums = (Return 0%nat, tatums).
Proof.
  assert ([0%nat; 1%nat] !! 0%nat = Some 0%nat) as H2 by reflexivity.
  assert ([0%nat; 1%nat] !! (0 + 1)%nat = Some 1%nat) as H3 by reflexivity.
  exact (conj tatums_attached (conj H2 (conj H3
    (next_prev_inverse tatums 0%nat [0%nat; 1%nat] 0%nat 1%nat 0%nat 1%nat
       tatums_attached H2 H3)))).
Defined.

Lemma prev_next_fail_soft_witness :
  quanta tatums !! 0%nat = Some (tatum 0 (Some (VQuantumList 0%nat))) /\
  container (tatum 0 (Some (VQuantumList 0%nat))) = Some (VQuantumList 0%nat) /\
  (exists r, prev 0%nat 7 tatums = (Return r, tatums)) /\
  (exists r, next 0%nat 7 tatums = (Return r, tatums)).
Proof.
  assert (quanta tatums !! 0%nat = Some (tatum 0 (Some (VQuantumList 0%nat))))
    as H1 by reflexivity.
  assert (container (tatum 0 (Some (VQuantumList 0%nat)))
          = Some (VQuantumList 0%nat)) as H2 by reflexivity.
  exact (conj H1 (conj H2
    (prev_next_fail_soft tatums 0%nat _ (VQuantumList 0%nat) 7 H1 H2))).
Defined.

(** Five steps back from the second tatum end at the first. *)
Lemma prev_clamps_to_first_witness :
  attached tatums 0%nat [0%nat; 1%nat] /\
  [0%nat; 1%nat] !! 1%nat = Some 1%nat /\
  [0%nat; 1%nat] !! 0%nat = Some 0%nat /\
  Z.of_nat 1 <= 5 /\
  prev 1%nat 5 tatums = (Return 0%nat, tatums).
Proof.
  assert ([0%nat; 1%nat] !! 1%nat = Some 1%nat) as H2 by reflexivity.
  assert ([0%nat; 1%nat] !! 0%nat = Some 0%nat) as H3 by reflexivity.
  assert (Z.of_nat 1 <= 5) as H4 by (vm_compute; discriminate).
  exact (conj tatums_attached (conj H2 (conj H3 (conj H4
    (prev_clamps_to_first tatums 0%nat [0%nat; 1%nat] 1%nat 1%nat 0%nat 5
       tatums_attached H2 H3 H4))))).
Defined.

(** One step back from the first tatum gives the last. *)
Lemma next_negative_wraps_witness :
  attached tatums 0%nat [0%nat; 1%nat] /\
  [0%nat; 1%nat] !! 0%nat = Some 0%nat /\
  (1 <= 1 <= length [0%nat; 1%nat])%nat /\
  [0%nat; 1%nat] !! (length [0%nat; 1%nat] - 1)%nat = Some 1%nat /\
  next 0%nat (- Z.of_nat (0 + 1)) tatums = (Return 1%nat, tatums).
Proof.
  assert ([0%nat; 1%nat] !! 0%nat = Some 0%nat) as H2 by reflexivity.
  assert (1 <= 1 <= length [0%nat; 1%nat])%nat as H3 by (simpl; lia).
  assert ([0%nat; 1%nat] !! (length [0%nat; 1%nat] - 1)%nat = Some 1%nat) as H4
    by reflexivity.
  exact (conj tatums_attached (conj H2 (conj H3 (conj H4
    (next_negative_wraps tatums 0%nat [0%nat; 1%nat] 0%nat 1%nat 0%nat 1%nat
       tatums_attached H2 H3 H4))))).
Defined.

(** The third tatum was never attached. *)
Lemma absolute_context_cases_witness :
  quanta tatums !! 2%nat = Some (tatum (1 # 2) None) /\
  container (tatum (1 # 2) None) = None /\
  absolute_context 2%nat tatums = (Raise AttributeError, tatums).
Proof.
  assert (quanta tatums !! 2%nat = Some (tatum (1 # 2) None)) as H1 by reflexivity.
  assert (container (tatum (1 # 2) None) = None) as H2 by reflexivity.
  exact (conj H1 (conj H2
    (proj1 (proj2 (absolute_context_cases tatums 2%nat (tatum (1 # 2) None) H1))
       H2))).
Defined.

(** The two tatums attached to an analysis. *)
Lemma attach_binds_members_witness :
  let L := mkAudioQuantumList [0%nat; 1%nat] (Some "tatum"%string) VNone in
  qlists tatums !! 0%nat = Some L /\
  Forall (fun r => is_Some (quanta tatums !! r)) (items L) /\
  exists s',
    attach 0%nat (VAnalysis 0%nat) tatums = (Return tt, s') /\
    qlists s' =
      <[0%nat := mkAudioQuantumList (items L) (list_kind L) (VAnalysis 0%nat)]>
        (qlists tatums) /\
    (forall r, quanta s' !! r =
               if decide (r ∈ items L)
               then (fun Q => with_container Q (VQuantumList 0%nat))
                      <$> quanta tatums !! r
               else quanta tatums !! r) /\
    (NoDup (items L) -> attached s' 0%nat (items L)).
Proof.
  assert (qlists tatums !! 0%nat =
          Some (mkAudioQuantumList [0%nat; 1%nat] (Some "tatum"%string) VNone))
    as H1 by reflexivity.
  assert (Forall (fun r => is_Some (quanta tatums !! r))
            (items (mkAudioQuantumList [0%nat; 1%nat] (Some "tatum"%string) VNone)))
    as H2 by (repeat constructor; eexists; reflexivity).
  exact (conj H1 (conj H2
    (attach_binds_members tatums 0%nat _ (VAnalysis 0%nat) H1 H2))).
Defined.

(** The tatums that start after 0.1 s. *)
Lemma that_filters_witness :
  let G := mkAudioQuantumList [0%nat; 1%nat] (Some "tatum"%string) VNone in
  let qs := [tatum 0 (Some (VQuantumList 0%nat));
             tatum (1 # 4) (Some (VQuantumList 0%nat))] in
  let filt := fun q => Qltb (1 # 10) (start q) in
  qlists tatums !! 0%nat = Some G /\
  Forall2 (fun r q => quanta tatums !! r = Some q) (items G) qs /\
  let new := fresh (dom (qlists tatums)) in
  that 0%nat filt tatums =
    (Return new,
     mkStore (quanta tatums)
       (<[new := mkAudioQuantumList (accepted filt (items G) qs) None VNone]>
          (qlists tatums))) /\
  qlists tatums !! new = None /\
  accepted filt (items G) qs `sublist_of` items G.
Proof.
  assert (qlists tatums !! 0%nat =
          Some (mkAudioQuantumList [0%nat; 1%nat] (Some "tatum"%string) VNone))
    as H1 by reflexivity.
  assert (Forall2 (fun r q => quanta tatums !! r = Some q)
            (items (mkAudioQuantumList [0%nat; 1%nat] (Some "tatum"%string) VNone))
            [tatum 0 (Some (VQuantumList 0%nat));
             tatum (1 # 4) (Some (VQuantumList 0%nat))]) as H2
    by (repeat constructor).
  exact (conj H1 (conj H2
    (that_filters tatums 0%nat _ _ (fun q => Qltb (1 # 10) (start q)) H1 H2))).
Defined.

(** The first beat of [song] lies in its one bar. *)
Lemma parent_first_overlap_witness :
  quanta (store song) !! 0%nat = Some (beat 0) /\
  container (beat 0) = Some (VQuantumList 0%nat) /\
  qlists (store song) !! 0%nat = Some beats /\
  list_container beats = VAnalysis 0%nat /\
  analyses song !! 0%nat = Some song_analysis /\
  pars (kind (beat 0)) = Return "bars"%string /\
  attrs song_analysis !! "bars"%string = Some (VQuantumList 1%nat) /\
  qlists (store song) !! 1%nat = Some bars /\
  Forall2 (fun r x => quanta (store song) !! r = Some x) (items bars) [bar] /\
  parent nat service 0%nat song =
    (match accepted (overlap (beat 0)) (items bars) [bar] with
     | r :: _ => Return r
     | [] => Raise IndexError
     end,
     mkState
       (mkStore (quanta (store song))
          (<[fresh (dom (qlists (store song))) :=
               mkAudioQuantumList (accepted (overlap (beat 0)) (items bars) [bar])
                 None VNone]>
             (qlists (store song))))
       (analyses song) (world song) (fetches song)).
Proof.
  assert (quanta (store song) !! 0%nat = Some (beat 0)) as H1 by reflexivity.
  assert (container (beat 0) = Some (VQuantumList 0%nat)) as H2 by reflexivity.
  assert (qlists (store song) !! 0%nat = Some beats) as H3 by reflexivity.
  assert (list_container beats = VAnalysis 0%nat) as H4 by reflexivity.
  assert (analyses song !! 0%nat = Some song_analysis) as H5 by reflexivity.
  assert (pars (kind (beat 0)) = Return "bars"%string) as H6 by reflexivity.
  assert (attrs song_analysis !! "bars"%string = Some (VQuantumList 1%nat)) as H7
    by (vm_compute; reflexivity).
  assert (qlists (store song) !! 1%nat = Some bars) as H8 by reflexivity.
  assert (Forall2 (fun r x => quanta (store song) !! r = Some x) (items bars) [bar])
    as H9 by (repeat constructor).
  exact (conj H1 (conj H2 (conj H3 (conj H4 (conj H5 (conj H6 (conj H7 (conj H8
    (conj H9
       (parent_first_overlap nat service song 0%nat (beat 0) 0%nat beats 0%nat
          song_analysis "bars" 1%nat bars [bar]
          H1 H2 H3 H4 H5 H6 H7 H8 H9)))))))))).
Defined.

(** The bar of [song] holds its two beats. *)
Lemma children_contained_witness :
  quanta (store song) !! 2%nat = Some bar /\
  container bar = Some (VQuantumList 1%nat) /\
  qlists (store song) !! 1%nat = Some bars /\
  list_container bars = VAnalysis 0%nat /\
  analyses song !! 0%nat = Some song_analysis /\
  chils (kind bar) = Return "beats"%string /\
  attrs song_analysis !! "beats"%string = Some (VQuantumList 0%nat) /\
  qlists (store song) !! 0%nat = Some beats /\
  Forall2 (fun r x => quanta (store song) !! r = Some x) (items beats)
    [beat 0; beat 1] /\
  children nat service 2%nat song =
    (Return (VQuantumList (fresh (dom (qlists (store song))))),
     mkState
       (mkStore (quanta (store song))
          (<[fresh (dom (qlists (store song))) :=
               mkAudioQuantumList
                 (accepted (are_contained_by bar) (items beats) [beat 0; beat 1])
                 None VNone]>
             (qlists (store song))))
       (analyses song) (world song) (fetches song)).
Proof.
  assert (quanta (store song) !! 2%nat = Some bar) as H1 by reflexivity.
  assert (container bar = Some (VQuantumList 1%nat)) as H2 by reflexivity.
  assert (qlists (store song) !! 1%nat = Some bars) as H3 by reflexivity.
  assert (list_container bars = VAnalysis 0%nat) as H4 by reflexivity.
  assert (analyses song !! 0%nat = Some song_analysis) as H5 by reflexivity.
  assert (chils (kind bar) = Return "beats"%string) as H6 by reflexivity.
  assert (attrs song_analysis !! "beats"%string = Some (VQuantumList 0%nat)) as H7
    by (vm_compute; reflexivity).
  assert (qlists (store song) !! 0%nat = Some beats) as H8 by reflexivity.
  assert (Forall2 (fun r x => quanta (store song) !! r = Some x) (items beats)
            [beat 0; beat 1]) as H9 by (repeat constructor).
  exact (conj H1 (conj H2 (conj H3 (conj H4 (conj H5 (conj H6 (conj H7 (conj H8
    (conj H9
       (children_contained nat service song 2%nat bar 1%nat bars 0%nat
          song_analysis "beats" 0%nat beats [beat 0; beat 1]
          H1 H2 H3 H4 H5 H6 H7 H8 H9)))))))))).
Defined.

(** A tatum has no lower kind. *)
Lemma children_of_lowest_is_self_witness :
  quanta (store tatums_state) !! 0%nat = Some (tatum 0 (Some (VQuantumList 0%nat))) /\
  chils (kind (tatum 0 (Some (VQuantumList 0%nat)))) = Raise KeyError /\
  children nat service 0%nat tatums_state = (Return (VQuantum 0%nat), tatums_state).
Proof.
  assert (quanta (store tatums_state) !! 0%nat
          = Some (tatum 0 (Some (VQuantumList 0%nat)))) as H1 by reflexivity.
  assert (chils (kind (tatum 0 (Some (VQuantumList 0%nat)))) = Raise KeyError)
    as H2 by reflexivity.
  exact (conj H1 (conj H2
    (children_of_lowest_is_self nat service tatums_state 0%nat _ H1 H2))).
Defined.

Lemma sections_attached : attached (store song) 2%nat [3%nat].
Proof.
  split; [by eexists _, _|]. split.
  - apply (bool_decide_unpack _). vm_compute. exact I.
  - intros r Hr. rewrite !elem_of_cons, elem_of_nil in Hr.
    destruct Hr as [->|[]]; eexists; split; reflexivity.
Qed.

(** The section of [song] is the first of one. *)
Lemma local_context_outside_hierarchy_witness :
  attached (store song) 2%nat [3%nat] /\
  [3%nat] !! 0%nat = Some 3%nat /\
  quanta (store song) !! 3%nat = Some section /\
  in_hierarchy (kind section) = false /\
  local_context nat service 3%nat song = (Return (Z.of_nat 0, len [3%nat]), song) /\
  on_store (absolute_context 3%nat) song = (Return (Z.of_nat 0, len [3%nat]), song).
Proof.
  assert ([3%nat] !! 0%nat = Some 3%nat) as H2 by reflexivity.
  assert (quanta (store song) !! 3%nat = Some section) as H3 by reflexivity.
  assert (in_hierarchy (kind section) = false) as H4 by reflexivity.
  exact (conj sections_attached (conj H2 (conj H3 (conj H4
    (local_context_outside_hierarchy nat service song 2%nat [3%nat] 0%nat 3%nat
       section sections_attached H2 H3 H4))))).
Defined.

(** A document with one beat. *)
Lemma dataParser_short_witness :
  (length (default [] (one_beat_doc !! "beat"%string)) <= 1)%nat /\
  exists out s' rs,
    dataParser "beat" one_beat_doc empty_store = (Return out, s') /\
    parsed "beat" out empty_store s' rs
      (map (fun n => AudioQuantum_init (node_data n) 0 (Some "beat"%string)
                       (Some (node_confidence n)))
         (default [] (one_beat_doc !! "beat"%string))).
Proof.
  assert (length (default [] (one_beat_doc !! "beat"%string)) <= 1)%nat as H1
    by (vm_compute; lia).
  exact (conj H1 (dataParser_short "beat" one_beat_doc empty_store H1)).
Defined.

(** The first access to ['beats'] against a service that answers with
    the document of three beats. *)
Lemma getattribute_attaches_witness :
  analyses unfetched_beats !! 0%nat = Some beats_analysis /\
  "beats"%string ∈ CACHED_VARIABLES /\
  attrs beats_analysis !! "beats"%string = Some VNone /\
  doc_service "beats" (id beats_analysis) (world unfetched_beats)
    = (Return (VDoc beats_doc), 1%nat) /\
  parsers beats_analysis !! "beats"%string = Some (collectionParser "beat") /\
  exists out s' rs,
    getattribute nat doc_service 0%nat "beats" unfetched_beats
      = (Return (VQuantumList out), s') /\
    fetches s' = fetches unfetched_beats ++ [("beats"%string, id beats_analysis)] /\
    world s' = 1%nat /\
    analyses s' =
      <[0%nat := mkAudioAnalysis (id beats_analysis) (parsers beats_analysis)
               (<["beats"%string := VQuantumList out]> (attrs beats_analysis))]>
        (analyses unfetched_beats) /\
    qlists (store s') !! out =
      Some (mkAudioQuantumList rs (Some "beat"%string) (VAnalysis 0%nat)) /\
    attached (store s') out rs /\
    length rs = length (default [] (beats_doc !! "beat"%string)).
Proof.
  assert (analyses unfetched_beats !! 0%nat = Some beats_analysis) as H1
    by reflexivity.
  assert ("beats"%string ∈ CACHED_VARIABLES) as H2
    by (apply (bool_decide_unpack _); vm_compute; exact I).
  assert (attrs beats_analysis !! "beats"%string = Some VNone) as H3
    by (vm_compute; reflexivity).
  assert (doc_service "beats" (id beats_analysis) (world unfetched_beats)
          = (Return (VDoc beats_doc), 1%nat)) as H4 by reflexivity.
  assert (parsers beats_analysis !! "beats"%string = Some (collectionParser "beat"))
    as H5 by reflexivity.
  exact (conj H1 (conj H2 (conj H3 (conj H4 (conj H5
    (getattribute_attaches nat doc_service unfetched_beats 0%nat beats_analysis
       "beats" "beat" beats_doc 1%nat H1 H2 H3 H4 H5)))))).
Defined.



(** A first segment that only has its maximum. *)
Lemma segments_first_unbound_witness :
  Forall (fun l => has_type l = true \/ Qeq_bool (dB_time l) 0 = false)
    (seg_dB seg_max_only) /\
  fullSegmentsParser [seg_max_only; seg_full] = UnboundLocalError "loudness_begin".
Proof.
  assert (Forall (fun l => has_type l = true \/ Qeq_bool (dB_time l) 0 = false)
            (seg_dB seg_max_only)) as H1
    by (repeat constructor).
  exact (conj H1 (segments_first_unbound seg_max_only [seg_full] H1)).
Defined.

(** A complete segment followed by one without loudness. *)
Lemma segments_carry_over_witness :
  let s1 := AudioSegment_init 0 (1 # 2) [1%Q; 0%Q] [3%Q] (-60) (-20) (1 # 10)
              (Some (-40)%Q) (Some "segment"%string) in
  fullSegmentsParser [seg_full] = Parsed [s1] /\
  seg_dB seg_bare = [] /\
  exists s2 l,
    fullSegmentsParser [seg_full; seg_bare] = Parsed (s1 :: s2 :: l) /\
    length l = length (@nil SegmentNode) /\
    loudness_begin s2 = loudness_begin s1 /\
    loudness_max s2 = loudness_max s1 /\
    time_loudness_max s2 = time_loudness_max s1 /\
    loudness_end s2 = None.
Proof.
  assert (fullSegmentsParser [seg_full] =
          Parsed [AudioSegment_init 0 (1 # 2) [1%Q; 0%Q] [3%Q] (-60) (-20) (1 # 10)
                    (Some (-40)%Q) (Some "segment"%string)]) as H1
    by (vm_compute; reflexivity).
  assert (seg_dB seg_bare = []) as H2 by reflexivity.
  exact (conj H1 (conj H2 (segments_carry_over seg_full seg_bare [] _ H1 H2))).
Defined.

End MoreExamples.
